(** * Verification of the xDS discovery core

    A shallow embedding of the ack/nack decision of the discovery server
    ([shouldRespond], [listEqualUnordered]), of push-request merging
    ([PushRequest.Merge]), of the push-context snapshot engine
    ([InitContext], [createNewContext], [updateContext],
    [initServiceRegistry], [DestinationRule]) and of the distribution
    status reconciliation ([ReconcileStatuses]), with the properties the
    specification states about them; then of the code around them: the
    response writer and the push order ([send], [getPushResources]), the
    distribution controller ([handleReport], [writeAllStatus],
    [removeStaleReporters], [writeStatus]) and the service registry of a
    snapshot ([sortServicesByCreationTime], [initDefaultExportMaps],
    [Services], [initServiceAccounts]). *)

From Stdlib Require Import ZArith String Ascii List Sorted Permutation Lia DecimalString DecimalZ.
From stdpp Require Import base decidable option list gmap strings fin_maps.

#[local] Set Warnings "-clear-no-such-hyp".

Open Scope string_scope.
Open Scope list_scope.

(** ** Ack/nack decision of the discovery server (package xds) *)

Module Ads.

(** [google.rpc.Status] as carried in [DiscoveryRequest.ErrorDetail]. *)
Record Status := mkStatus {
  Code : Z;
  Message : string
}.

(** The fields of [discovery.DiscoveryRequest] the server reads. *)
Record DiscoveryRequest := mkRequest {
  TypeUrl : string;
  VersionInfo : string;
  ResponseNonce : string;
  ResourceNames : list string;
  ErrorDetail : option Status
}.

(** Modelled from the spec: [model.WatchedResource] is declared in package
    model, in a file not embedded here; the fields are the ones the data
    model lists (last resource names, version and nonce sent, version and
    nonce acked, last send time, last payload size) together with [TypeUrl]
    and [LastRequest], which [shouldRespond] writes. *)
Record WatchedResource := mkWatched {
  wTypeUrl : string;
  wResourceNames : list string;
  VersionSent : string;
  NonceSent : string;
  VersionAcked : string;
  NonceAcked : string;
  LastSent : Z;
  LastSize : Z;
  LastRequest : option DiscoveryRequest
}.

(** [&model.WatchedResource{TypeUrl: .., ResourceNames: .., LastRequest: ..}]:
    every other field has Go's zero value. *)
Definition newWatchedResource (request : DiscoveryRequest) : WatchedResource :=
  {| wTypeUrl := TypeUrl request;
     wResourceNames := ResourceNames request;
     VersionSent := "";
     NonceSent := "";
     VersionAcked := "";
     NonceAcked := "";
     LastSent := 0;
     LastSize := 0;
     LastRequest := Some request |}.

(** The four assignments of the ACK branch on the existing entry. *)
Definition recordAck (w : WatchedResource) (request : DiscoveryRequest) : WatchedResource :=
  {| wTypeUrl := wTypeUrl w;
     wResourceNames := ResourceNames request;
     VersionSent := VersionSent w;
     NonceSent := NonceSent w;
     VersionAcked := VersionInfo request;
     NonceAcked := ResponseNonce request;
     LastSent := LastSent w;
     LastSize := LastSize w;
     LastRequest := Some request |}.

(** [model.Proxy]: the identifier and the watched-resources map, keyed by
    type URL. *)
Record Proxy := mkProxy {
  ID : string;
  WatchedResources : gmap string WatchedResource
}.

Record Connection := mkConnection {
  ConID : string;
  proxy : Proxy
}.

(** [con.proxy.WatchedResources[typeUrl] = w]. *)
Definition setWatched (con : Connection) (typeUrl : string) (w : WatchedResource) : Connection :=
  {| ConID := ConID con;
     proxy := {| ID := ID (proxy con);
                 WatchedResources := <[typeUrl := w]> (WatchedResources (proxy con)) |} |}.

(** The server as far as [shouldRespond] reads it: whether [InternalGen] is
    non-nil. *)
Record DiscoveryServer := mkServer {
  InternalGen : bool
}.

(** Modelled from the spec: [incrementXDSRejects], [InternalGen.OnNack] and
    the [xdsExpiredNonce] counter are declared in files not embedded here.
    They are the side effects of [shouldRespond] outside the connection;
    each call is recorded as an event with the arguments of the call (the
    error code is kept as the number it is converted from). The callback is
    handed the proxy; as the specification has it, a NACK is recorded and
    the watched resources keep their prior values, so the callback is taken
    not to write to the proxy. *)
Inductive Event :=
| XDSReject (typeUrl proxyID : string) (errCode : Z)
| OnNack (proxyID : string) (request : DiscoveryRequest)
| XDSExpiredNonce.

(** The set [first] that [listEqualUnordered] builds from its first list. *)
Definition firstSet (a : list string) : gset string :=
  foldl (fun first c => {[ c ]} ∪ first) ∅ a.

Definition listEqualUnordered (a b : list string) : bool :=
  if negb (Nat.eqb (length a) (length b)) then false
  else
    let first := firstSet a in
    forallb (fun c => bool_decide (c ∈ first)) b.

(** The result of [shouldRespond]: the boolean it returns, the connection
    after its writes and the events it emitted, in order. *)
Definition shouldRespond (s : DiscoveryServer) (con : Connection)
    (request : DiscoveryRequest) : bool * Connection * list Event :=
  match ErrorDetail request with
  | Some detail =>
      (false, con,
       XDSReject (TypeUrl request) (ID (proxy con)) (Code detail)
         :: (if InternalGen s then [OnNack (ID (proxy con)) request] else []))
  | None =>
      if String.eqb (ResponseNonce request) "" then
        (true, setWatched con (TypeUrl request) (newWatchedResource request), [])
      else
        match WatchedResources (proxy con) !! TypeUrl request with
        | None =>
            (true, setWatched con (TypeUrl request) (newWatchedResource request), [])
        | Some previousInfo =>
            if negb (String.eqb (ResponseNonce request) (NonceSent previousInfo)) then
              (false, con, [XDSExpiredNonce])
            else
              let previousResources := wResourceNames previousInfo in
              let con' := setWatched con (TypeUrl request) (recordAck previousInfo request) in
              if listEqualUnordered previousResources (ResourceNames request) then
                (false, con', [])
              else (true, con', [])
        end
  end.

(** Reading back the watched resource of a type URL ([Connection.Watched]). *)
Definition Watched (con : Connection) (typeUrl : string) : option WatchedResource :=
  WatchedResources (proxy con) !! typeUrl.

End Ads.


(** ** The push-context snapshot engine (package model) *)

Module Model.

(** *** Configuration objects and their kinds *)

(** Modelled from the spec: the group-version-kind constants ([gvk.*] and
    the four service-apis collections) are declared in the schema packages;
    the kinds form a closed set of distinct constants, and any other kind is
    kept under its name. *)
Inductive GroupVersionKind :=
| ServiceEntry
| DestinationRuleKind
| VirtualService
| GatewayKind
| Sidecar
| EnvoyFilter
| AuthorizationPolicy
| RequestAuthentication
| PeerAuthentication
| K8SServiceApisV1Alpha1Httproutes
| K8SServiceApisV1Alpha1Tcproutes
| K8SServiceApisV1Alpha1Gateways
| K8SServiceApisV1Alpha1Gatewayclasses
| OtherKind (name : string).

#[global] Instance GroupVersionKind_eq_dec : EqDecision GroupVersionKind.
Proof. solve_decision. Defined.

Definition GroupVersionKind_code (k : GroupVersionKind) : nat + string :=
  match k with
  | ServiceEntry => inl 0%nat
  | DestinationRuleKind => inl 1%nat
  | VirtualService => inl 2%nat
  | GatewayKind => inl 3%nat
  | Sidecar => inl 4%nat
  | EnvoyFilter => inl 5%nat
  | AuthorizationPolicy => inl 6%nat
  | RequestAuthentication => inl 7%nat
  | PeerAuthentication => inl 8%nat
  | K8SServiceApisV1Alpha1Httproutes => inl 9%nat
  | K8SServiceApisV1Alpha1Tcproutes => inl 10%nat
  | K8SServiceApisV1Alpha1Gateways => inl 11%nat
  | K8SServiceApisV1Alpha1Gatewayclasses => inl 12%nat
  | OtherKind name => inr name
  end.

Definition GroupVersionKind_decode (c : nat + string) : GroupVersionKind :=
  match c with
  | inl 0%nat => ServiceEntry
  | inl 1%nat => DestinationRuleKind
  | inl 2%nat => VirtualService
  | inl 3%nat => GatewayKind
  | inl 4%nat => Sidecar
  | inl 5%nat => EnvoyFilter
  | inl 6%nat => AuthorizationPolicy
  | inl 7%nat => RequestAuthentication
  | inl 8%nat => PeerAuthentication
  | inl 9%nat => K8SServiceApisV1Alpha1Httproutes
  | inl 10%nat => K8SServiceApisV1Alpha1Tcproutes
  | inl 11%nat => K8SServiceApisV1Alpha1Gateways
  | inl _ => K8SServiceApisV1Alpha1Gatewayclasses
  | inr name => OtherKind name
  end.

#[global] Instance GroupVersionKind_countable : Countable GroupVersionKind.
Proof.
  apply (inj_countable' GroupVersionKind_code GroupVersionKind_decode).
  intros []; reflexivity.
Defined.

(** [ConfigKey]: the kind, name and namespace of a changed config. *)
Record ConfigKey := mkConfigKey {
  Kind : GroupVersionKind;
  Name : string;
  ckNamespace : string
}.

#[global] Instance ConfigKey_eq_dec : EqDecision ConfigKey.
Proof. solve_decision. Defined.

#[global] Instance ConfigKey_countable : Countable ConfigKey.
Proof.
  apply (inj_countable'
           (fun k => (Kind k, Name k, ckNamespace k))
           (fun t => mkConfigKey t.1.1 t.1.2 t.2)).
  intros []; reflexivity.
Defined.

(** [config.Config] as far as the engine looks at it: its metadata. *)
Record Config := mkConfig {
  cfgKind : GroupVersionKind;
  cfgName : string;
  cfgNamespace : string;
  cfgCreationTime : Z
}.

(** *** Services and visibility *)

(** The visibility constants, as the comments of [initServiceRegistry] spell
    them. *)
Definition Private : string := ".".
Definition Public : string := "*".
Definition None_ : string := "~".

(** Reading a Go [map[visibility.Instance]bool]: a missing key reads as
    [false]. *)
Definition exported (m : gmap string bool) (v : string) : bool :=
  default false (m !! v).

Record Port := mkPort {
  PortNumber : Z;
  Protocol : string
}.

Definition UDP : string := "UDP".

Record ServiceAttributes := mkServiceAttributes {
  Namespace : string;
  ExportTo : gmap string bool
}.

Record Service := mkService {
  Hostname : string;
  Attributes : ServiceAttributes;
  CreationTime : Z;
  Ports : list Port
}.

(** *** Objects the engine stores without looking inside *)

(** Modelled from the spec: [SidecarScope] is declared in another file of
    the package; it enumerates the visible services and the merged
    destination rules, which [Services] and [DestinationRule] read. *)
Record SidecarScope := mkSidecarScope {
  services : list Service;
  destinationRules : gmap string Config
}.

Definition SidecarScope_Services (sc : SidecarScope) : list Service := services sc.

Definition SidecarScope_DestinationRule (sc : SidecarScope) (hostname : string) : option Config :=
  destinationRules sc !! hostname.

(** Wrappers and policy sets are only stored, copied and replaced here; each
    stands for the object built out of the listed configs. *)
Record EnvoyFilterWrapper := mkEnvoyFilterWrapper { envoyFilterConfig : Config }.
Record AuthenticationPolicies := mkAuthenticationPolicies { authnConfigs : list Config }.
Record AuthorizationPolicies := mkAuthorizationPolicies { authzConfigs : list Config }.

Record Gateway := mkGateway {
  Addr : string;
  GatewayPort : Z
}.

(** [meshconfig.MeshConfig]: a nil default-export slice is [None]. *)
Record MeshConfig := mkMeshConfig {
  RootNamespace : string;
  DefaultServiceExportTo : option (list string);
  DefaultVirtualServiceExportTo : option (list string);
  DefaultDestinationRuleExportTo : option (list string)
}.

Record MeshNetworks := mkMeshNetworks {
  networkNames : list string
}.

Definition Error := string.

(** [Environment]: what the stores answer. [envServices] is [env.Services()],
    [envList k] is [env.List(k, NamespaceAll)]. *)
Record Environment := mkEnvironment {
  envMesh : MeshConfig;
  envNetworks : option MeshNetworks;
  envVersion : string;
  envServices : Error + list Service;
  envList : GroupVersionKind -> Error + list Config;
  GetIstioServiceAccounts : Service -> list Z -> list string
}.

(** *** Destination-rule buckets *)

Record processedDestRules := mkProcessedDestRules {
  hosts : list string;
  exportTo : gmap string (gmap string bool);
  destRule : gmap string Config
}.

Definition newProcessedDestRules : processedDestRules :=
  {| hosts := []; exportTo := ∅; destRule := ∅ |}.

(** *** The snapshot

    The mutexes and the metric map are left out. [Mesh] and
    [rootNamespaceLocalDestRules] are pointers that [InitContext] sets before
    any lookup reads them; the record keeps what they point to. *)
Record PushContext := mkPushContext {
  defaultServiceExportTo : gmap string bool;
  defaultVirtualServiceExportTo : gmap string bool;
  defaultDestinationRuleExportTo : gmap string bool;
  privateServicesByNamespace : gmap string (list Service);
  publicServices : list Service;
  servicesExportedToNamespace : gmap string (list Service);
  ServiceByHostnameAndNamespace : gmap string (gmap string Service);
  ServiceByHostname : gmap string Service;
  ServiceAccounts : gmap string (gmap Z (list string));
  virtualServicesExportedToNamespaceByGateway : gmap string (gmap string (list Config));
  privateVirtualServicesByNamespaceAndGateway : gmap string (gmap string (list Config));
  publicVirtualServicesByGateway : gmap string (list Config);
  namespaceLocalDestRules : gmap string processedDestRules;
  exportedDestRulesByNamespace : gmap string processedDestRules;
  rootNamespaceLocalDestRules : processedDestRules;
  clusterLocalHosts : list string;
  sidecarsByNamespace : gmap string (list SidecarScope);
  envoyFiltersByNamespace : gmap string (list EnvoyFilterWrapper);
  gatewaysByNamespace : gmap string (list Config);
  allGateways : list Config;
  AuthzPolicies : option AuthorizationPolicies;
  Mesh : MeshConfig;
  Networks : option MeshNetworks;
  ServiceDiscovery : option Environment;
  IstioConfigStore : option Environment;
  AuthnBetaPolicies : option AuthenticationPolicies;
  initDone : bool;
  Version : string;
  networkGateways : gmap string (list Gateway)
}.

(** Field assignments: [set_f v ps] is [ps] after [ps.f = v]; the grouped
    ones assign the fields of one index class together, in the order of the
    struct. *)

Definition setDefaultExportMaps
    (v1 : gmap string bool)
    (v2 : gmap string bool)
    (v3 : gmap string bool)
    (ps : PushContext) : PushContext :=
  mkPushContext v1 v2 v3 (privateServicesByNamespace ps) (publicServices ps)
    (servicesExportedToNamespace ps) (ServiceByHostnameAndNamespace ps) (ServiceByHostname ps)
    (ServiceAccounts ps) (virtualServicesExportedToNamespaceByGateway ps)
    (privateVirtualServicesByNamespaceAndGateway ps) (publicVirtualServicesByGateway ps)
    (namespaceLocalDestRules ps) (exportedDestRulesByNamespace ps)
    (rootNamespaceLocalDestRules ps) (clusterLocalHosts ps) (sidecarsByNamespace ps)
    (envoyFiltersByNamespace ps) (gatewaysByNamespace ps) (allGateways ps) (AuthzPolicies ps)
    (Mesh ps) (Networks ps) (ServiceDiscovery ps) (IstioConfigStore ps) (AuthnBetaPolicies ps)
    (initDone ps) (Version ps) (networkGateways ps).

Definition set_privateServicesByNamespace
    (v : gmap string (list Service))
    (ps : PushContext) : PushContext :=
  mkPushContext (defaultServiceExportTo ps) (defaultVirtualServiceExportTo ps)
    (defaultDestinationRuleExportTo ps) v (publicServices ps) (servicesExportedToNamespace ps)
    (ServiceByHostnameAndNamespace ps) (ServiceByHostname ps) (ServiceAccounts ps)
    (virtualServicesExportedToNamespaceByGateway ps)
    (privateVirtualServicesByNamespaceAndGateway ps) (publicVirtualServicesByGateway ps)
    (namespaceLocalDestRules ps) (exportedDestRulesByNamespace ps)
    (rootNamespaceLocalDestRules ps) (clusterLocalHosts ps) (sidecarsByNamespace ps)
    (envoyFiltersByNamespace ps) (gatewaysByNamespace ps) (allGateways ps) (AuthzPolicies ps)
    (Mesh ps) (Networks ps) (ServiceDiscovery ps) (IstioConfigStore ps) (AuthnBetaPolicies ps)
    (initDone ps) (Version ps) (networkGateways ps).

Definition set_publicServices (v : list Service) (ps : PushContext) : PushContext :=
  mkPushContext (defaultServiceExportTo ps) (defaultVirtualServiceExportTo ps)
    (defaultDestinationRuleExportTo ps) (privateServicesByNamespace ps) v
    (servicesExportedToNamespace ps) (ServiceByHostnameAndNamespace ps) (ServiceByHostname ps)
    (ServiceAccounts ps) (virtualServicesExportedToNamespaceByGateway ps)
    (privateVirtualServicesByNamespaceAndGateway ps) (publicVirtualServicesByGateway ps)
    (namespaceLocalDestRules ps) (exportedDestRulesByNamespace ps)
    (rootNamespaceLocalDestRules ps) (clusterLocalHosts ps) (sidecarsByNamespace ps)
    (envoyFiltersByNamespace ps) (gatewaysByNamespace ps) (allGateways ps) (AuthzPolicies ps)
    (Mesh ps) (Networks ps) (ServiceDiscovery ps) (IstioConfigStore ps) (AuthnBetaPolicies ps)
    (initDone ps) (Version ps) (networkGateways ps).

Definition set_servicesExportedToNamespace
    (v : gmap string (list Service))
    (ps : PushContext) : PushContext :=
  mkPushContext (defaultServiceExportTo ps) (defaultVirtualServiceExportTo ps)
    (defaultDestinationRuleExportTo ps) (privateServicesByNamespace ps) (publicServices ps) v
    (ServiceByHostnameAndNamespace ps) (ServiceByHostname ps) (ServiceAccounts ps)
    (virtualServicesExportedToNamespaceByGateway ps)
    (privateVirtualServicesByNamespaceAndGateway ps) (publicVirtualServicesByGateway ps)
    (namespaceLocalDestRules ps) (exportedDestRulesByNamespace ps)
    (rootNamespaceLocalDestRules ps) (clusterLocalHosts ps) (sidecarsByNamespace ps)
    (envoyFiltersByNamespace ps) (gatewaysByNamespace ps) (allGateways ps) (AuthzPolicies ps)
    (Mesh ps) (Networks ps) (ServiceDiscovery ps) (IstioConfigStore ps) (AuthnBetaPolicies ps)
    (initDone ps) (Version ps) (networkGateways ps).

Definition set_ServiceByHostnameAndNamespace
    (v : gmap string (gmap string Service))
    (ps : PushContext) : PushContext :=
  mkPushContext (defaultServiceExportTo ps) (defaultVirtualServiceExportTo ps)
    (defaultDestinationRuleExportTo ps) (privateServicesByNamespace ps) (publicServices ps)
    (servicesExportedToNamespace ps) v (ServiceByHostname ps) (ServiceAccounts ps)
    (virtualServicesExportedToNamespaceByGateway ps)
    (privateVirtualServicesByNamespaceAndGateway ps) (publicVirtualServicesByGateway ps)
    (namespaceLocalDestRules ps) (exportedDestRulesByNamespace ps)
    (rootNamespaceLocalDestRules ps) (clusterLocalHosts ps) (sidecarsByNamespace ps)
    (envoyFiltersByNamespace ps) (gatewaysByNamespace ps) (allGateways ps) (AuthzPolicies ps)
    (Mesh ps) (Networks ps) (ServiceDiscovery ps) (IstioConfigStore ps) (AuthnBetaPolicies ps)
    (initDone ps) (Version ps) (networkGateways ps).

Definition set_ServiceByHostname (v : gmap string Service) (ps : PushContext) : PushContext :=
  mkPushContext (defaultServiceExportTo ps) (defaultVirtualServiceExportTo ps)
    (defaultDestinationRuleExportTo ps) (privateServicesByNamespace ps) (publicServices ps)
    (servicesExportedToNamespace ps) (ServiceByHostnameAndNamespace ps) v (ServiceAccounts ps)
    (virtualServicesExportedToNamespaceByGateway ps)
    (privateVirtualServicesByNamespaceAndGateway ps) (publicVirtualServicesByGateway ps)
    (namespaceLocalDestRules ps) (exportedDestRulesByNamespace ps)
    (rootNamespaceLocalDestRules ps) (clusterLocalHosts ps) (sidecarsByNamespace ps)
    (envoyFiltersByNamespace ps) (gatewaysByNamespace ps) (allGateways ps) (AuthzPolicies ps)
    (Mesh ps) (Networks ps) (ServiceDiscovery ps) (IstioConfigStore ps) (AuthnBetaPolicies ps)
    (initDone ps) (Version ps) (networkGateways ps).

Definition set_ServiceAccounts
    (v : gmap string (gmap Z (list string)))
    (ps : PushContext) : PushContext :=
  mkPushContext (defaultServiceExportTo ps) (defaultVirtualServiceExportTo ps)
    (defaultDestinationRuleExportTo ps) (privateServicesByNamespace ps) (publicServices ps)
    (servicesExportedToNamespace ps) (ServiceByHostnameAndNamespace ps) (ServiceByHostname ps) v
    (virtualServicesExportedToNamespaceByGateway ps)
    (privateVirtualServicesByNamespaceAndGateway ps) (publicVirtualServicesByGateway ps)
    (namespaceLocalDestRules ps) (exportedDestRulesByNamespace ps)
    (rootNamespaceLocalDestRules ps) (clusterLocalHosts ps) (sidecarsByNamespace ps)
    (envoyFiltersByNamespace ps) (gatewaysByNamespace ps) (allGateways ps) (AuthzPolicies ps)
    (Mesh ps) (Networks ps) (ServiceDiscovery ps) (IstioConfigStore ps) (AuthnBetaPolicies ps)
    (initDone ps) (Version ps) (networkGateways ps).

Definition setVirtualServices
    (v1 : gmap string (gmap string (list Config)))
    (v2 : gmap string (gmap string (list Config)))
    (v3 : gmap string (list Config))
    (ps : PushContext) : PushContext :=
  mkPushContext (defaultServiceExportTo ps) (defaultVirtualServiceExportTo ps)
    (defaultDestinationRuleExportTo ps) (privateServicesByNamespace ps) (publicServices ps)
    (servicesExportedToNamespace ps) (ServiceByHostnameAndNamespace ps) (ServiceByHostname ps)
    (ServiceAccounts ps) v1 v2 v3 (namespaceLocalDestRules ps) (exportedDestRulesByNamespace ps)
    (rootNamespaceLocalDestRules ps) (clusterLocalHosts ps) (sidecarsByNamespace ps)
    (envoyFiltersByNamespace ps) (gatewaysByNamespace ps) (allGateways ps) (AuthzPolicies ps)
    (Mesh ps) (Networks ps) (ServiceDiscovery ps) (IstioConfigStore ps) (AuthnBetaPolicies ps)
    (initDone ps) (Version ps) (networkGateways ps).

Definition setDestRules
    (v1 : gmap string processedDestRules)
    (v2 : gmap string processedDestRules)
    (v3 : processedDestRules)
    (ps : PushContext) : PushContext :=
  mkPushContext (defaultServiceExportTo ps) (defaultVirtualServiceExportTo ps)
    (defaultDestinationRuleExportTo ps) (privateServicesByNamespace ps) (publicServices ps)
    (servicesExportedToNamespace ps) (ServiceByHostnameAndNamespace ps) (ServiceByHostname ps)
    (ServiceAccounts ps) (virtualServicesExportedToNamespaceByGateway ps)
    (privateVirtualServicesByNamespaceAndGateway ps) (publicVirtualServicesByGateway ps) v1 v2
    v3 (clusterLocalHosts ps) (sidecarsByNamespace ps) (envoyFiltersByNamespace ps)
    (gatewaysByNamespace ps) (allGateways ps) (AuthzPolicies ps) (Mesh ps) (Networks ps)
    (ServiceDiscovery ps) (IstioConfigStore ps) (AuthnBetaPolicies ps) (initDone ps)
    (Version ps) (networkGateways ps).

Definition set_clusterLocalHosts (v : list string) (ps : PushContext) : PushContext :=
  mkPushContext (defaultServiceExportTo ps) (defaultVirtualServiceExportTo ps)
    (defaultDestinationRuleExportTo ps) (privateServicesByNamespace ps) (publicServices ps)
    (servicesExportedToNamespace ps) (ServiceByHostnameAndNamespace ps) (ServiceByHostname ps)
    (ServiceAccounts ps) (virtualServicesExportedToNamespaceByGateway ps)
    (privateVirtualServicesByNamespaceAndGateway ps) (publicVirtualServicesByGateway ps)
    (namespaceLocalDestRules ps) (exportedDestRulesByNamespace ps)
    (rootNamespaceLocalDestRules ps) v (sidecarsByNamespace ps) (envoyFiltersByNamespace ps)
    (gatewaysByNamespace ps) (allGateways ps) (AuthzPolicies ps) (Mesh ps) (Networks ps)
    (ServiceDiscovery ps) (IstioConfigStore ps) (AuthnBetaPolicies ps) (initDone ps)
    (Version ps) (networkGateways ps).

Definition set_sidecarsByNamespace
    (v : gmap string (list SidecarScope))
    (ps : PushContext) : PushContext :=
  mkPushContext (defaultServiceExportTo ps) (defaultVirtualServiceExportTo ps)
    (defaultDestinationRuleExportTo ps) (privateServicesByNamespace ps) (publicServices ps)
    (servicesExportedToNamespace ps) (ServiceByHostnameAndNamespace ps) (ServiceByHostname ps)
    (ServiceAccounts ps) (virtualServicesExportedToNamespaceByGateway ps)
    (privateVirtualServicesByNamespaceAndGateway ps) (publicVirtualServicesByGateway ps)
    (namespaceLocalDestRules ps) (exportedDestRulesByNamespace ps)
    (rootNamespaceLocalDestRules ps) (clusterLocalHosts ps) v (envoyFiltersByNamespace ps)
    (gatewaysByNamespace ps) (allGateways ps) (AuthzPolicies ps) (Mesh ps) (Networks ps)
    (ServiceDiscovery ps) (IstioConfigStore ps) (AuthnBetaPolicies ps) (initDone ps)
    (Version ps) (networkGateways ps).

Definition set_envoyFiltersByNamespace
    (v : gmap string (list EnvoyFilterWrapper))
    (ps : PushContext) : PushContext :=
  mkPushContext (defaultServiceExportTo ps) (defaultVirtualServiceExportTo ps)
    (defaultDestinationRuleExportTo ps) (privateServicesByNamespace ps) (publicServices ps)
    (servicesExportedToNamespace ps) (ServiceByHostnameAndNamespace ps) (ServiceByHostname ps)
    (ServiceAccounts ps) (virtualServicesExportedToNamespaceByGateway ps)
    (privateVirtualServicesByNamespaceAndGateway ps) (publicVirtualServicesByGateway ps)
    (namespaceLocalDestRules ps) (exportedDestRulesByNamespace ps)
    (rootNamespaceLocalDestRules ps) (clusterLocalHosts ps) (sidecarsByNamespace ps) v
    (gatewaysByNamespace ps) (allGateways ps) (AuthzPolicies ps) (Mesh ps) (Networks ps)
    (ServiceDiscovery ps) (IstioConfigStore ps) (AuthnBetaPolicies ps) (initDone ps)
    (Version ps) (networkGateways ps).

Definition setGateways
    (v1 : gmap string (list Config))
    (v2 : list Config)
    (ps : PushContext) : PushContext :=
  mkPushContext (defaultServiceExportTo ps) (defaultVirtualServiceExportTo ps)
    (defaultDestinationRuleExportTo ps) (privateServicesByNamespace ps) (publicServices ps)
    (servicesExportedToNamespace ps) (ServiceByHostnameAndNamespace ps) (ServiceByHostname ps)
    (ServiceAccounts ps) (virtualServicesExportedToNamespaceByGateway ps)
    (privateVirtualServicesByNamespaceAndGateway ps) (publicVirtualServicesByGateway ps)
    (namespaceLocalDestRules ps) (exportedDestRulesByNamespace ps)
    (rootNamespaceLocalDestRules ps) (clusterLocalHosts ps) (sidecarsByNamespace ps)
    (envoyFiltersByNamespace ps) v1 v2 (AuthzPolicies ps) (Mesh ps) (Networks ps)
    (ServiceDiscovery ps) (IstioConfigStore ps) (AuthnBetaPolicies ps) (initDone ps)
    (Version ps) (networkGateways ps).

Definition set_AuthzPolicies (v : option AuthorizationPolicies) (ps : PushContext) : PushContext :=
  mkPushContext (defaultServiceExportTo ps) (defaultVirtualServiceExportTo ps)
    (defaultDestinationRuleExportTo ps) (privateServicesByNamespace ps) (publicServices ps)
    (servicesExportedToNamespace ps) (ServiceByHostnameAndNamespace ps) (ServiceByHostname ps)
    (ServiceAccounts ps) (virtualServicesExportedToNamespaceByGateway ps)
    (privateVirtualServicesByNamespaceAndGateway ps) (publicVirtualServicesByGateway ps)
    (namespaceLocalDestRules ps) (exportedDestRulesByNamespace ps)
    (rootNamespaceLocalDestRules ps) (clusterLocalHosts ps) (sidecarsByNamespace ps)
    (envoyFiltersByNamespace ps) (gatewaysByNamespace ps) (allGateways ps) v (Mesh ps)
    (Networks ps) (ServiceDiscovery ps) (IstioConfigStore ps) (AuthnBetaPolicies ps)
    (initDone ps) (Version ps) (networkGateways ps).

Definition set_AuthnBetaPolicies
    (v : option AuthenticationPolicies)
    (ps : PushContext) : PushContext :=
  mkPushContext (defaultServiceExportTo ps) (defaultVirtualServiceExportTo ps)
    (defaultDestinationRuleExportTo ps) (privateServicesByNamespace ps) (publicServices ps)
    (servicesExportedToNamespace ps) (ServiceByHostnameAndNamespace ps) (ServiceByHostname ps)
    (ServiceAccounts ps) (virtualServicesExportedToNamespaceByGateway ps)
    (privateVirtualServicesByNamespaceAndGateway ps) (publicVirtualServicesByGateway ps)
    (namespaceLocalDestRules ps) (exportedDestRulesByNamespace ps)
    (rootNamespaceLocalDestRules ps) (clusterLocalHosts ps) (sidecarsByNamespace ps)
    (envoyFiltersByNamespace ps) (gatewaysByNamespace ps) (allGateways ps) (AuthzPolicies ps)
    (Mesh ps) (Networks ps) (ServiceDiscovery ps) (IstioConfigStore ps) v (initDone ps)
    (Version ps) (networkGateways ps).

Definition setEnvironment
    (v1 : MeshConfig)
    (v2 : option MeshNetworks)
    (v3 : option Environment)
    (v4 : option Environment)
    (v5 : string)
    (ps : PushContext) : PushContext :=
  mkPushContext (defaultServiceExportTo ps) (defaultVirtualServiceExportTo ps)
    (defaultDestinationRuleExportTo ps) (privateServicesByNamespace ps) (publicServices ps)
    (servicesExportedToNamespace ps) (ServiceByHostnameAndNamespace ps) (ServiceByHostname ps)
    (ServiceAccounts ps) (virtualServicesExportedToNamespaceByGateway ps)
    (privateVirtualServicesByNamespaceAndGateway ps) (publicVirtualServicesByGateway ps)
    (namespaceLocalDestRules ps) (exportedDestRulesByNamespace ps)
    (rootNamespaceLocalDestRules ps) (clusterLocalHosts ps) (sidecarsByNamespace ps)
    (envoyFiltersByNamespace ps) (gatewaysByNamespace ps) (allGateways ps) (AuthzPolicies ps) v1
    v2 v3 v4 (AuthnBetaPolicies ps) (initDone ps) v5 (networkGateways ps).

Definition set_initDone (v : bool) (ps : PushContext) : PushContext :=
  mkPushContext (defaultServiceExportTo ps) (defaultVirtualServiceExportTo ps)
    (defaultDestinationRuleExportTo ps) (privateServicesByNamespace ps) (publicServices ps)
    (servicesExportedToNamespace ps) (ServiceByHostnameAndNamespace ps) (ServiceByHostname ps)
    (ServiceAccounts ps) (virtualServicesExportedToNamespaceByGateway ps)
    (privateVirtualServicesByNamespaceAndGateway ps) (publicVirtualServicesByGateway ps)
    (namespaceLocalDestRules ps) (exportedDestRulesByNamespace ps)
    (rootNamespaceLocalDestRules ps) (clusterLocalHosts ps) (sidecarsByNamespace ps)
    (envoyFiltersByNamespace ps) (gatewaysByNamespace ps) (allGateways ps) (AuthzPolicies ps)
    (Mesh ps) (Networks ps) (ServiceDiscovery ps) (IstioConfigStore ps) (AuthnBetaPolicies ps) v
    (Version ps) (networkGateways ps).

Definition set_networkGateways (v : gmap string (list Gateway)) (ps : PushContext) : PushContext :=
  mkPushContext (defaultServiceExportTo ps) (defaultVirtualServiceExportTo ps)
    (defaultDestinationRuleExportTo ps) (privateServicesByNamespace ps) (publicServices ps)
    (servicesExportedToNamespace ps) (ServiceByHostnameAndNamespace ps) (ServiceByHostname ps)
    (ServiceAccounts ps) (virtualServicesExportedToNamespaceByGateway ps)
    (privateVirtualServicesByNamespaceAndGateway ps) (publicVirtualServicesByGateway ps)
    (namespaceLocalDestRules ps) (exportedDestRulesByNamespace ps)
    (rootNamespaceLocalDestRules ps) (clusterLocalHosts ps) (sidecarsByNamespace ps)
    (envoyFiltersByNamespace ps) (gatewaysByNamespace ps) (allGateways ps) (AuthzPolicies ps)
    (Mesh ps) (Networks ps) (ServiceDiscovery ps) (IstioConfigStore ps) (AuthnBetaPolicies ps)
    (initDone ps) (Version ps) v.

(** *** Push requests *)

(** [TriggerReason] is a string type; its constants. *)
Definition TriggerReason := string.
Definition EndpointUpdate : TriggerReason := "endpoint".
Definition ConfigUpdate : TriggerReason := "config".
Definition ServiceUpdate : TriggerReason := "service".
Definition ProxyUpdate : TriggerReason := "proxy".
Definition GlobalUpdate : TriggerReason := "global".
Definition UnknownTrigger : TriggerReason := "unknown".
Definition DebugTrigger : TriggerReason := "debug".
Definition SecretTrigger : TriggerReason := "secret".

(** [ConfigsUpdated] is a [map[ConfigKey]struct{}], a set of keys; a nil map
    and an empty map are the same empty set. [Push] is a pointer and may be
    nil; [Start] is a point in time. *)
Record PushRequest := mkPushRequest {
  Full : bool;
  ConfigsUpdated : gset ConfigKey;
  Push : option PushContext;
  Start : Z;
  Reason : list TriggerReason
}.

(** [for conf := range m { merged[conf] = struct{}{} }]. *)
Definition insertAll (m : gset ConfigKey) (merged : gset ConfigKey) : gset ConfigKey :=
  foldl (fun merged conf => {[ conf ]} ∪ merged) merged (elements m).

Definition Merge (first other : option PushRequest) : option PushRequest :=
  match first, other with
  | None, _ => other
  | Some _, None => first
  | Some first, Some other =>
      Some {| Start := Start first;
              Full := Full first || Full other;
              Push := Push other;
              Reason := Reason first ++ Reason other;
              ConfigsUpdated :=
                if Nat.ltb 0 (size (ConfigsUpdated first)) && Nat.ltb 0 (size (ConfigsUpdated other))
                then insertAll (ConfigsUpdated other) (insertAll (ConfigsUpdated first) ∅)
                else ∅ |}
  end.

(** *** Lookups *)

(** [model.NodeType]. *)
Inductive NodeType := SidecarProxy | Router.

#[global] Instance NodeType_eq_dec : EqDecision NodeType.
Proof. solve_decision. Defined.

Record Proxy := mkProxy {
  ConfigNamespace : string;
  ProxySidecarScope : option SidecarScope;
  Type_ : NodeType
}.

(** Reading a Go [map[string][]T]: a missing key reads as the nil slice. *)
Definition bucket {A} (m : gmap string (list A)) (k : string) : list A :=
  default [] (m !! k).

(** [for _, privateServices := range ps.privateServicesByNamespace]. *)
Definition allPrivateServices (ps : PushContext) : list Service :=
  concat ((map_to_list (privateServicesByNamespace ps)).*2).

(** The condition [proxy.SidecarScope != nil && proxy.Type == SidecarProxy],
    with the scope when it holds. *)
Definition userSidecarScope (proxy : Proxy) : option SidecarScope :=
  match ProxySidecarScope proxy with
  | Some sc => if bool_decide (Type_ proxy = SidecarProxy) then Some sc else None
  | None => None
  end.

Definition Services (ps : PushContext) (proxy : option Proxy) : list Service :=
  match proxy with
  | Some p =>
      match userSidecarScope p with
      | Some sc => SidecarScope_Services sc
      | None =>
          (bucket (privateServicesByNamespace ps) (ConfigNamespace p)
             ++ bucket (servicesExportedToNamespace ps) (ConfigNamespace p))
            ++ publicServices ps
      end
  | None => allPrivateServices ps ++ publicServices ps
  end.

Section Lookup.

(** [MostSpecificHostMatch needle stack] answers the most specific host of
    [stack] matching [needle], if any; it is declared in another file of the
    package and taken as given. *)
Variable MostSpecificHostMatch : string -> list string -> option string.

Definition getExportedDestinationRuleFromNamespace (ps : PushContext)
    (owningNamespace hostname clientNamespace : string) : option Config :=
  match exportedDestRulesByNamespace ps !! owningNamespace with
  | Some rules =>
      match MostSpecificHostMatch hostname (hosts rules) with
      | Some specificHostname =>
          let exportToMap := default ∅ (exportTo rules !! specificHostname) in
          if Nat.eqb (size exportToMap) 0
             || exported exportToMap Public
             || exported exportToMap clientNamespace
          then destRule rules !! specificHostname
          else None
      | None => None
      end
  | None => None
  end.

(** Step 1 of [DestinationRule]: [Some r] when the function returns [r] from
    the proxy's namespace (or the root-namespace-local bucket), [None] when
    it goes on. *)
Definition destinationRuleFromProxyNamespace (ps : PushContext) (proxy : Proxy)
    (service : Service) : option (option Config) :=
  if negb (String.eqb (ConfigNamespace proxy) (RootNamespace (Mesh ps))) then
    match namespaceLocalDestRules ps !! ConfigNamespace proxy with
    | Some rules =>
        match MostSpecificHostMatch (Hostname service) (hosts rules) with
        | Some hostname => Some (destRule rules !! hostname)
        | None => None
        end
    | None => None
    end
  else
    match MostSpecificHostMatch (Hostname service)
            (hosts (rootNamespaceLocalDestRules ps)) with
    | Some hostname => Some (destRule (rootNamespaceLocalDestRules ps) !! hostname)
    | None => None
    end.

(** Step 2: the namespace of the service, looked up among the services
    visible to the proxy when the service carries none. *)
Definition serviceNamespace (ps : PushContext) (proxy : Proxy) (service : Service) : string :=
  if String.eqb (Namespace (Attributes service)) "" then
    match find (fun svc => String.eqb (Hostname service) (Hostname svc)
                           && negb (String.eqb (Namespace (Attributes svc)) ""))
               (Services ps (Some proxy)) with
    | Some svc => Namespace (Attributes svc)
    | None => ""
    end
  else Namespace (Attributes service).

Definition DestinationRule (ps : PushContext) (proxy : Proxy)
    (service : option Service) : option Config :=
  match service with
  | None => None
  | Some service =>
      match userSidecarScope proxy with
      | Some sc => SidecarScope_DestinationRule sc (Hostname service)
      | None =>
          match destinationRuleFromProxyNamespace ps proxy service with
          | Some r => r
          | None =>
              let svcNs := serviceNamespace ps proxy service in
              match (if negb (String.eqb svcNs "")
                     then getExportedDestinationRuleFromNamespace ps svcNs
                            (Hostname service) (ConfigNamespace proxy)
                     else None) with
              | Some out => Some out
              | None =>
                  getExportedDestinationRuleFromNamespace ps (RootNamespace (Mesh ps))
                    (Hostname service) (ConfigNamespace proxy)
              end
          end
      end
  end.

End Lookup.

(** *** Building a snapshot *)

(** The init passes write the snapshot in place and may return an error, so
    a pass is a function from the snapshot to the snapshot after the pass
    and the error, [None] for Go's nil. *)
Definition Pass := PushContext -> PushContext * option Error.

(** The functions of the engine, in the order [InitContext] can call them;
    the log of calls is kept next to the snapshot. *)
Inductive Call :=
| CallInitDefaultExportMaps
| CallCreateNewContext
| CallUpdateContext
| CallInitServiceRegistry
| CallInitVirtualServices
| CallInitDestinationRules
| CallInitAuthnPolicies
| CallInitAuthorizationPolicies
| CallInitEnvoyFilters
| CallInitGateways
| CallInitSidecarScopes
| CallInitMeshNetworks
| CallInitClusterLocalHosts.

#[global] Instance Call_eq_dec : EqDecision Call.
Proof. solve_decision. Defined.

Record State := mkState {
  ctx : PushContext;
  calls : list Call
}.

Definition Step := State -> State * option Error.

(** [if err := p(); err != nil { return err }; q()]. *)
Definition andThen (p q : Step) : Step :=
  fun st =>
    match p st with
    | (st', Some err) => (st', Some err)
    | (st', None) => q st'
    end.

#[local] Infix ">>" := andThen (at level 62, right associativity).

(** Entering a function of the engine. *)
Definition enter (c : Call) : Step :=
  fun st => ({| ctx := ctx st; calls := calls st ++ [c] |}, None).

(** Calling a pass: the call is logged, then the pass runs. *)
Definition call (c : Call) (f : Pass) : Step :=
  fun st =>
    let '(ps, err) := f (ctx st) in
    ({| ctx := ps; calls := calls st ++ [c] |}, err).

(** Plain assignments to fields of the snapshot. *)
Definition assign (f : PushContext -> PushContext) : Step :=
  fun st => ({| ctx := f (ctx st); calls := calls st |}, None).

(** [m[e] = true] for every [e] of the slice. *)
Definition exportMapOf (l : list string) : gmap string bool :=
  foldl (fun m e => <[e := true]> m) ∅ l.

Definition defaultExportMap (mesh : option (list string)) : gmap string bool :=
  match mesh with
  | Some l => exportMapOf l
  | None => {[ Public := true ]}
  end.

Definition initDefaultExportMaps (ps : PushContext) : PushContext :=
  setDefaultExportMaps
    (defaultExportMap (DefaultServiceExportTo (Mesh ps)))
    (defaultExportMap (DefaultVirtualServiceExportTo (Mesh ps)))
    (defaultExportMap (DefaultDestinationRuleExportTo (Mesh ps)))
    ps.

(** [sort.SliceStable] by creation time: a stable insertion sort. *)
Fixpoint insertByCreationTime (s : Service) (l : list Service) : list Service :=
  match l with
  | [] => [s]
  | x :: l' =>
      if Z.ltb (CreationTime x) (CreationTime s) then x :: insertByCreationTime s l'
      else s :: l
  end.

Definition sortServicesByCreationTime (services : list Service) : list Service :=
  foldr insertByCreationTime [] services.

(** [m[k] = append(m[k], s)]. *)
Definition appendTo {A} (k : string) (x : A) (m : gmap string (list A)) : gmap string (list A) :=
  <[k := bucket m k ++ [x]]> m.

Definition addPrivateService (ns : string) (s : Service) (ps : PushContext) : PushContext :=
  set_privateServicesByNamespace (appendTo ns s (privateServicesByNamespace ps)) ps.

Definition addPublicService (s : Service) (ps : PushContext) : PushContext :=
  set_publicServices (publicServices ps ++ [s]) ps.

Definition addExportedService (target : string) (s : Service) (ps : PushContext) : PushContext :=
  set_servicesExportedToNamespace (appendTo target s (servicesExportedToNamespace ps)) ps.

(** The two hostname indices, written at the end of the loop body. *)
Definition indexByHostname (s : Service) (ps : PushContext) : PushContext :=
  let byNs := default ∅ (ServiceByHostnameAndNamespace ps !! Hostname s) in
  set_ServiceByHostname (<[Hostname s := s]> (ServiceByHostname ps))
    (set_ServiceByHostnameAndNamespace
       (<[Hostname s := <[Namespace (Attributes s) := s]> byNs]>
          (ServiceByHostnameAndNamespace ps))
       ps).

(** [for exportTo := range s.Attributes.ExportTo]: the keys of the map. *)
Definition exportTargets (s : Service) : list string :=
  (map_to_list (ExportTo (Attributes s))).*1.

(** The body of the loop of [initServiceRegistry] for one service; the two
    [continue] statements skip the hostname indices. *)
Definition registerService (ps : PushContext) (s : Service) : PushContext :=
  let ns := Namespace (Attributes s) in
  if Nat.eqb (size (ExportTo (Attributes s))) 0 then
    indexByHostname s
      (if exported (defaultServiceExportTo ps) Private then addPrivateService ns s ps
       else if exported (defaultServiceExportTo ps) Public then addPublicService s ps
       else ps)
  else if exported (ExportTo (Attributes s)) Public then addPublicService s ps
  else if exported (ExportTo (Attributes s)) None_ then ps
  else
    indexByHostname s
      (foldl (fun ps exportTo =>
                if String.eqb exportTo Private || String.eqb exportTo ns
                then addPrivateService ns s ps
                else addExportedService exportTo s ps)
             ps (exportTargets s)).

Definition initServiceAccounts (env : Environment) (services : list Service)
    (ps : PushContext) : PushContext :=
  foldl (fun ps svc =>
           let accounts := default ∅ (ServiceAccounts ps !! Hostname svc) in
           set_ServiceAccounts
             (<[Hostname svc :=
                  foldl (fun byPort port =>
                           if String.eqb (Protocol port) UDP then byPort
                           else <[PortNumber port :=
                                    GetIstioServiceAccounts env svc [PortNumber port]]> byPort)
                        accounts (Ports svc)]>
                (ServiceAccounts ps))
             ps)
        ps services.

Definition initServiceRegistry (env : Environment) : Pass :=
  fun ps =>
    match envServices env with
    | inl err => (ps, Some err)
    | inr services =>
        let allServices := sortServicesByCreationTime services in
        (initServiceAccounts env allServices (foldl registerService ps allServices), None)
    end.

(** What the remaining passes compute from the listed configs is the work of
    helpers declared in other files of the package (sorting, merging,
    short-name resolution, conversion); they are taken as given, under the
    name of the source where they have one. *)
Record Helpers := mkHelpers {
  indexVirtualServices :
    gmap string bool -> list Config ->
    gmap string (gmap string (list Config)) * gmap string (gmap string (list Config))
    * gmap string (list Config);
  processDestinationRules :
    PushContext -> list Config ->
    gmap string processedDestRules * gmap string processedDestRules * processedDestRules;
  initAuthenticationPolicies : Environment -> option AuthenticationPolicies * option Error;
  GetAuthorizationPolicies : Environment -> option AuthorizationPolicies * option Error;
  sortConfigByCreationTime : list Config -> list Config;
  indexSidecarScopes : PushContext -> list Config -> gmap string (list SidecarScope);
  meshNetworkGateways : MeshNetworks -> PushContext -> gmap string (list Gateway);
  clusterLocalHostsOf : Environment -> PushContext -> list string
}.

Section Engine.

Variable helpers : Helpers.

Definition initAuthnPolicies (env : Environment) : Pass :=
  fun ps =>
    let '(policies, err) := initAuthenticationPolicies helpers env in
    (set_AuthnBetaPolicies policies ps, err).

(** The three maps are reset before the store is asked. *)
Definition initVirtualServices (env : Environment) : Pass :=
  fun ps =>
    let ps := setVirtualServices ∅ ∅ ∅ ps in
    match envList env VirtualService with
    | inl err => (ps, Some err)
    | inr virtualServices =>
        let '(exportedVS, privateVS, publicVS) :=
          indexVirtualServices helpers (defaultVirtualServiceExportTo ps) virtualServices in
        (setVirtualServices exportedVS privateVS publicVS ps, None)
    end.

Definition SetDestinationRules (configs : list Config) (ps : PushContext) : PushContext :=
  let '(namespaceLocal, exportedByNamespace, rootNamespaceLocal) :=
    processDestinationRules helpers ps configs in
  setDestRules namespaceLocal exportedByNamespace rootNamespaceLocal ps.

Definition initDestinationRules (env : Environment) : Pass :=
  fun ps =>
    match envList env DestinationRuleKind with
    | inl err => (ps, Some err)
    | inr configs => (SetDestinationRules configs ps, None)
    end.

Definition initAuthorizationPolicies (env : Environment) : Pass :=
  fun ps =>
    let '(policies, err) := GetAuthorizationPolicies helpers env in
    (set_AuthzPolicies policies ps, err).

Definition initEnvoyFilters (env : Environment) : Pass :=
  fun ps =>
    match envList env EnvoyFilter with
    | inl err => (ps, Some err)
    | inr envoyFilterConfigs =>
        (set_envoyFiltersByNamespace
           (foldl (fun m c => appendTo (cfgNamespace c) (mkEnvoyFilterWrapper c) m) ∅
                  (sortConfigByCreationTime helpers envoyFilterConfigs))
           ps, None)
    end.

Definition initGateways (env : Environment) : Pass :=
  fun ps =>
    match envList env GatewayKind with
    | inl err => (ps, Some err)
    | inr gatewayConfigs =>
        let gatewayConfigs := sortConfigByCreationTime helpers gatewayConfigs in
        (setGateways
           (foldl (fun m c => appendTo (cfgNamespace c) c m) ∅ gatewayConfigs)
           gatewayConfigs ps, None)
    end.

Definition initSidecarScopes (env : Environment) : Pass :=
  fun ps =>
    match envList env Sidecar with
    | inl err => (ps, Some err)
    | inr sidecarConfigs =>
        (set_sidecarsByNamespace
           (indexSidecarScopes helpers ps (sortConfigByCreationTime helpers sidecarConfigs))
           ps, None)
    end.

Definition initMeshNetworks (ps : PushContext) : PushContext :=
  match Networks ps with
  | Some networks =>
      if Nat.eqb (length (networkNames networks)) 0 then ps
      else set_networkGateways (meshNetworkGateways helpers networks ps) ps
  | None => ps
  end.

Definition initClusterLocalHosts (env : Environment) (ps : PushContext) : PushContext :=
  set_clusterLocalHosts (clusterLocalHostsOf helpers env ps) ps.

Definition createNewContext (env : Environment) : Step :=
  enter CallCreateNewContext >>
  call CallInitServiceRegistry (initServiceRegistry env) >>
  call CallInitVirtualServices (initVirtualServices env) >>
  call CallInitDestinationRules (initDestinationRules env) >>
  call CallInitAuthnPolicies (initAuthnPolicies env) >>
  call CallInitAuthorizationPolicies (initAuthorizationPolicies env) >>
  call CallInitEnvoyFilters (initEnvoyFilters env) >>
  call CallInitGateways (initGateways env) >>
  call CallInitSidecarScopes (initSidecarScopes env).

(** The eight flags of [updateContext]. *)
Record Changed := mkChanged {
  servicesChanged : bool;
  virtualServicesChanged : bool;
  destinationRulesChanged : bool;
  gatewayChanged : bool;
  authnChanged : bool;
  authzChanged : bool;
  envoyFiltersChanged : bool;
  sidecarsChanged : bool
}.

Definition noneChanged : Changed :=
  mkChanged false false false false false false false false.

(** The [switch conf.Kind] of the loop over [pushReq.ConfigsUpdated]. *)
Definition markChanged (c : Changed) (conf : ConfigKey) : Changed :=
  match Kind conf with
  | ServiceEntry =>
      mkChanged true (virtualServicesChanged c) (destinationRulesChanged c) (gatewayChanged c)
        (authnChanged c) (authzChanged c) (envoyFiltersChanged c) (sidecarsChanged c)
  | DestinationRuleKind =>
      mkChanged (servicesChanged c) (virtualServicesChanged c) true (gatewayChanged c)
        (authnChanged c) (authzChanged c) (envoyFiltersChanged c) (sidecarsChanged c)
  | VirtualService =>
      mkChanged (servicesChanged c) true (destinationRulesChanged c) (gatewayChanged c)
        (authnChanged c) (authzChanged c) (envoyFiltersChanged c) (sidecarsChanged c)
  | GatewayKind =>
      mkChanged (servicesChanged c) (virtualServicesChanged c) (destinationRulesChanged c) true
        (authnChanged c) (authzChanged c) (envoyFiltersChanged c) (sidecarsChanged c)
  | Sidecar =>
      mkChanged (servicesChanged c) (virtualServicesChanged c) (destinationRulesChanged c)
        (gatewayChanged c) (authnChanged c) (authzChanged c) (envoyFiltersChanged c) true
  | EnvoyFilter =>
      mkChanged (servicesChanged c) (virtualServicesChanged c) (destinationRulesChanged c)
        (gatewayChanged c) (authnChanged c) (authzChanged c) true (sidecarsChanged c)
  | AuthorizationPolicy =>
      mkChanged (servicesChanged c) (virtualServicesChanged c) (destinationRulesChanged c)
        (gatewayChanged c) (authnChanged c) true (envoyFiltersChanged c) (sidecarsChanged c)
  | RequestAuthentication | PeerAuthentication =>
      mkChanged (servicesChanged c) (virtualServicesChanged c) (destinationRulesChanged c)
        (gatewayChanged c) true (authzChanged c) (envoyFiltersChanged c) (sidecarsChanged c)
  | K8SServiceApisV1Alpha1Httproutes | K8SServiceApisV1Alpha1Tcproutes
  | K8SServiceApisV1Alpha1Gateways | K8SServiceApisV1Alpha1Gatewayclasses =>
      mkChanged (servicesChanged c) true (destinationRulesChanged c) true
        (authnChanged c) (authzChanged c) (envoyFiltersChanged c) (sidecarsChanged c)
  | OtherKind _ => c
  end.

Definition changedBy (pushReq : PushRequest) : Changed :=
  foldl markChanged noneChanged (elements (ConfigsUpdated pushReq)).

(** The pointer copies from the old snapshot, one function for each [else]
    branch of [updateContext]. *)
Definition copyServices (old : PushContext) (ps : PushContext) : PushContext :=
  set_ServiceAccounts (ServiceAccounts old)
    (set_ServiceByHostname (ServiceByHostname old)
       (set_ServiceByHostnameAndNamespace (ServiceByHostnameAndNamespace old)
          (set_publicServices (publicServices old)
             (set_servicesExportedToNamespace (servicesExportedToNamespace old)
                (set_privateServicesByNamespace (privateServicesByNamespace old) ps))))).

Definition copyVirtualServices (old : PushContext) (ps : PushContext) : PushContext :=
  setVirtualServices (virtualServicesExportedToNamespaceByGateway old)
    (privateVirtualServicesByNamespaceAndGateway old) (publicVirtualServicesByGateway old) ps.

Definition copyDestinationRules (old : PushContext) (ps : PushContext) : PushContext :=
  setDestRules (namespaceLocalDestRules old) (exportedDestRulesByNamespace old)
    (rootNamespaceLocalDestRules old) ps.

Definition copyGateways (old : PushContext) (ps : PushContext) : PushContext :=
  setGateways (gatewaysByNamespace old) (allGateways old) ps.

Definition updateContext (env : Environment) (oldPushContext : PushContext)
    (pushReq : PushRequest) : Step :=
  let c := changedBy pushReq in
  enter CallUpdateContext >>
  (if servicesChanged c then call CallInitServiceRegistry (initServiceRegistry env)
   else assign (copyServices oldPushContext)) >>
  (if virtualServicesChanged c then call CallInitVirtualServices (initVirtualServices env)
   else assign (copyVirtualServices oldPushContext)) >>
  (if destinationRulesChanged c then call CallInitDestinationRules (initDestinationRules env)
   else assign (copyDestinationRules oldPushContext)) >>
  (if authnChanged c then call CallInitAuthnPolicies (initAuthnPolicies env)
   else assign (set_AuthnBetaPolicies (AuthnBetaPolicies oldPushContext))) >>
  (if authzChanged c then call CallInitAuthorizationPolicies (initAuthorizationPolicies env)
   else assign (set_AuthzPolicies (AuthzPolicies oldPushContext))) >>
  (if envoyFiltersChanged c then call CallInitEnvoyFilters (initEnvoyFilters env)
   else assign (set_envoyFiltersByNamespace (envoyFiltersByNamespace oldPushContext))) >>
  (if gatewayChanged c then call CallInitGateways (initGateways env)
   else assign (copyGateways oldPushContext)) >>
  (if servicesChanged c || virtualServicesChanged c || destinationRulesChanged c
      || sidecarsChanged c
   then call CallInitSidecarScopes (initSidecarScopes env)
   else assign (set_sidecarsByNamespace (sidecarsByNamespace oldPushContext))).

(** The choice of [InitContext] between a new context and an incremental
    update. *)
Definition createOrUpdate (env : Environment) (oldPushContext : option PushContext)
    (pushReq : option PushRequest) : Step :=
  match pushReq, oldPushContext with
  | Some req, Some old =>
      if negb (initDone old) || Nat.eqb (size (ConfigsUpdated req)) 0
      then createNewContext env
      else updateContext env old req
  | _, _ => createNewContext env
  end.

Definition InitContext (env : Environment) (oldPushContext : option PushContext)
    (pushReq : option PushRequest) : Step :=
  fun st =>
    if initDone (ctx st) then (st, None)
    else
      (assign (setEnvironment (envMesh env) (envNetworks env) (Some env) (Some env)
                 (envVersion env)) >>
       call CallInitDefaultExportMaps (fun ps => (initDefaultExportMaps ps, None)) >>
       createOrUpdate env oldPushContext pushReq >>
       call CallInitMeshNetworks (fun ps => (initMeshNetworks ps, None)) >>
       call CallInitClusterLocalHosts (fun ps => (initClusterLocalHosts env ps, None)) >>
       assign (set_initDone true)) st.

End Engine.

End Model.

(** ** Distribution status reconciliation (package status) *)

Module Status.

Record Progress := mkProgress {
  AckedInstances : Z;
  TotalInstances : Z
}.

(** Modelled from the spec: [v1alpha1.IstioCondition] and
    [v1alpha1.IstioStatus] are declared in the API module; the
    condition has the fields [ReconcileStatuses] writes and compares, the
    status is its list of conditions. *)
Record IstioCondition := mkCondition {
  Type_ : string;
  Status : string;
  LastProbeTime : Z;
  LastTransitionTime : Z;
  Message : string
}.

Record IstioStatus := mkStatus {
  Conditions : list IstioCondition
}.

Definition Error := string.

Definition boolToConditionStatus (b : bool) : string :=
  if b then "True" else "False".

(** The verb [%d] of [fmt.Sprintf] on an int. *)
Definition formatInt (n : Z) : string :=
  NilZero.string_of_int (Z.to_int n).

(** [fmt.Sprintf("%d/%d proxies up to date.", acked, total)]. *)
Definition progressMessage (desired : Progress) : string :=
  (formatInt (AckedInstances desired) ++ "/" ++ formatInt (TotalInstances desired)
     ++ " proxies up to date.")%string.

(** The loop over the current conditions: the index and the condition of the
    last one of type "Reconciled", if any. *)
Definition findReconciled (conditions : list IstioCondition) : option (nat * IstioCondition) :=
  foldl (fun found ic => if String.eqb (Type_ ic.2) "Reconciled" then Some ic else found)
        None (imap (fun i c => (i, c)) conditions).

Section Reconcile.

(** The status subresource is an untyped JSON value; [GetTypedStatus]
    round-trips it through the JSON encoder into an [IstioStatus] or fails.
    The encoder is taken as given. *)
Variable Json : Type.
Variable GetTypedStatus : option Json -> Error + IstioStatus.

(** [ReconcileStatuses current desired clock]; the two readings of
    [types.TimestampNow()] are the last two arguments. *)
Definition ReconcileStatuses (current : gmap string Json) (desired : Progress)
    (probeTime transitionTime : Z) : bool * IstioStatus :=
  let desiredCondition :=
    {| Type_ := "Reconciled";
       Status := boolToConditionStatus
                   (Z.eqb (AckedInstances desired) (TotalInstances desired));
       LastProbeTime := probeTime;
       LastTransitionTime := transitionTime;
       Message := progressMessage desired |} in
  match GetTypedStatus (current !! "status") with
  | inl _ => (true, {| Conditions := [desiredCondition] |})
  | inr currentStatus =>
      match findReconciled (Conditions currentStatus) with
      | Some (conditionIndex, currentCondition) =>
          (negb (String.eqb (Message currentCondition) (Message desiredCondition))
           || negb (String.eqb (Status currentCondition) (Status desiredCondition)),
           {| Conditions := <[conditionIndex := desiredCondition]> (Conditions currentStatus) |})
      | None =>
          (true, {| Conditions := Conditions currentStatus ++ [desiredCondition] |})
      end
  end.

End Reconcile.

End Status.


(** * The contracts

    What the specification says of the operations above, in its own words;
    the properties below compare these with the code. *)

(** ** The merge law *)

Module MergeLaw.
Import Model.

(** Configs of a merged request: the union when both sets are non-empty,
    the empty set, which stands for everything, when either is empty. *)
Definition mergedConfigs (x y : gset ConfigKey) : gset ConfigKey :=
  if Nat.ltb 0 (size x) && Nat.ltb 0 (size y) then x ∪ y else ∅.

(** Equality of push requests as the merge law reads it: the same full
    flag, the same reasons as a multiset, the same set of configs (so an
    empty set, which means all configs, only equals an empty set). *)
Definition sameRequest (x y : option PushRequest) : Prop :=
  match x, y with
  | None, None => True
  | Some x, Some y =>
      Full x = Full y
      /\ Permutation (Reason x) (Reason y)
      /\ ConfigsUpdated x = ConfigsUpdated y
  | _, _ => False
  end.

End MergeLaw.

(** ** The lookup contract of destination rules *)

Module LookupContract.
Import Model.

Section Contract.

Variable MostSpecificHostMatch : string -> list string -> option string.

(** The outcome of one search step: [Some r] is a hit with the rule stored
    for the matched host, [None] a miss. *)
Definition Search := option (option Config).

(** The most-specific host match in a namespace-local bucket. *)
Definition searchLocal (rules : option processedDestRules) (hostname : string) : Search :=
  rules ≫= fun r => (fun h => destRule r !! h) <$> MostSpecificHostMatch hostname (hosts r).

(** An exportTo set exportAllows a namespace when it is empty, contains public or
    contains the namespace. *)
Definition exportAllows (exportToMap : gmap string bool) (clientNamespace : string) : bool :=
  bool_decide (exportToMap = ∅)
  || bool_decide (exportToMap !! Public = Some true)
  || bool_decide (exportToMap !! clientNamespace = Some true).

(** The most-specific host match in the exported bucket of a namespace,
    a hit only when the rule is exported to the client namespace. *)
Definition searchExported (ps : PushContext) (owningNamespace : option string)
    (hostname clientNamespace : string) : Search :=
  ns ← owningNamespace;
  r ← exportedDestRulesByNamespace ps !! ns;
  h ← MostSpecificHostMatch hostname (hosts r);
  rule ← destRule r !! h;
  if exportAllows (default ∅ (exportTo r !! h)) clientNamespace then Some (Some rule) else None.

(** The namespace that owns the service: its own, or, when it carries none,
    that of the first service visible to the proxy with the same hostname
    and a namespace. *)
Definition owningNamespace (ps : PushContext) (proxy : Proxy) (service : Service) : option string :=
  if decide (Namespace (Attributes service) = "") then
    (fun svc => Namespace (Attributes svc)) <$>
      head (filter (fun svc => Hostname svc = Hostname service
                               /\ Namespace (Attributes svc) <> "")
                   (Services ps (Some proxy)))
  else Some (Namespace (Attributes service)).

Fixpoint firstHit (steps : list Search) : option Config :=
  match steps with
  | [] => None
  | Some r :: _ => r
  | None :: steps => firstHit steps
  end.

(** The four searches, in order: (a) the proxy's own namespace when it is
    not the root namespace, (b) the root-namespace-local rules when it is,
    (c) the exported rules of the owning namespace, (d) the exported rules
    of the root namespace. *)
Definition DestinationRule_spec (ps : PushContext) (proxy : Proxy) (service : Service)
    : option Config :=
  let root := RootNamespace (Mesh ps) in
  let inRoot := bool_decide (ConfigNamespace proxy = root) in
  firstHit
    [ if inRoot then None
      else searchLocal (namespaceLocalDestRules ps !! ConfigNamespace proxy) (Hostname service);
      if inRoot then searchLocal (Some (rootNamespaceLocalDestRules ps)) (Hostname service)
      else None;
      searchExported ps (owningNamespace ps proxy service) (Hostname service)
        (ConfigNamespace proxy);
      searchExported ps (Some root) (Hostname service) (ConfigNamespace proxy) ].

End Contract.

End LookupContract.

(** ** The build contract of snapshots *)

Module BuildContract.
Import Model.

(** Running a step from a snapshot, with a fresh log. *)
Definition run (step : Step) (ps : PushContext) : State * option Error :=
  step {| ctx := ps; calls := [] |}.

(** The init passes of a full build, in their fixed order. *)
Definition fullBuildOrder : list Call :=
  [ CallInitServiceRegistry; CallInitVirtualServices; CallInitDestinationRules;
    CallInitAuthnPolicies; CallInitAuthorizationPolicies; CallInitEnvoyFilters;
    CallInitGateways; CallInitSidecarScopes ].

(** A full build is required when the request is nil, the old snapshot is
    nil or not initialized, or the request names no config. *)
Definition fullBuildRequired (old : option PushContext) (req : option PushRequest) : Prop :=
  req = None
  \/ old = None
  \/ (exists o, old = Some o /\ initDone o = false)
  \/ (exists r, req = Some r /\ ConfigsUpdated r = ∅).

(** The index classes of a snapshot. *)
Inductive IndexClass :=
| ServiceIndex
| VirtualServiceIndex
| DestinationRuleIndex
| AuthnIndex
| AuthzIndex
| EnvoyFilterIndex
| GatewayIndex
| SidecarIndex.

(** The pass that builds a class. *)
Definition passOf (c : IndexClass) : Call :=
  match c with
  | ServiceIndex => CallInitServiceRegistry
  | VirtualServiceIndex => CallInitVirtualServices
  | DestinationRuleIndex => CallInitDestinationRules
  | AuthnIndex => CallInitAuthnPolicies
  | AuthzIndex => CallInitAuthorizationPolicies
  | EnvoyFilterIndex => CallInitEnvoyFilters
  | GatewayIndex => CallInitGateways
  | SidecarIndex => CallInitSidecarScopes
  end.

(** The fields of a class are the ones of the old snapshot. *)
Definition sameIndex (c : IndexClass) (ps old : PushContext) : Prop :=
  match c with
  | ServiceIndex =>
      privateServicesByNamespace ps = privateServicesByNamespace old
      /\ servicesExportedToNamespace ps = servicesExportedToNamespace old
      /\ publicServices ps = publicServices old
      /\ ServiceByHostnameAndNamespace ps = ServiceByHostnameAndNamespace old
      /\ ServiceByHostname ps = ServiceByHostname old
      /\ ServiceAccounts ps = ServiceAccounts old
  | VirtualServiceIndex =>
      virtualServicesExportedToNamespaceByGateway ps
      = virtualServicesExportedToNamespaceByGateway old
      /\ privateVirtualServicesByNamespaceAndGateway ps
         = privateVirtualServicesByNamespaceAndGateway old
      /\ publicVirtualServicesByGateway ps = publicVirtualServicesByGateway old
  | DestinationRuleIndex =>
      namespaceLocalDestRules ps = namespaceLocalDestRules old
      /\ exportedDestRulesByNamespace ps = exportedDestRulesByNamespace old
      /\ rootNamespaceLocalDestRules ps = rootNamespaceLocalDestRules old
  | AuthnIndex => AuthnBetaPolicies ps = AuthnBetaPolicies old
  | AuthzIndex => AuthzPolicies ps = AuthzPolicies old
  | EnvoyFilterIndex => envoyFiltersByNamespace ps = envoyFiltersByNamespace old
  | GatewayIndex =>
      gatewaysByNamespace ps = gatewaysByNamespace old /\ allGateways ps = allGateways old
  | SidecarIndex => sidecarsByNamespace ps = sidecarsByNamespace old
  end.

Definition gatewayApiKind (k : GroupVersionKind) : bool :=
  match k with
  | K8SServiceApisV1Alpha1Httproutes | K8SServiceApisV1Alpha1Tcproutes
  | K8SServiceApisV1Alpha1Gateways | K8SServiceApisV1Alpha1Gatewayclasses => true
  | _ => false
  end.

(** The kinds that mark a class as changed. *)
Definition marks (k : GroupVersionKind) (c : IndexClass) : bool :=
  match c with
  | ServiceIndex => bool_decide (k = ServiceEntry)
  | VirtualServiceIndex => bool_decide (k = VirtualService) || gatewayApiKind k
  | DestinationRuleIndex => bool_decide (k = DestinationRuleKind)
  | AuthnIndex => bool_decide (k = RequestAuthentication) || bool_decide (k = PeerAuthentication)
  | AuthzIndex => bool_decide (k = AuthorizationPolicy)
  | EnvoyFilterIndex => bool_decide (k = EnvoyFilter)
  | GatewayIndex => bool_decide (k = GatewayKind) || gatewayApiKind k
  | SidecarIndex => bool_decide (k = Sidecar)
  end.

(** The request contains a kind marking the class as changed. *)
Definition marked (req : PushRequest) (c : IndexClass) : Prop :=
  exists conf, conf ∈ ConfigsUpdated req /\ marks (Kind conf) c = true.

(** A class must be rebuilt when it is marked; sidecar scopes also when
    services, virtual services or destination rules are. *)
Definition mustRebuild (req : PushRequest) (c : IndexClass) : Prop :=
  match c with
  | SidecarIndex =>
      marked req ServiceIndex \/ marked req VirtualServiceIndex
      \/ marked req DestinationRuleIndex \/ marked req SidecarIndex
  | _ => marked req c
  end.

(** Membership in the values of a bucket map, and in the three service
    buckets of a snapshot. *)
Definition inMap (m : gmap string (list Service)) (s : Service) : Prop :=
  exists ns l, m !! ns = Some l /\ s ∈ l.

Definition inBuckets (ps : PushContext) (s : Service) : Prop :=
  s ∈ publicServices ps
  \/ inMap (privateServicesByNamespace ps) s
  \/ inMap (servicesExportedToNamespace ps) s.

(** The three buckets hold nothing yet, as in a snapshot just made by
    [NewPushContext]. *)
Definition emptyBuckets (ps : PushContext) : Prop :=
  publicServices ps = []
  /\ privateServicesByNamespace ps = ∅
  /\ servicesExportedToNamespace ps = ∅.

(** The invariant as the specification words it: the union of the buckets
    is the service list of the store, and the services whose exportTo
    contains none are in no bucket. *)
Definition bucketsPartitionStore (ps : PushContext) (store : list Service) : Prop :=
  (forall s, inBuckets ps s <-> s ∈ store)
  /\ (forall s, s ∈ store -> exported (ExportTo (Attributes s)) None_ = true ->
                ~ inBuckets ps s).

(** A service is exported somewhere: with no exportTo of its own when the
    mesh default is private or public, otherwise when its exportTo contains
    public or does not contain none. *)
Definition exportedSomewhere (defaults : gmap string bool) (s : Service) : bool :=
  if Nat.eqb (size (ExportTo (Attributes s))) 0
  then exported defaults Private || exported defaults Public
  else exported (ExportTo (Attributes s)) Public
       || negb (exported (ExportTo (Attributes s)) None_).

(** *** The engine read as a list of stages

    A stage is a pass with the call it logs, if any; [updateContext] is its
    eight stages in order, each a pass or a copy from the old snapshot. *)

Definition Stage : Type := option Call * Pass.

Definition stage (s : Stage) : Step :=
  fun st =>
    let '(ps, err) := s.2 (ctx st) in
    ({| ctx := ps;
        calls := match s.1 with Some c => calls st ++ [c] | None => calls st end |}, err).

Fixpoint stages (l : list Stage) : Step :=
  match l with
  | [] => fun st => (st, None)
  | s :: l => andThen (stage s) (stages l)
  end.

Definition copyStage (f : PushContext -> PushContext) : Stage :=
  (None, fun ps => (f ps, None)).

(** The flag of [updateContext] that a kind of the class sets. *)
Definition changedFlag (ch : Changed) (c : IndexClass) : bool :=
  match c with
  | ServiceIndex => servicesChanged ch
  | VirtualServiceIndex => virtualServicesChanged ch
  | DestinationRuleIndex => destinationRulesChanged ch
  | AuthnIndex => authnChanged ch
  | AuthzIndex => authzChanged ch
  | EnvoyFilterIndex => envoyFiltersChanged ch
  | GatewayIndex => gatewayChanged ch
  | SidecarIndex => sidecarsChanged ch
  end.

(** The fields of a snapshot outside the service index. *)
Definition otherIndices (ps : PushContext) :=
  (virtualServicesExportedToNamespaceByGateway ps,
   privateVirtualServicesByNamespaceAndGateway ps,
   publicVirtualServicesByGateway ps,
   namespaceLocalDestRules ps,
   exportedDestRulesByNamespace ps,
   rootNamespaceLocalDestRules ps,
   AuthnBetaPolicies ps,
   AuthzPolicies ps,
   envoyFiltersByNamespace ps,
   gatewaysByNamespace ps,
   allGateways ps,
   sidecarsByNamespace ps).

(** The test of [updateContext] that decides the stage of a class. *)
Definition rebuildFlag (ch : Changed) (c : IndexClass) : bool :=
  match c with
  | ServiceIndex => servicesChanged ch
  | VirtualServiceIndex => virtualServicesChanged ch
  | DestinationRuleIndex => destinationRulesChanged ch
  | AuthnIndex => authnChanged ch
  | AuthzIndex => authzChanged ch
  | EnvoyFilterIndex => envoyFiltersChanged ch
  | GatewayIndex => gatewayChanged ch
  | SidecarIndex =>
      servicesChanged ch || virtualServicesChanged ch || destinationRulesChanged ch
      || sidecarsChanged ch
  end.

Definition initPass (helpers : Helpers) (env : Environment) (c : IndexClass) : Pass :=
  match c with
  | ServiceIndex => initServiceRegistry env
  | VirtualServiceIndex => initVirtualServices helpers env
  | DestinationRuleIndex => initDestinationRules helpers env
  | AuthnIndex => initAuthnPolicies helpers env
  | AuthzIndex => initAuthorizationPolicies helpers env
  | EnvoyFilterIndex => initEnvoyFilters helpers env
  | GatewayIndex => initGateways helpers env
  | SidecarIndex => initSidecarScopes helpers env
  end.

Definition copyIndex (old : PushContext) (c : IndexClass) : PushContext -> PushContext :=
  match c with
  | ServiceIndex => copyServices old
  | VirtualServiceIndex => copyVirtualServices old
  | DestinationRuleIndex => copyDestinationRules old
  | AuthnIndex => set_AuthnBetaPolicies (AuthnBetaPolicies old)
  | AuthzIndex => set_AuthzPolicies (AuthzPolicies old)
  | EnvoyFilterIndex => set_envoyFiltersByNamespace (envoyFiltersByNamespace old)
  | GatewayIndex => copyGateways old
  | SidecarIndex => set_sidecarsByNamespace (sidecarsByNamespace old)
  end.

(** The classes in the order [updateContext] treats them. *)
Definition classOrder : list IndexClass :=
  [ ServiceIndex; VirtualServiceIndex; DestinationRuleIndex; AuthnIndex; AuthzIndex;
    EnvoyFilterIndex; GatewayIndex; SidecarIndex ].

Definition updateStage (helpers : Helpers) (env : Environment) (old : PushContext)
    (ch : Changed) (c : IndexClass) : Stage :=
  if rebuildFlag ch c then (Some (passOf c), initPass helpers env c)
  else copyStage (copyIndex old c).

End BuildContract.

(** ** The contract of status reconciliation *)

Module StatusContract.
Import Status.

(** The Reconciled condition of a status: the last one of that type. *)
Definition reconciledCondition (conditions : list IstioCondition) : option IstioCondition :=
  last (filter (fun c => Type_ c = "Reconciled") conditions).

End StatusContract.

(** * Concrete inputs *)

Module Examples.

(** A connection that watches the names a, b, c of one type URL, last sent
    with nonce n1. *)
Definition watchedABC : Ads.WatchedResource :=
  {| Ads.wTypeUrl := "cds"; Ads.wResourceNames := ["a"; "b"; "c"];
     Ads.VersionSent := "v1"; Ads.NonceSent := "n1";
     Ads.VersionAcked := ""; Ads.NonceAcked := "";
     Ads.LastSent := 0; Ads.LastSize := 0; Ads.LastRequest := None |}.

Definition conABC : Ads.Connection :=
  {| Ads.ConID := "sidecar~1-1";
     Ads.proxy := {| Ads.ID := "sidecar~1";
                     Ads.WatchedResources := {[ "cds" := watchedABC ]} |} |}.

(** An ACK of nonce n1 that asks for a, a, b. *)
Definition ackAAB : Ads.DiscoveryRequest :=
  {| Ads.TypeUrl := "cds"; Ads.VersionInfo := "v1"; Ads.ResponseNonce := "n1";
     Ads.ResourceNames := ["a"; "a"; "b"]; Ads.ErrorDetail := None |}.

(** A NACK of nonce n1. *)
Definition nackABC : Ads.DiscoveryRequest :=
  {| Ads.TypeUrl := "cds"; Ads.VersionInfo := "v0"; Ads.ResponseNonce := "n1";
     Ads.ResourceNames := ["a"; "b"; "c"];
     Ads.ErrorDetail := Some {| Ads.Code := 3; Ads.Message := "rejected" |} |}.

Definition watchedXXY : Ads.WatchedResource :=
  {| Ads.wTypeUrl := "cds"; Ads.wResourceNames := ["x"; "x"; "y"];
     Ads.VersionSent := "v1"; Ads.NonceSent := "n1";
     Ads.VersionAcked := ""; Ads.NonceAcked := "";
     Ads.LastSent := 0; Ads.LastSize := 0; Ads.LastRequest := None |}.

Definition conXXY : Ads.Connection :=
  {| Ads.ConID := "sidecar~1-1";
     Ads.proxy := {| Ads.ID := "sidecar~1";
                     Ads.WatchedResources := {[ "cds" := watchedXXY ]} |} |}.

Definition ackYYX : Ads.DiscoveryRequest :=
  {| Ads.TypeUrl := "cds"; Ads.VersionInfo := "v1"; Ads.ResponseNonce := "n1";
     Ads.ResourceNames := ["y"; "y"; "x"]; Ads.ErrorDetail := None |}.

Import Model.

Definition mesh0 : MeshConfig :=
  {| RootNamespace := "istio-system";
     DefaultServiceExportTo := None;
     DefaultVirtualServiceExportTo := None;
     DefaultDestinationRuleExportTo := None |}.

(** A snapshot as [NewPushContext] makes it, for the mesh [mesh0]. *)
Definition freshContext : PushContext :=
  {| defaultServiceExportTo := ∅;
     defaultVirtualServiceExportTo := ∅;
     defaultDestinationRuleExportTo := ∅;
     privateServicesByNamespace := ∅;
     publicServices := [];
     servicesExportedToNamespace := ∅;
     ServiceByHostnameAndNamespace := ∅;
     ServiceByHostname := ∅;
     ServiceAccounts := ∅;
     virtualServicesExportedToNamespaceByGateway := ∅;
     privateVirtualServicesByNamespaceAndGateway := ∅;
     publicVirtualServicesByGateway := ∅;
     namespaceLocalDestRules := ∅;
     exportedDestRulesByNamespace := ∅;
     rootNamespaceLocalDestRules := newProcessedDestRules;
     clusterLocalHosts := [];
     sidecarsByNamespace := ∅;
     envoyFiltersByNamespace := ∅;
     gatewaysByNamespace := ∅;
     allGateways := [];
     AuthzPolicies := None;
     Mesh := mesh0;
     Networks := None;
     ServiceDiscovery := None;
     IstioConfigStore := None;
     AuthnBetaPolicies := None;
     initDone := false;
     Version := "";
     networkGateways := ∅ |}.

Definition service (host ns : string) (exportTo : list string) (created : Z) : Service :=
  {| Hostname := host;
     Attributes := {| Namespace := ns; ExportTo := exportMapOf exportTo |};
     CreationTime := created;
     Ports := [ {| PortNumber := 80; Protocol := "HTTP" |} ] |}.

Definition svcDefault : Service := service "a.default.svc" "default" [] 1.
Definition svcPublic : Service := service "b.default.svc" "default" ["*"] 2.
Definition svcPrivate : Service := service "c.default.svc" "default" ["."] 3.
Definition svcToOther : Service := service "d.default.svc" "default" ["other"] 4.
Definition svcNone : Service := service "e.default.svc" "default" ["~"] 5.
Definition svcPublicAndNone : Service := service "f.default.svc" "default" ["*"; "~"] 6.

(** A store that answers every list with success. *)
Definition storeOf (services : list Service) : Environment :=
  {| envMesh := mesh0;
     envNetworks := None;
     envVersion := "v1";
     envServices := inr services;
     envList := fun _ => inr [];
     GetIstioServiceAccounts := fun _ _ => [] |}.

Definition store0 : Environment :=
  storeOf [svcDefault; svcPublic; svcPrivate; svcToOther; svcNone].

(** Helpers that index nothing. *)
Definition helpers0 : Helpers :=
  {| indexVirtualServices := fun _ _ => (∅, ∅, ∅);
     processDestinationRules := fun _ _ => (∅, ∅, newProcessedDestRules);
     initAuthenticationPolicies := fun _ => (None, None);
     GetAuthorizationPolicies := fun _ => (None, None);
     sortConfigByCreationTime := fun l => l;
     indexSidecarScopes := fun _ _ => ∅;
     meshNetworkGateways := fun _ _ => ∅;
     clusterLocalHostsOf := fun _ _ => [] |}.

(** The snapshot a first, full build makes of [store0]. *)
Definition firstContext : PushContext :=
  ctx (InitContext helpers0 store0 None None {| ctx := freshContext; calls := [] |}).1.

(** A request that names one virtual service. *)
Definition virtualServiceUpdate : PushRequest :=
  {| Full := true;
     ConfigsUpdated := {[ mkConfigKey VirtualService "reviews" "default" ]};
     Push := None;
     Start := 10;
     Reason := [ConfigUpdate] |}.

(** A request that names one authorization policy. *)
Definition authzUpdate : PushRequest :=
  {| Full := true;
     ConfigsUpdated := {[ mkConfigKey AuthorizationPolicy "allow" "default" ]};
     Push := None;
     Start := 12;
     Reason := [ConfigUpdate; GlobalUpdate] |}.

(** Host matching by equality, the simplest matcher. *)
Definition exactHostMatch (needle : string) (stack : list string) : option string :=
  if bool_decide (needle ∈ stack) then Some needle else None.

Definition reviewsRule : Config :=
  {| cfgKind := DestinationRuleKind; cfgName := "reviews"; cfgNamespace := "default";
     cfgCreationTime := 7 |}.

Definition reviewsRules : processedDestRules :=
  {| hosts := ["reviews.default.svc"];
     exportTo := {[ "reviews.default.svc" := {[ "other" := true ]} ]};
     destRule := {[ "reviews.default.svc" := reviewsRule ]} |}.

(** A snapshot whose only destination rule is exported by the namespace
    default to the namespace other. *)
Definition contextWithRule : PushContext :=
  setDestRules {[ "default" := reviewsRules ]} {[ "default" := reviewsRules ]}
    newProcessedDestRules freshContext.

Definition gatewayProxy (ns : string) : Proxy :=
  {| ConfigNamespace := ns; ProxySidecarScope := None; Type_ := Router |}.

Definition reviews : Service := service "reviews.default.svc" "default" [] 1.

(** Two reporters' progress on one resource, and a status that is behind. *)
Definition progress5of10 : Status.Progress :=
  {| Status.AckedInstances := 5; Status.TotalInstances := 10 |}.

Definition staleStatus : Status.IstioStatus :=
  {| Status.Conditions :=
       [ {| Status.Type_ := "Reconciled"; Status.Status := "False";
            Status.LastProbeTime := 1; Status.LastTransitionTime := 1;
            Status.Message := "3/10 proxies up to date." |} ] |}.

End Examples.
(** * More of the code *)

(** ** Sending responses and the watched types (package xds) *)

Module Stream.
Import Ads.

(** A resource of a response: an any-wrapped message, of which [send] only
    measures the value. *)
Record Any := mkAny {
  AnyTypeUrl : string;
  Value : list Byte.byte
}.

(** The fields of [discovery.DiscoveryResponse] that [pushXds] fills. *)
Record DiscoveryResponse := mkResponse {
  RespTypeUrl : string;
  RespVersionInfo : string;
  Nonce : string;
  Resources : list Any
}.

(** The errors [send] returns: its own deadline error, or the error of the
    stream. *)
Inductive SendError :=
| DeadlineExceeded (message : string)
| StreamError (message : string).

(** The race of [send] between its timer and the goroutine that writes to
    the stream: either the timer fires first, or the write finishes first
    with the error of the stream, nil or not. *)
Inductive SendOutcome :=
| TimerFired
| StreamReturned (err : option string).

(** The counter [send] increments on a timeout. *)
Inductive SendEvent :=
| XDSResponseWriteTimeout.

(** [sz += len(rc.Value)] over the resources. *)
Definition payloadSize (res : DiscoveryResponse) : Z :=
  foldl (fun sz rc => (sz + Z.of_nat (length (Value rc)))%Z) 0%Z (Resources res).

(** [&model.WatchedResource{TypeUrl: res.TypeUrl}]. *)
Definition emptyWatchedResource (typeUrl : string) : WatchedResource :=
  {| wTypeUrl := typeUrl;
     wResourceNames := [];
     VersionSent := "";
     NonceSent := "";
     VersionAcked := "";
     NonceAcked := "";
     LastSent := 0;
     LastSize := 0;
     LastRequest := None |}.

(** The four assignments of [send] after a write without error. *)
Definition recordSent (w : WatchedResource) (res : DiscoveryResponse) (now : Z) : WatchedResource :=
  {| wTypeUrl := wTypeUrl w;
     wResourceNames := wResourceNames w;
     VersionSent := RespVersionInfo res;
     NonceSent := Nonce res;
     VersionAcked := VersionAcked w;
     NonceAcked := NonceAcked w;
     LastSent := now;
     LastSize := payloadSize res;
     LastRequest := LastRequest w |}.

(** [send]: the error returned, the connection after the write and the
    counters incremented. [now] is the reading of [time.Now()]. *)
Definition send (conn : Connection) (res : DiscoveryResponse) (outcome : SendOutcome)
    (now : Z) : option SendError * Connection * list SendEvent :=
  match outcome with
  | TimerFired => (Some (DeadlineExceeded "timeout sending"), conn, [XDSResponseWriteTimeout])
  | StreamReturned (Some err) => (Some (StreamError err), conn, [])
  | StreamReturned None =>
      if String.eqb (Nonce res) "" then (None, conn, [])
      else
        let w := match WatchedResources (proxy conn) !! RespTypeUrl res with
                 | Some w => w
                 | None => emptyWatchedResource (RespTypeUrl res)
                 end in
        (None, setWatched conn (RespTypeUrl res) (recordSent w res now), [])
  end.

(** The accessors of a connection. *)
Definition ConnNonceAcked (conn : Connection) (typeUrl : string) : string :=
  match WatchedResources (proxy conn) !! typeUrl with
  | Some w => NonceAcked w
  | None => ""
  end.

Definition ConnNonceSent (conn : Connection) (typeUrl : string) : string :=
  match WatchedResources (proxy conn) !! typeUrl with
  | Some w => NonceSent w
  | None => ""
  end.

Definition Watching (conn : Connection) (typeUrl : string) : bool :=
  match WatchedResources (proxy conn) !! typeUrl with
  | Some _ => true
  | None => false
  end.

(** The type URLs of the five resource types with a place in the push
    order. They are constants of the xDS library; the map literal
    [KnownPushOrder] lists each of them once. *)
Record TypeUrls := mkTypeUrls {
  ClusterType : string;
  EndpointType : string;
  ListenerType : string;
  RouteType : string;
  SecretType : string
}.

Section Types.

Variable types : TypeUrls.

Definition Clusters (conn : Connection) : list string :=
  match WatchedResources (proxy conn) !! EndpointType types with
  | Some w => wResourceNames w
  | None => []
  end.

Definition Routes (conn : Connection) : list string :=
  match WatchedResources (proxy conn) !! RouteType types with
  | Some w => wResourceNames w
  | None => []
  end.

Definition PushOrder : list string :=
  [ClusterType types; EndpointType types; ListenerType types; RouteType types;
   SecretType types].

Definition KnownPushOrder : gset string :=
  {[ ClusterType types; EndpointType types; ListenerType types; RouteType types;
     SecretType types ]}.

(** The known types first, in the push order; then every other type, in
    the order the map yields them. *)
Definition getPushResources (resources : gmap string WatchedResource) : list WatchedResource :=
  let wr :=
    foldl (fun wr tp =>
             match resources !! tp with
             | Some w => wr ++ [w]
             | None => wr
             end) [] PushOrder in
  foldl (fun wr tw => if bool_decide (tw.1 ∈ KnownPushOrder) then wr else wr ++ [tw.2])
        wr (map_to_list resources).

End Types.

End Stream.

(** ** The distribution controller (package status) *)

Module Distribution.
Import Status.

(** Modelled from the spec: [Resource] is declared in another file of the
    package; it carries what [writeStatus] reads of it, the
    group-version-resource, the namespace, the name and the resource
    version of the object. *)
Record Resource := mkResource {
  Group : string;
  Version : string;
  ResourceName : string;
  Namespace : string;
  Name : string;
  ResourceVersion : string
}.

#[global] Instance Resource_eq_dec : EqDecision Resource.
Proof. solve_decision. Defined.

#[global] Instance Resource_countable : Countable Resource.
Proof.
  apply (inj_countable'
           (fun r => (Group r, Version r, ResourceName r, Namespace r, Name r,
                      ResourceVersion r))
           (fun t => mkResource t.1.1.1.1.1 t.1.1.1.1.2 t.1.1.1.2 t.1.1.2 t.1.2 t.2)).
  intros []; reflexivity.
Defined.

(** Modelled from the spec: [DistributionReport] is declared in another file
    of the package; [handleReport] reads its reporter, its data-plane count
    and its map from resource strings to acked counts. *)
Record DistributionReport := mkReport {
  Reporter : string;
  DataPlaneCount : Z;
  InProgressResources : gmap string Z
}.

(** The controller: its state per resource and reporter, when each reporter
    was last heard, and the stale interval. Points in time and durations
    are counted in nanoseconds; the zero [time.Time] is 0. *)
Record DistributionController := mkController {
  CurrentState : gmap Resource (gmap string Progress);
  ObservationTime : gmap string Z;
  StaleInterval : Z
}.

(** Go's [int] on the 64-bit targets: the sum wraps around. *)
Definition wrapInt (z : Z) : Z :=
  ((z + 2 ^ 63) mod 2 ^ 64 - 2 ^ 63)%Z.

Definition PlusEquals (p p2 : Progress) : Progress :=
  {| AckedInstances := wrapInt (AckedInstances p + AckedInstances p2);
     TotalInstances := wrapInt (TotalInstances p + TotalInstances p2) |}.

(** A [time.Duration] saturates at its bounds. *)
Definition maxDuration : Z := (2 ^ 63 - 1)%Z.
Definition minDuration : Z := (- 2 ^ 63)%Z.

(** [clock.Since(t)], with the reading [now] of the clock. *)
Definition Since (now t : Z) : Z :=
  Z.max minDuration (Z.min maxDuration (now - t)).

(** [c.clock.Since(c.ObservationTime[reporter]) > c.StaleInterval]; a
    reporter never heard reads as the zero time. *)
Definition isStale (c : DistributionController) (now : Z) (reporter : string) : bool :=
  Z.ltb (StaleInterval c) (Since now (default 0%Z (ObservationTime c !! reporter))).

Section Reports.

(** [ResourceFromString] is declared in another file of the package and
    taken as given. *)
Variable ResourceFromString : string -> Resource.

Definition handleReport (c : DistributionController) (d : DistributionReport) (now : Z)
    : DistributionController :=
  {| CurrentState :=
       foldl (fun state resstr =>
                let res := ResourceFromString resstr in
                <[res := <[Reporter d :=
                             {| AckedInstances := default 0%Z (InProgressResources d !! resstr);
                                TotalInstances := DataPlaneCount d |}]>
                           (default ∅ (state !! res))]> state)
             (CurrentState c) (map_to_list (InProgressResources d)).*1;
     ObservationTime := <[Reporter d := now]> (ObservationTime c);
     StaleInterval := StaleInterval c |}.

End Reports.

(** The inner loop of [writeAllStatus] over the reporters of one resource:
    the progress summed over the fresh reporters, and the stale reporters
    appended to the list. *)
Definition sumFractions (c : DistributionController) (now : Z)
    (fractions : gmap string Progress) (staleReporters : list string)
    : Progress * list string :=
  foldl (fun acc rw =>
           if isStale c now rw.1 then (acc.1, acc.2 ++ [rw.1])
           else (PlusEquals acc.1 rw.2, acc.2))
        ({| AckedInstances := 0; TotalInstances := 0 |}, staleReporters)
        (map_to_list fractions).

(** [writeAllStatus]: the stale reporters it returns, and the calls of
    [writeStatus] it starts, one for each resource with a positive total. *)
Definition writeAllStatus (c : DistributionController) (now : Z)
    : list string * list (Resource * Progress) :=
  foldl (fun acc cf =>
           let '(distributionState, staleReporters) := sumFractions c now cf.2 acc.1 in
           (staleReporters,
            if Z.ltb 0 (TotalInstances distributionState)
            then acc.2 ++ [(cf.1, distributionState)]
            else acc.2))
        ([], []) (map_to_list (CurrentState c)).

Definition pruneOldVersion (c : DistributionController) (config : Resource)
    : DistributionController :=
  {| CurrentState := delete config (CurrentState c);
     ObservationTime := ObservationTime c;
     StaleInterval := StaleInterval c |}.

Definition removeStaleReporters (c : DistributionController) (staleReporters : list string)
    : DistributionController :=
  {| CurrentState :=
       (fun fractions => foldl (fun fractions staleReporter => delete staleReporter fractions)
                               fractions staleReporters)
         <$> CurrentState c;
     ObservationTime := ObservationTime c;
     StaleInterval := StaleInterval c |}.


Section Write.

Variable Json : Type.
Variable GetTypedStatus : option Json -> Error + IstioStatus.

(** What the API server answers to the [Get] of [writeStatus]: the object is
    gone, is not found, another error, or the object with its resource
    version. *)
Inductive GetResult :=
| GetGone
| GetNotFound
| GetFailed (err : Error)
| GetFound (resourceVersion : string) (object : gmap string Json).

(** [writeStatus]: the controller afterwards, and the status handed to
    [UpdateStatus], if it is called. *)
Definition writeStatus (c : DistributionController) (config : Resource)
    (distributionState : Progress) (current : GetResult) (probeTime transitionTime : Z)
    : DistributionController * option IstioStatus :=
  match current with
  | GetGone | GetNotFound => (pruneOldVersion c config, None)
  | GetFailed _ => (c, None)
  | GetFound resourceVersion object =>
      if negb (String.eqb (ResourceVersion config) resourceVersion)
      then (pruneOldVersion c config, None)
      else
        let '(needsReconcile, desiredStatus) :=
          ReconcileStatuses Json GetTypedStatus object distributionState
            probeTime transitionTime in
        if needsReconcile then (c, Some desiredStatus) else (c, None)
  end.

End Write.

End Distribution.

(** ** The contract of the distribution controller *)

Module DistributionContract.
Import Status Distribution.

(** The progress of a list of reports, summed as integers and wrapped at the
    end. *)
Definition sumProgress (reports : list Progress) : Progress :=
  {| AckedInstances := wrapInt (foldr Z.add 0%Z (AckedInstances <$> reports));
     TotalInstances := wrapInt (foldr Z.add 0%Z (TotalInstances <$> reports)) |}.

(** The reports of the reporters that are not stale. *)
Definition freshReports (c : DistributionController) (now : Z)
    (fractions : gmap string Progress) : gmap string Progress :=
  filter (fun rw => isStale c now rw.1 = false) fractions.

(** The progress of a resource: the sum over its fresh reporters. *)
Definition freshProgress (c : DistributionController) (now : Z)
    (fractions : gmap string Progress) : Progress :=
  sumProgress (map_to_list (freshReports c now fractions)).*2.

(** The report of a reporter on a resource. *)
Definition reportOf (c : DistributionController) (config : Resource) (reporter : string)
    : option Progress :=
  CurrentState c !! config ≫= fun fractions => fractions !! reporter.

(** The stale reporters found under one resource, and the write started for
    it. *)
Definition staleOf (c : DistributionController) (now : Z)
    (cf : Resource * gmap string Progress) : list string :=
  (filter (fun rw => isStale c now rw.1 = true) (map_to_list cf.2)).*1.

Definition writeOf (c : DistributionController) (now : Z)
    (cf : Resource * gmap string Progress) : option (Resource * Progress) :=
  if Z.ltb 0 (TotalInstances (freshProgress c now cf.2))
  then Some (cf.1, freshProgress c now cf.2)
  else None.

(** The body of the loop of [handleReport]. *)
Definition reportStep (ResourceFromString : string -> Resource) (d : DistributionReport)
    (state : gmap Resource (gmap string Progress)) (resstr : string)
    : gmap Resource (gmap string Progress) :=
  let res := ResourceFromString resstr in
  <[res := <[Reporter d :=
               {| AckedInstances := default 0%Z (InProgressResources d !! resstr);
                  TotalInstances := DataPlaneCount d |}]>
             (default ∅ (state !! res))]> state.

(** The object read by [writeStatus] is not the one the reports are about:
    it is gone, not found, or of another resource version. *)
Definition outdated {Json : Type} (config : Resource) (current : GetResult Json) : Prop :=
  match current with
  | GetGone _ | GetNotFound _ => True
  | GetFailed _ _ => False
  | GetFound _ resourceVersion _ => resourceVersion <> ResourceVersion config
  end.

(** The part of a string before the first occurrence of a separator, and
    the part after it. *)
Fixpoint cut (sep : ascii) (s : string) : string * string :=
  match s with
  | EmptyString => (EmptyString, EmptyString)
  | String a s' =>
      if Ascii.eqb a sep then (EmptyString, s')
      else let '(before, after) := cut sep s' in (String a before, after)
  end.

(** The characters the verb [%d] prints: the digits and the sign. *)
Definition isNumeric (a : ascii) : bool :=
  match a with
  | "0" | "1" | "2" | "3" | "4" | "5" | "6" | "7" | "8" | "9" | "-" => true
  | _ => false
  end%char.

Fixpoint allNumeric (s : string) : bool :=
  match s with
  | EmptyString => true
  | String a s' => isNumeric a && allNumeric s'
  end.

End DistributionContract.

(** ** The contract of the service registry *)

Module RegistryContract.
Import Model.

(** A service is visible from a namespace, by its exportTo or, without one,
    by the mesh default: public reaches every namespace; private, and an
    exportTo naming the own namespace, reach the own namespace; any other
    name reaches the namespace of that name; none hides the service unless
    it is public as well. *)
Definition visibleTo (defaults : gmap string bool) (ns : string) (s : Service) : Prop :=
  let own := Namespace (Attributes s) in
  let exportTo := ExportTo (Attributes s) in
  if Nat.eqb (size exportTo) 0 then
    if exported defaults Private then ns = own
    else exported defaults Public = true
  else if exported exportTo Public then True
  else if exported exportTo None_ then False
  else (ns = own /\ (is_Some (exportTo !! Private) \/ is_Some (exportTo !! own)))
       \/ (ns <> Private /\ ns <> own /\ is_Some (exportTo !! ns)).

(** What a proxy of a namespace without a sidecar scope is served: the
    private and the exported bucket of its namespace and the public
    services. *)
Definition served (ps : PushContext) (ns : string) (s : Service) : Prop :=
  s ∈ bucket (privateServicesByNamespace ps) ns
  \/ s ∈ bucket (servicesExportedToNamespace ps) ns
  \/ s ∈ publicServices ps.

(** The services for which the loop of [initServiceRegistry] reaches the
    hostname indices: those not left by a [continue]. *)
Definition indexed (s : Service) : bool :=
  Nat.eqb (size (ExportTo (Attributes s))) 0
  || negb (exported (ExportTo (Attributes s)) Public)
     && negb (exported (ExportTo (Attributes s)) None_).

(** The service has a port of that number that is not UDP. *)
Definition hasPort (svc : Service) (port : Z) : bool :=
  existsb (fun p => Z.eqb (PortNumber p) port && negb (String.eqb (Protocol p) UDP))
          (Ports svc).

(** Ascending creation times. *)
Definition byCreationTime (services : list Service) : Prop :=
  StronglySorted (fun a b => (CreationTime a <= CreationTime b)%Z) services.

End RegistryContract.

(** ** More concrete inputs *)

Module MoreExamples.
Import Examples.

(** The type URLs of the xDS library. *)
Definition xdsTypes : Stream.TypeUrls :=
  {| Stream.ClusterType := "type.googleapis.com/envoy.config.cluster.v3.Cluster";
     Stream.EndpointType := "type.googleapis.com/envoy.config.endpoint.v3.ClusterLoadAssignment";
     Stream.ListenerType := "type.googleapis.com/envoy.config.listener.v3.Listener";
     Stream.RouteType := "type.googleapis.com/envoy.config.route.v3.RouteConfiguration";
     Stream.SecretType :=
       "type.googleapis.com/envoy.extensions.transport_sockets.tls.v3.Secret" |}.

(** A response for the type URL cds with nonce n2. *)
Definition responseN2 : Stream.DiscoveryResponse :=
  {| Stream.RespTypeUrl := "cds"; Stream.RespVersionInfo := "v2"; Stream.Nonce := "n2";
     Stream.Resources := [ {| Stream.AnyTypeUrl := "cluster"; Stream.Value := [] |} ] |}.

(** An ACK of nonce n2 for the names c, b, a; a first request. *)
Definition ackN2 : Ads.DiscoveryRequest :=
  {| Ads.TypeUrl := "cds"; Ads.VersionInfo := "v2"; Ads.ResponseNonce := "n2";
     Ads.ResourceNames := ["c"; "b"; "a"]; Ads.ErrorDetail := None |}.

Definition ackN1 : Ads.DiscoveryRequest :=
  {| Ads.TypeUrl := "cds"; Ads.VersionInfo := "v1"; Ads.ResponseNonce := "n1";
     Ads.ResourceNames := ["a"; "b"; "c"]; Ads.ErrorDetail := None |}.

Definition firstRequest : Ads.DiscoveryRequest :=
  {| Ads.TypeUrl := "lds"; Ads.VersionInfo := ""; Ads.ResponseNonce := "";
     Ads.ResourceNames := ["l"]; Ads.ErrorDetail := None |}.

End MoreExamples.

Module DistributionExamples.
Import Status Distribution.

(** A stand-in for [ResourceFromString]: the virtual service of that name
    in the default namespace, at version 1. *)
Definition resourceNamed (resstr : string) : Resource :=
  {| Group := "networking.istio.io"; Version := "v1alpha3";
     ResourceName := "virtualservices"; Namespace := "default";
     Name := resstr; ResourceVersion := "1" |}.

(** A controller that has heard nothing, with a stale interval of one
    minute. *)
Definition controller0 : DistributionController :=
  {| CurrentState := ∅; ObservationTime := ∅; StaleInterval := 60000000000 |}.

(** istiod-1 reports 7 of its 10 proxies up to date on reviews. *)
Definition report1 : DistributionReport :=
  {| Reporter := "istiod-1"; DataPlaneCount := 10;
     InProgressResources := {[ "reviews" := 7%Z ]} |}.

(** A JSON encoder that always parses: the status subresource is the typed
    status itself, an absent one is empty. *)
Definition parseStatus (o : option IstioStatus) : Error + IstioStatus :=
  inr (default (mkStatus []) o).

Definition progress3of10 : Progress :=
  {| AckedInstances := 3; TotalInstances := 10 |}.

End DistributionExamples.

Module RegistryExamples.
Import Model.

(** A request that names a config of every kind with an index of its own. *)
Definition everythingUpdate : PushRequest :=
  {| Full := true;
     ConfigsUpdated :=
       {[ mkConfigKey ServiceEntry "ext" "default";
          mkConfigKey VirtualService "reviews" "default";
          mkConfigKey DestinationRuleKind "reviews" "default";
          mkConfigKey PeerAuthentication "strict" "default";
          mkConfigKey AuthorizationPolicy "allow" "default";
          mkConfigKey EnvoyFilter "lua" "default";
          mkConfigKey GatewayKind "ingress" "default" ]};
     Push := None;
     Start := 14;
     Reason := [ConfigUpdate] |}.

End RegistryExamples.
(** * Properties *)

(** ** The ack/nack decision *)

Module AdsSpec.
Import Ads Examples.

Lemma foldl_first_elem (a : list string) (acc : gset string) (c : string) :
  c ∈ foldl (fun first c => {[ c ]} ∪ first) acc a <-> c ∈ acc \/ c ∈ a.
Proof.
  revert acc; induction a as [|x a IH]; intros acc; simpl.
  - split; [auto | intros [H|H]; [done | inversion H]].
  - rewrite IH, elem_of_union, elem_of_singleton, elem_of_cons. tauto.
Qed.

Lemma firstSet_elem (a : list string) (c : string) : c ∈ firstSet a <-> c ∈ a.
Proof.
  unfold firstSet. rewrite foldl_first_elem. split; [intros [H|H] | auto]; [|done].
  by apply not_elem_of_empty in H.
Qed.

(** What [listEqualUnordered] decides: equal lengths, and the second list
    inside the first. *)
Lemma listEqualUnordered_true (a b : list string) :
  listEqualUnordered a b = true <-> length a = length b /\ forall c, c ∈ b -> c ∈ a.
Proof.
  unfold listEqualUnordered.
  destruct (Nat.eqb_spec (length a) (length b)) as [Hlen|Hlen]; simpl.
  - rewrite forallb_forall. split.
    + intros H. split; [done|]. intros c Hc.
      apply firstSet_elem. apply list_elem_of_In in Hc.
      specialize (H c Hc). by apply bool_decide_eq_true in H.
    + intros [_ H] c Hc. apply bool_decide_eq_true, firstSet_elem, H.
      by apply list_elem_of_In.
  - split; [discriminate | intros [? _]; done].
Qed.

(** A list without duplicates that lies inside a list of the same length is
    a permutation of it. *)
Lemma NoDup_incl_length_Permutation (a b : list string) :
  List.NoDup b -> length a = length b -> (forall c, c ∈ b -> c ∈ a) -> Permutation a b.
Proof.
  intros Hnd Hlen Hincl.
  apply Permutation_sym.
  apply NoDup_Permutation_bis; [done | lia |].
  intros c Hc. apply list_elem_of_In, Hincl, list_elem_of_In, Hc.
Qed.

Lemma listEqualUnordered_NoDup (a b : list string) :
  List.NoDup b -> (listEqualUnordered a b = true <-> Permutation a b).
Proof.
  intros Hnd. rewrite listEqualUnordered_true. split.
  - intros [Hlen Hincl]. by apply NoDup_incl_length_Permutation.
  - intros HP. split; [by apply Permutation_length|].
    intros c Hc. apply list_elem_of_In. apply list_elem_of_In in Hc.
    eapply Permutation_in; [apply Permutation_sym, HP | done].
Qed.

(** The shape of [shouldRespond] on a request that acknowledges the nonce
    last sent. *)
Lemma shouldRespond_ack (s : DiscoveryServer) (con : Connection)
    (request : DiscoveryRequest) (previousInfo : WatchedResource) :
  ErrorDetail request = None ->
  ResponseNonce request <> "" ->
  Watched con (TypeUrl request) = Some previousInfo ->
  ResponseNonce request = NonceSent previousInfo ->
  shouldRespond s con request =
    (negb (listEqualUnordered (wResourceNames previousInfo) (ResourceNames request)),
     setWatched con (TypeUrl request) (recordAck previousInfo request), []).
Proof.
  intros Herr Hnonce Hprev Hsent. unfold shouldRespond, Watched in *.
  rewrite Herr, Hprev.
  destruct (String.eqb_spec (ResponseNonce request) "") as [|_]; [done|].
  destruct (String.eqb_spec (ResponseNonce request) (NonceSent previousInfo)) as [_|]; [|done].
  simpl. by destruct (listEqualUnordered _ _).
Qed.

Lemma Watched_setWatched (con : Connection) (typeUrl : string) (w : WatchedResource) :
  Watched (setWatched con typeUrl w) typeUrl = Some w.
Proof. unfold Watched, setWatched; simpl. apply lookup_insert_eq. Qed.

(** With no duplicate among the requested names the ACK branch answers
    exactly when the names changed as a multiset. *)
Lemma shouldRespond_ack_NoDup (s : DiscoveryServer) (con : Connection)
    (request : DiscoveryRequest) (previousInfo : WatchedResource) :
  ErrorDetail request = None ->
  ResponseNonce request <> "" ->
  Watched con (TypeUrl request) = Some previousInfo ->
  ResponseNonce request = NonceSent previousInfo ->
  List.NoDup (ResourceNames request) ->
  (shouldRespond s con request).1.1 = true
  <-> ~ Permutation (wResourceNames previousInfo) (ResourceNames request).
Proof.
  intros Herr Hnonce Hprev Hsent Hnd.
  rewrite (shouldRespond_ack s con request previousInfo) by done. simpl.
  rewrite <- (listEqualUnordered_NoDup _ _ Hnd).
  destruct (listEqualUnordered _ _); simpl; intuition congruence.
Qed.

(** C1, at the input where the code departs from it: the watched names are
    a, b, c and the request acknowledges the nonce last sent with the names
    a, a, b. The version and the nonce are recorded as acked, the two lists
    are not equal in any order (c is watched and no longer requested), and
    [shouldRespond] still returns false: no response is sent. *)
Theorem shouldRespond_ack_duplicate_names :
  let '(respond, con', events) := shouldRespond (mkServer true) conABC ackAAB in
  respond = false
  /\ events = []
  /\ (VersionAcked <$> Watched con' "cds") = Some "v1"
  /\ (NonceAcked <$> Watched con' "cds") = Some "n1"
  /\ ErrorDetail ackAAB = None
  /\ ResponseNonce ackAAB <> ""
  /\ Some (ResponseNonce ackAAB) = (NonceSent <$> Watched conABC (TypeUrl ackAAB))
  /\ ~ Permutation (wResourceNames watchedABC) (ResourceNames ackAAB)
  /\ "c" ∈ wResourceNames watchedABC
  /\ "c" ∉ ResourceNames ackAAB.
Proof.
  vm_compute shouldRespond.
  repeat split; try done.
  - intros HP. apply (Permutation_in "c") in HP; [|simpl; tauto].
    simpl in HP. intuition discriminate.
  - apply list_elem_of_In. simpl. tauto.
  - rewrite list_elem_of_In. simpl. intuition discriminate.
Qed.

(** C7: a request that carries an error detail is a NACK. The reject metric
    is incremented once, the nack callback is invoked when the internal
    generator is present, [shouldRespond] returns false, and the connection
    is returned as it was: the watched resource of every type URL, and with
    it [NonceAcked], keeps its prior value. *)
Theorem shouldRespond_nack (s : DiscoveryServer) (con : Connection)
    (request : DiscoveryRequest) (detail : Status) :
  ErrorDetail request = Some detail ->
  let '(respond, con', events) := shouldRespond s con request in
  respond = false
  /\ con' = con
  /\ Watched con' (TypeUrl request) = Watched con (TypeUrl request)
  /\ (NonceAcked <$> Watched con' (TypeUrl request))
     = (NonceAcked <$> Watched con (TypeUrl request))
  /\ events = XDSReject (TypeUrl request) (ID (proxy con)) (Code detail)
                :: (if InternalGen s then [OnNack (ID (proxy con)) request] else []).
Proof.
  intros Herr. unfold shouldRespond. rewrite Herr. by repeat split.
Qed.

Lemma shouldRespond_nack_witness :
  shouldRespond (mkServer true) conABC nackABC
  = (false, conABC, [XDSReject "cds" "sidecar~1" 3; OnNack "sidecar~1" nackABC]).
Proof.
  pose proof (shouldRespond_nack (mkServer true) conABC nackABC
                {| Code := 3; Message := "rejected" |} eq_refl) as H.
  destruct (shouldRespond (mkServer true) conABC nackABC) as [[respond con'] events].
  destruct H as (-> & -> & _ & _ & ->). reflexivity.
Defined.

(** C10: [listEqualUnordered a b] is true exactly when the lists have the
    same length and every element of [b] occurs in [a]. It is not multiset
    equality: for distinct x and y it is true of x, x, y and y, y, x, which
    are no permutation of each other. So an ACK whose names have the length
    and the elements of the watched names, whatever the multiplicities, is a
    pure ACK: [shouldRespond] returns false. *)
Theorem listEqualUnordered_not_multiset :
  (forall a b : list string,
      listEqualUnordered a b = true <-> length a = length b /\ forall c, c ∈ b -> c ∈ a)
  /\ (forall x y : string,
        x <> y ->
        listEqualUnordered [x; x; y] [y; y; x] = true
        /\ ~ Permutation [x; x; y] [y; y; x])
  /\ (forall (s : DiscoveryServer) (con : Connection) (request : DiscoveryRequest)
             (previousInfo : WatchedResource),
        ErrorDetail request = None ->
        ResponseNonce request <> "" ->
        Watched con (TypeUrl request) = Some previousInfo ->
        ResponseNonce request = NonceSent previousInfo ->
        length (wResourceNames previousInfo) = length (ResourceNames request) ->
        (forall c, c ∈ ResourceNames request <-> c ∈ wResourceNames previousInfo) ->
        (shouldRespond s con request).1.1 = false).
Proof.
  split; [exact listEqualUnordered_true|]. split.
  - intros x y Hxy. split.
    + apply listEqualUnordered_true. split; [done|].
      intros c. rewrite !elem_of_cons, !elem_of_nil. tauto.
    + intros HP. apply (Permutation_count_occ string_dec) with (x := x) in HP.
      simpl in HP.
      destruct (string_dec x x); [|done].
      destruct (string_dec y x); [congruence|]. discriminate.
  - intros s con request previousInfo Herr Hnonce Hprev Hsent Hlen Hsame.
    rewrite (shouldRespond_ack s con request previousInfo) by done. simpl.
    apply negb_false_iff, listEqualUnordered_true. split; [done|].
    intros c Hc. by apply Hsame.
Qed.

Lemma listEqualUnordered_not_multiset_witness :
  (listEqualUnordered ["x"; "x"; "y"] ["y"; "y"; "x"] = true
   /\ ~ Permutation ["x"; "x"; "y"] ["y"; "y"; "x"])
  /\ (shouldRespond (mkServer false) conXXY ackYYX).1.1 = false.
Proof.
  destruct listEqualUnordered_not_multiset as (_ & Hex & Hack). split.
  - apply (Hex "x" "y"). discriminate.
  - apply (Hack (mkServer false) conXXY ackYYX watchedXXY).
    + reflexivity.
    + discriminate.
    + reflexivity.
    + reflexivity.
    + reflexivity.
    + intros c. simpl. rewrite !elem_of_cons, !elem_of_nil. tauto.
Defined.

End AdsSpec.

(** ** Merging push requests *)

Module MergeSpec.
Import Model MergeLaw Examples.

Lemma foldl_insert_union (l : list ConfigKey) (merged : gset ConfigKey) :
  foldl (fun merged conf => {[ conf ]} ∪ merged) merged l = list_to_set l ∪ merged.
Proof.
  revert merged; induction l as [|x l IH]; intros merged; simpl.
  - set_solver.
  - rewrite IH. set_solver.
Qed.

(** The two loops of [Merge] build the union. *)
Lemma insertAll_union (m merged : gset ConfigKey) : insertAll m merged = m ∪ merged.
Proof.
  unfold insertAll. by rewrite foldl_insert_union, list_to_set_elements_L.
Qed.

Lemma nonempty_ltb (m : gset ConfigKey) : Nat.ltb 0 (size m) = true <-> m <> ∅.
Proof.
  rewrite Nat.ltb_lt. unfold_leibniz. rewrite <- size_non_empty_iff. lia.
Qed.

Lemma nonempty_ltb_false (m : gset ConfigKey) : Nat.ltb 0 (size m) = false <-> m = ∅.
Proof.
  rewrite Nat.ltb_ge. split.
  - intros H. unfold_leibniz. apply size_empty_iff. lia.
  - intros ->. by rewrite size_empty.
Qed.

Lemma Merge_Some (a b : PushRequest) :
  Merge (Some a) (Some b) =
    Some {| Start := Start a;
            Full := Full a || Full b;
            Push := Push b;
            Reason := Reason a ++ Reason b;
            ConfigsUpdated := mergedConfigs (ConfigsUpdated a) (ConfigsUpdated b) |}.
Proof.
  unfold Merge, mergedConfigs. do 2 f_equal.
  destruct (_ && _); [|done].
  rewrite !insertAll_union. set_solver.
Qed.

Lemma mergedConfigs_assoc (x y z : gset ConfigKey) :
  mergedConfigs (mergedConfigs x y) z = mergedConfigs x (mergedConfigs y z).
Proof.
  assert (Nat.ltb 0 (size (∅ : gset ConfigKey)) = false) as Hempty
    by (by apply nonempty_ltb_false).
  assert (forall u v : gset ConfigKey,
             Nat.ltb 0 (size u) = true -> Nat.ltb 0 (size (u ∪ v)) = true) as Hl
    by (intros u v Hu; apply nonempty_ltb; apply nonempty_ltb in Hu; set_solver).
  assert (forall u v : gset ConfigKey,
             Nat.ltb 0 (size v) = true -> Nat.ltb 0 (size (u ∪ v)) = true) as Hr
    by (intros u v Hv; apply nonempty_ltb; apply nonempty_ltb in Hv; set_solver).
  unfold mergedConfigs.
  destruct (Nat.ltb 0 (size x)) eqn:Hx, (Nat.ltb 0 (size y)) eqn:Hy,
           (Nat.ltb 0 (size z)) eqn:Hz; cbn [andb];
    rewrite ?Hempty, ?Hx, ?Hy, ?Hz, ?(Hl x y Hx), ?(Hr y z Hz); cbn [andb];
    rewrite ?Hempty; try reflexivity.
  symmetry. apply (assoc_L (∪)).
Qed.

(** Merging is associative on every field, nil requests included. *)
Lemma Merge_assoc (a b c : option PushRequest) :
  Merge (Merge a b) c = Merge a (Merge b c).
Proof.
  destruct a as [a|], b as [b|], c as [c|]; try reflexivity.
  rewrite !Merge_Some. simpl.
  by rewrite mergedConfigs_assoc, orb_assoc, <- app_assoc.
Qed.

(** C2: for two non-nil requests, the merged request is full when either
    is, starts when the first started, carries the snapshot of the second,
    has the reasons of the first followed by the reasons of the second with
    nothing removed, and its configs are the union of the two sets when both
    are non-empty and the empty set, which stands for everything, when
    either is empty. *)
Theorem Merge_fields (a b : PushRequest) :
  exists merged,
    Merge (Some a) (Some b) = Some merged
    /\ Full merged = Full a || Full b
    /\ Start merged = Start a
    /\ Push merged = Push b
    /\ Reason merged = Reason a ++ Reason b
    /\ length (Reason merged) = (length (Reason a) + length (Reason b))%nat
    /\ (ConfigsUpdated a <> ∅ -> ConfigsUpdated b <> ∅ ->
        ConfigsUpdated merged = ConfigsUpdated a ∪ ConfigsUpdated b)
    /\ (ConfigsUpdated a = ∅ \/ ConfigsUpdated b = ∅ -> ConfigsUpdated merged = ∅).
Proof.
  eexists. split; [apply Merge_Some|]. simpl. repeat split.
  - apply length_app.
  - intros Ha Hb. unfold mergedConfigs.
    apply nonempty_ltb in Ha, Hb. by rewrite Ha, Hb.
  - intros [Ha|Hb]; unfold mergedConfigs.
    + apply nonempty_ltb_false in Ha. by rewrite Ha.
    + apply nonempty_ltb_false in Hb. rewrite Hb. by rewrite andb_false_r.
Qed.

(** C8: merging is associative. For all requests a, b and c, nil or not,
    merging a with b and then with c gives the same full flag, the same
    reasons as a multiset and the same set of updated configs as merging a
    with the merge of b and c. *)
Theorem Merge_associative (a b c : option PushRequest) :
  sameRequest (Merge (Merge a b) c) (Merge a (Merge b c)).
Proof.
  rewrite Merge_assoc. unfold sameRequest.
  destruct (Merge a (Merge b c)); [|done].
  by repeat split.
Qed.

Lemma Merge_fields_witness :
  ConfigsUpdated virtualServiceUpdate <> ∅
  /\ ConfigsUpdated authzUpdate <> ∅
  /\ exists merged,
       Merge (Some virtualServiceUpdate) (Some authzUpdate) = Some merged
       /\ Full merged = true
       /\ Start merged = 10%Z
       /\ Reason merged = [ConfigUpdate; ConfigUpdate; GlobalUpdate]
       /\ ConfigsUpdated merged
          = {[ mkConfigKey VirtualService "reviews" "default" ]}
              ∪ {[ mkConfigKey AuthorizationPolicy "allow" "default" ]}.
Proof.
  assert (ConfigsUpdated virtualServiceUpdate <> ∅) as Hv
    by (apply nonempty_ltb; reflexivity).
  assert (ConfigsUpdated authzUpdate <> ∅) as Ha
    by (apply nonempty_ltb; reflexivity).
  split; [exact Hv|]. split; [exact Ha|].
  destruct (Merge_fields virtualServiceUpdate authzUpdate)
    as (merged & Hm & Hfull & Hstart & _ & Hreason & _ & Hunion & _).
  exists merged. split; [exact Hm|]. split; [exact Hfull|]. split; [exact Hstart|].
  split; [exact Hreason|]. exact (Hunion Hv Ha).
Defined.

End MergeSpec.

(** ** Destination-rule lookup *)

Module LookupSpec.
Import Model LookupContract Examples.

Section DestinationRuleSpec.

Variable MostSpecificHostMatch : string -> list string -> option string.

Lemma exported_true (m : gmap string bool) (k : string) :
  exported m k = bool_decide (m !! k = Some true).
Proof.
  unfold exported. destruct (m !! k) as [[]|]; simpl; by repeat case_bool_decide.
Qed.

Lemma size_eqb_empty (m : gmap string bool) :
  Nat.eqb (size m) 0 = bool_decide (m = ∅).
Proof.
  case_bool_decide as H.
  - subst. by rewrite map_size_empty.
  - apply Nat.eqb_neq. by rewrite map_size_empty_iff.
Qed.

Lemma getExported_searchExported (ps : PushContext) (ns hostname client : string) :
  getExportedDestinationRuleFromNamespace MostSpecificHostMatch ps ns hostname client
  = firstHit [searchExported MostSpecificHostMatch ps (Some ns) hostname client].
Proof.
  unfold getExportedDestinationRuleFromNamespace, searchExported, exportAllows. simpl.
  destruct (exportedDestRulesByNamespace ps !! ns) as [r|]; simpl; [|done].
  destruct (MostSpecificHostMatch hostname (hosts r)) as [h|]; simpl; [|done].
  rewrite size_eqb_empty, !exported_true.
  destruct (destRule r !! h) as [rule|]; simpl.
  - by destruct (_ || _ || _).
  - by destruct (_ || _ || _).
Qed.

Lemma serviceNamespace_owning (ps : PushContext) (proxy : Proxy) (service : Service) :
  owningNamespace ps proxy service =
    (if String.eqb (serviceNamespace ps proxy service) "" then None
     else Some (serviceNamespace ps proxy service)).
Proof.
  unfold owningNamespace, serviceNamespace.
  destruct (String.eqb_spec (Namespace (Attributes service)) "") as [He|Hne].
  - rewrite decide_True by done.
    induction (Services ps (Some proxy)) as [|svc l IH]; simpl; [done|].
    destruct (String.eqb_spec (Hostname service) (Hostname svc)) as [Hh|Hh];
      destruct (String.eqb_spec (Namespace (Attributes svc)) "") as [Hn|Hn]; simpl.
    + rewrite filter_cons_False by tauto. apply IH.
    + rewrite filter_cons_True by done. simpl.
      by destruct (String.eqb_spec (Namespace (Attributes svc)) "").
    + rewrite filter_cons_False by (intros [? ?]; congruence). apply IH.
    + rewrite filter_cons_False by (intros [? ?]; congruence). apply IH.
  - rewrite decide_False by done.
    by destruct (String.eqb_spec (Namespace (Attributes service)) "").
Qed.

(** A hit among exported rules always carries a rule. *)
Lemma searchExported_hit (ps : PushContext) (ns : option string) (hostname client : string)
    (r : option Config) :
  searchExported MostSpecificHostMatch ps ns hostname client = Some r -> exists rule, r = Some rule.
Proof.
  unfold searchExported. intros H.
  destruct ns as [ns|]; simpl in H; [|done].
  destruct (exportedDestRulesByNamespace ps !! ns) as [rules|]; simpl in H; [|done].
  destruct (MostSpecificHostMatch hostname (hosts rules)) as [h|]; simpl in H; [|done].
  destruct (destRule rules !! h) as [rule|]; simpl in H; [|done].
  destruct (exportAllows _ _); [|done].
  injection H as <-. by exists rule.
Qed.

(** Steps 2 to 4 of [DestinationRule] are the searches (c) and (d). *)
Lemma exported_steps (ps : PushContext) (proxy : Proxy) (service : Service) :
  let svcNs := serviceNamespace ps proxy service in
  match (if negb (String.eqb svcNs "")
         then getExportedDestinationRuleFromNamespace MostSpecificHostMatch ps svcNs
                (Hostname service) (ConfigNamespace proxy)
         else None) with
  | Some out => Some out
  | None =>
      getExportedDestinationRuleFromNamespace MostSpecificHostMatch ps
        (RootNamespace (Mesh ps)) (Hostname service) (ConfigNamespace proxy)
  end
  = firstHit
      [ searchExported MostSpecificHostMatch ps (owningNamespace ps proxy service) (Hostname service)
          (ConfigNamespace proxy);
        searchExported MostSpecificHostMatch ps (Some (RootNamespace (Mesh ps))) (Hostname service)
          (ConfigNamespace proxy) ].
Proof.
  intros svcNs. rewrite serviceNamespace_owning. fold svcNs.
  destruct (String.eqb svcNs ""); cbn [negb].
  - rewrite getExported_searchExported. reflexivity.
  - rewrite !getExported_searchExported. cbn [firstHit].
    destruct (searchExported MostSpecificHostMatch ps (Some svcNs) (Hostname service) (ConfigNamespace proxy))
      as [r|] eqn:Hc; [|done].
    apply searchExported_hit in Hc as [rule ->]. done.
Qed.

(** C3: for a proxy that does not delegate to a user-supplied sidecar scope
    and a non-nil service, [DestinationRule] returns the first hit of the
    four searches, in order: (a) the most-specific host match among the
    namespace-local rules of the proxy's namespace when the proxy is not in
    the root namespace, (b) the root-namespace-local rules when it is,
    (c) the exported rules of the namespace that owns the service, a hit
    only when the exportTo set of the matched rule is empty, contains public
    or contains the proxy's namespace, (d) the exported rules of the root
    namespace under the same check; it returns nil when none hits. *)
Theorem DestinationRule_search_order (ps : PushContext) (proxy : Proxy) (service : Service) :
  userSidecarScope proxy = None ->
  DestinationRule MostSpecificHostMatch ps proxy (Some service)
  = DestinationRule_spec MostSpecificHostMatch ps proxy service.
Proof.
  intros Hscope. unfold DestinationRule, DestinationRule_spec. rewrite Hscope.
  pose proof (exported_steps ps proxy service) as Hcd. cbv zeta in Hcd.
  unfold destinationRuleFromProxyNamespace.
  destruct (String.eqb_spec (ConfigNamespace proxy) (RootNamespace (Mesh ps))) as [Hroot|Hroot];
    cbn [negb].
  - rewrite bool_decide_eq_true_2 by done.
    cbn [searchLocal mbind option_bind fmap option_map firstHit].
    destruct (MostSpecificHostMatch (Hostname service) (hosts (rootNamespaceLocalDestRules ps)))
      as [h|]; [done|].
    exact Hcd.
  - rewrite bool_decide_eq_false_2 by done.
    cbn [firstHit].
    destruct (namespaceLocalDestRules ps !! ConfigNamespace proxy) as [rules|];
      cbn [searchLocal mbind option_bind fmap option_map firstHit].
    + destruct (MostSpecificHostMatch (Hostname service) (hosts rules)) as [h|]; [done|].
      exact Hcd.
    + exact Hcd.
Qed.

End DestinationRuleSpec.

Lemma DestinationRule_search_order_witness :
  DestinationRule exactHostMatch contextWithRule (gatewayProxy "other") (Some reviews)
  = DestinationRule_spec exactHostMatch contextWithRule (gatewayProxy "other") reviews.
Proof.
  apply (DestinationRule_search_order exactHostMatch contextWithRule (gatewayProxy "other")
           reviews).
  reflexivity.
Defined.

End LookupSpec.

(** ** Building a snapshot *)

Module BuildSpec.
Import Model BuildContract Examples.

(** *** The service registry *)

Lemma insertByCreationTime_Permutation (s : Service) (l : list Service) :
  insertByCreationTime s l ≡ₚ s :: l.
Proof.
  induction l as [|x l IH]; simpl; [done|].
  destruct (Z.ltb (CreationTime x) (CreationTime s)); [|done].
  rewrite IH. apply Permutation_swap.
Qed.

Lemma sortServicesByCreationTime_Permutation (l : list Service) :
  sortServicesByCreationTime l ≡ₚ l.
Proof.
  induction l as [|x l IH]; simpl; [done|].
  unfold sortServicesByCreationTime in *. simpl.
  by rewrite insertByCreationTime_Permutation, IH.
Qed.

Lemma inMap_empty (s : Service) : ~ inMap ∅ s.
Proof. intros (ns & l & H & _). by rewrite lookup_empty in H. Qed.

Lemma inMap_appendTo (k : string) (x : Service) (m : gmap string (list Service))
    (s : Service) :
  inMap (appendTo k x m) s <-> inMap m s \/ s = x.
Proof.
  unfold inMap, appendTo, bucket. split.
  - intros (ns & l & Hl & Hs).
    destruct (decide (k = ns)) as [->|Hne].
    + rewrite lookup_insert_eq in Hl. injection Hl as <-.
      apply elem_of_app in Hs as [Hs|Hs].
      * destruct (m !! ns) as [l0|] eqn:Hm; simpl in Hs; [|by inversion Hs].
        left. by exists ns, l0.
      * right. by apply list_elem_of_singleton in Hs.
    + rewrite lookup_insert_ne in Hl by done. left. by exists ns, l.
  - intros [(ns & l & Hl & Hs) | ->].
    + destruct (decide (k = ns)) as [->|Hne].
      * exists ns, (l ++ [x]). rewrite lookup_insert_eq, Hl. simpl.
        split; [done|]. apply elem_of_app. by left.
      * exists ns, l. by rewrite lookup_insert_ne.
    + exists k, (default [] (m !! k) ++ [x]). rewrite lookup_insert_eq.
      split; [done|]. apply elem_of_app. right. by apply list_elem_of_singleton.
Qed.

Lemma inBuckets_addPrivateService (ns : string) (x : Service) (ps : PushContext)
    (s : Service) :
  inBuckets (addPrivateService ns x ps) s <-> inBuckets ps s \/ s = x.
Proof.
  unfold inBuckets, addPrivateService; simpl. rewrite inMap_appendTo. tauto.
Qed.

Lemma inBuckets_addExportedService (target : string) (x : Service) (ps : PushContext)
    (s : Service) :
  inBuckets (addExportedService target x ps) s <-> inBuckets ps s \/ s = x.
Proof.
  unfold inBuckets, addExportedService; simpl. rewrite inMap_appendTo. tauto.
Qed.

Lemma inBuckets_addPublicService (x : Service) (ps : PushContext) (s : Service) :
  inBuckets (addPublicService x ps) s <-> inBuckets ps s \/ s = x.
Proof.
  unfold inBuckets, addPublicService; simpl.
  rewrite elem_of_app, list_elem_of_singleton. tauto.
Qed.

Lemma inBuckets_indexByHostname (x : Service) (ps : PushContext) (s : Service) :
  inBuckets (indexByHostname x ps) s <-> inBuckets ps s.
Proof. reflexivity. Qed.

(** The loop over the export targets puts the service in a bucket at every
    turn. *)
Lemma inBuckets_exportTargets (x : Service) (targets : list string) (ps : PushContext)
    (s : Service) :
  inBuckets
    (foldl (fun ps exportTo =>
              if String.eqb exportTo Private || String.eqb exportTo (Namespace (Attributes x))
              then addPrivateService (Namespace (Attributes x)) x ps
              else addExportedService exportTo x ps)
           ps targets) s
  <-> inBuckets ps s \/ (targets <> [] /\ s = x).
Proof.
  revert ps. induction targets as [|t targets IH]; intros ps; simpl.
  - intuition.
  - rewrite IH.
    destruct (String.eqb t Private || String.eqb t (Namespace (Attributes x))).
    + rewrite inBuckets_addPrivateService. intuition congruence.
    + rewrite inBuckets_addExportedService. intuition congruence.
Qed.

Lemma exportTargets_nonempty (x : Service) :
  Nat.eqb (size (ExportTo (Attributes x))) 0 = false -> exportTargets x <> [].
Proof.
  intros Hsize Hnil. apply Nat.eqb_neq in Hsize. apply Hsize.
  unfold exportTargets in Hnil. apply fmap_nil_inv in Hnil.
  apply map_to_list_empty_iff in Hnil. rewrite Hnil. apply map_size_empty.
Qed.

Lemma defaultServiceExportTo_registerService (ps : PushContext) (x : Service) :
  defaultServiceExportTo (registerService ps x) = defaultServiceExportTo ps.
Proof.
  unfold registerService.
  assert (forall targets ps0,
             defaultServiceExportTo
               (foldl (fun ps exportTo =>
                         if String.eqb exportTo Private
                            || String.eqb exportTo (Namespace (Attributes x))
                         then addPrivateService (Namespace (Attributes x)) x ps
                         else addExportedService exportTo x ps) ps0 targets)
             = defaultServiceExportTo ps0) as Hfold.
  { induction targets as [|t targets IH]; intros ps0; simpl; [done|].
    rewrite IH. by destruct (_ || _). }
  repeat match goal with |- context [if ?b then _ else _] => destruct b end;
    simpl; rewrite ?Hfold; reflexivity.
Qed.

(** One turn of the loop of [initServiceRegistry]: the service enters a
    bucket exactly when it is exported somewhere. *)
Lemma inBuckets_registerService (ps : PushContext) (x : Service) (s : Service) :
  inBuckets (registerService ps x) s
  <-> inBuckets ps s \/ (s = x /\ exportedSomewhere (defaultServiceExportTo ps) x = true).
Proof.
  unfold registerService, exportedSomewhere.
  destruct (Nat.eqb (size (ExportTo (Attributes x))) 0) eqn:Hsize.
  - rewrite inBuckets_indexByHostname.
    destruct (exported (defaultServiceExportTo ps) Private); simpl.
    + rewrite inBuckets_addPrivateService. intuition.
    + destruct (exported (defaultServiceExportTo ps) Public); simpl.
      * rewrite inBuckets_addPublicService. intuition.
      * intuition congruence.
  - destruct (exported (ExportTo (Attributes x)) Public); simpl.
    + rewrite inBuckets_addPublicService. intuition.
    + destruct (exported (ExportTo (Attributes x)) None_); simpl.
      * intuition congruence.
      * rewrite inBuckets_indexByHostname, inBuckets_exportTargets.
        pose proof (exportTargets_nonempty x Hsize). intuition.
Qed.

Lemma inBuckets_foldl_registerService (l : list Service) (ps : PushContext) (s : Service) :
  inBuckets (foldl registerService ps l) s
  <-> inBuckets ps s
      \/ (s ∈ l /\ exportedSomewhere (defaultServiceExportTo ps) s = true).
Proof.
  revert ps. induction l as [|x l IH]; intros ps; simpl.
  - rewrite elem_of_nil. tauto.
  - rewrite IH, inBuckets_registerService, defaultServiceExportTo_registerService,
      elem_of_cons.
    split; [intros [[?|[-> ?]]|[? ?]] | intros [?|[[->|?] ?]]]; auto.
Qed.

Lemma inBuckets_initServiceAccounts (env : Environment) (l : list Service)
    (ps : PushContext) (s : Service) :
  inBuckets (initServiceAccounts env l ps) s <-> inBuckets ps s.
Proof.
  unfold initServiceAccounts. revert ps.
  induction l as [|x l IH]; intros ps; simpl; [done|]. by rewrite IH.
Qed.

(** The buckets after [initServiceRegistry], whatever they held before. *)
Lemma inBuckets_initServiceRegistry (env : Environment) (services : list Service)
    (ps : PushContext) (s : Service) :
  envServices env = inr services ->
  (initServiceRegistry env ps).2 = None
  /\ (inBuckets (initServiceRegistry env ps).1 s
      <-> inBuckets ps s
          \/ (s ∈ services /\ exportedSomewhere (defaultServiceExportTo ps) s = true)).
Proof.
  intros Hstore. unfold initServiceRegistry. rewrite Hstore. simpl.
  split; [done|].
  rewrite inBuckets_initServiceAccounts, inBuckets_foldl_registerService.
  by rewrite (sortServicesByCreationTime_Permutation services).
Qed.

Lemma emptyBuckets_not_in (ps : PushContext) (s : Service) :
  emptyBuckets ps -> ~ inBuckets ps s.
Proof.
  intros (Hpub & Hpriv & Hexp) [H|[H|H]].
  - rewrite Hpub in H. by apply elem_of_nil in H.
  - rewrite Hpriv in H. by apply inMap_empty in H.
  - rewrite Hexp in H. by apply inMap_empty in H.
Qed.

(** C6, as the code has it: when the service registry of a snapshot with
    empty buckets is initialized from the service list of the store, the
    union of [publicServices], the values of [privateServicesByNamespace]
    and the values of [servicesExportedToNamespace] is the set of the
    services of the store that are exported somewhere; a service whose
    exportTo contains none and not public is in none of the three. *)
Theorem initServiceRegistry_buckets (env : Environment) (services : list Service)
    (ps : PushContext) :
  emptyBuckets ps ->
  envServices env = inr services ->
  exists ps',
    initServiceRegistry env ps = (ps', None)
    /\ (forall s, inBuckets ps' s
                  <-> s ∈ services
                      /\ exportedSomewhere (defaultServiceExportTo ps) s = true)
    /\ (forall s, s ∈ services ->
                  exported (ExportTo (Attributes s)) None_ = true ->
                  exported (ExportTo (Attributes s)) Public = false ->
                  ~ inBuckets ps' s).
Proof.
  intros Hempty Hstore.
  exists (initServiceRegistry env ps).1.
  assert (forall s, inBuckets (initServiceRegistry env ps).1 s
                    <-> s ∈ services
                        /\ exportedSomewhere (defaultServiceExportTo ps) s = true) as Hin.
  { intros s.
    destruct (inBuckets_initServiceRegistry env services ps s Hstore) as [_ ->].
    pose proof (emptyBuckets_not_in ps s Hempty). tauto. }
  split; [|split; [exact Hin|]].
  - destruct (inBuckets_initServiceRegistry env services ps svcNone Hstore) as [Herr _].
    destruct (initServiceRegistry env ps) as [ps' err]. simpl in Herr. by subst.
  - intros s _ Hnone Hpub Hs. apply Hin in Hs as [_ Hs].
    unfold exportedSomewhere in Hs. rewrite Hnone, Hpub in Hs.
    destruct (Nat.eqb (size (ExportTo (Attributes s))) 0) eqn:Hsize; [|done].
    apply Nat.eqb_eq, map_size_empty_iff in Hsize.
    unfold exported in Hnone. rewrite Hsize, lookup_empty in Hnone. done.
Qed.

Lemma initServiceRegistry_buckets_witness :
  exists ps',
    initServiceRegistry store0 (initDefaultExportMaps freshContext) = (ps', None)
    /\ (forall s, inBuckets ps' s
                  <-> s ∈ [svcDefault; svcPublic; svcPrivate; svcToOther; svcNone]
                      /\ exportedSomewhere
                           (defaultServiceExportTo (initDefaultExportMaps freshContext)) s
                         = true)
    /\ (forall s, s ∈ [svcDefault; svcPublic; svcPrivate; svcToOther; svcNone] ->
                  exported (ExportTo (Attributes s)) None_ = true ->
                  exported (ExportTo (Attributes s)) Public = false ->
                  ~ inBuckets ps' s).
Proof.
  apply (initServiceRegistry_buckets store0
           [svcDefault; svcPublic; svcPrivate; svcToOther; svcNone]
           (initDefaultExportMaps freshContext)).
  - repeat split; reflexivity.
  - reflexivity.
Defined.

(** C6 as the specification words it fails on a store with a service
    exported to none and a service exported to public and none: the first
    is in the store and in no bucket, so the union is not the store's list;
    the second has none in its exportTo and is in the public bucket. *)
Lemma bucketsPartitionStore_counterexample :
  let store := [svcNone; svcPublicAndNone] in
  let ps := initDefaultExportMaps freshContext in
  let ps' := (initServiceRegistry (storeOf store) ps).1 in
  emptyBuckets ps
  /\ envServices (storeOf store) = inr store
  /\ (svcNone ∈ store /\ ~ inBuckets ps' svcNone)
  /\ (svcPublicAndNone ∈ store
      /\ exported (ExportTo (Attributes svcPublicAndNone)) None_ = true
      /\ inBuckets ps' svcPublicAndNone)
  /\ ~ (forall s, inBuckets ps' s <-> s ∈ store)
  /\ ~ bucketsPartitionStore ps' store.
Proof.
  intros store ps ps'.
  assert (emptyBuckets ps) as Hempty by (repeat split; reflexivity).
  assert (forall s, inBuckets ps' s
                    <-> s ∈ store
                        /\ exportedSomewhere (defaultServiceExportTo ps) s = true) as Hin.
  { intros s. unfold ps'.
    destruct (inBuckets_initServiceRegistry (storeOf store) store ps s eq_refl) as [_ ->].
    pose proof (emptyBuckets_not_in ps s Hempty). tauto. }
  assert (svcNone ∈ store) as HnoneIn by (apply list_elem_of_In; simpl; tauto).
  assert (svcPublicAndNone ∈ store) as HbothIn by (apply list_elem_of_In; simpl; tauto).
  assert (~ inBuckets ps' svcNone) as Hnone.
  { intros H. apply Hin in H as [_ H]. vm_compute in H. discriminate. }
  assert (inBuckets ps' svcPublicAndNone) as Hboth.
  { apply Hin. split; [exact HbothIn | reflexivity]. }
  repeat split; try done.
  - intros Hall. apply Hnone, Hall, HnoneIn.
  - intros [Hall _]. apply Hnone, Hall, HnoneIn.
Qed.

(** *** Full and incremental builds *)

Ltac in_log :=
  repeat (rewrite elem_of_app || rewrite elem_of_cons || rewrite elem_of_nil).

Lemma andThen_ext (p p' q q' : Step) :
  (forall st, p st = p' st) -> (forall st, q st = q' st) ->
  forall st, andThen p q st = andThen p' q' st.
Proof.
  intros Hp Hq st. unfold andThen. rewrite Hp.
  destruct (p' st) as [st' [e|]]; [done | apply Hq].
Qed.

Lemma andThen_nil (p : Step) (st : State) : andThen p (stages []) st = p st.
Proof. unfold andThen. simpl. by destruct (p st) as [st' [e|]]. Qed.

Lemma stages_cons (s : Stage) (l : list Stage) (st : State) :
  stages (s :: l) st =
    match s.2 (ctx st) with
    | (ps, Some err) =>
        ({| ctx := ps;
            calls := match s.1 with Some c => calls st ++ [c] | None => calls st end |},
         Some err)
    | (ps, None) =>
        stages l {| ctx := ps;
                    calls := match s.1 with Some c => calls st ++ [c] | None => calls st end |}
    end.
Proof.
  simpl. unfold andThen, stage. by destruct (s.2 (ctx st)) as [ps [e|]].
Qed.

(** The log of a list of stages: the calls of the stages that ran, which
    are all of them when no error is returned. *)
Lemma stages_calls (l : list Stage) (st : State) :
  exists n,
    (n <= length l)%nat
    /\ (l <> [] -> 1 <= n)%nat
    /\ calls (stages l st).1 = calls st ++ omap fst (take n l)
    /\ ((stages l st).2 = None -> n = length l).
Proof.
  revert st. induction l as [|s l IH]; intros st.
  - exists 0%nat. simpl. rewrite app_nil_r. repeat split; done.
  - rewrite stages_cons. destruct s as [log f]. simpl.
    destruct (f (ctx st)) as [ps [e|]]; simpl.
    + exists 1%nat. simpl. repeat split; try done; try lia.
      by destruct log; simpl; rewrite ?app_nil_r.
    + destruct (IH {| ctx := ps;
                      calls := match log with Some c => calls st ++ [c] | None => calls st end |})
        as (n & Hn & _ & Hcalls & Herr).
      exists (S n). simpl. repeat split; try lia.
      * rewrite Hcalls. simpl. destruct log; simpl; [|done].
        by rewrite <- app_assoc.
      * intros H. by rewrite (Herr H).
Qed.

Section Engine.

Variable helpers : Helpers.
Variable env : Environment.

Lemma createNewContext_stages (st : State) :
  createNewContext helpers env st =
    stages ((Some CallCreateNewContext, fun ps => (ps, None))
              :: map (fun c => (Some (passOf c), initPass helpers env c)) classOrder) st.
Proof.
  unfold createNewContext, classOrder. cbn [map stages].
  repeat (apply andThen_ext; [reflexivity | clear st; intros st]).
  by rewrite andThen_nil.
Qed.

Lemma updateStage_if (old : PushContext) (ch : Changed) (c : IndexClass) (st : State) :
  stage (updateStage helpers env old ch c) st =
    (if rebuildFlag ch c then call (passOf c) (initPass helpers env c)
     else assign (copyIndex old c)) st.
Proof. unfold updateStage. by destruct (rebuildFlag ch c). Qed.

Lemma updateContext_stages (old : PushContext) (req : PushRequest) (st : State) :
  updateContext helpers env old req st =
    andThen (enter CallUpdateContext)
      (stages (map (updateStage helpers env old (changedBy req)) classOrder)) st.
Proof.
  unfold updateContext, classOrder. cbn [map stages].
  apply andThen_ext; [reflexivity | clear st; intros st].
  repeat (apply andThen_ext; [intros; symmetry; apply updateStage_if | clear st; intros st]).
  rewrite andThen_nil. symmetry. apply updateStage_if.
Qed.

Lemma passes_calls (f : IndexClass -> Pass) (cs : list IndexClass) (n : nat) :
  omap fst (take n (map (fun c => (Some (passOf c), f c)) cs)) = take n (map passOf cs).
Proof.
  revert n. induction cs as [|c cs IH]; intros [|n]; simpl; try done.
  by rewrite IH.
Qed.

Lemma updateStage_calls (old : PushContext) (ch : Changed) (cs : list IndexClass)
    (n : nat) (x : Call) :
  x ∈ omap fst (take n (map (updateStage helpers env old ch) cs)) ->
  exists c, c ∈ cs /\ x = passOf c /\ rebuildFlag ch c = true.
Proof.
  revert n. induction cs as [|c cs IH]; intros [|n]; simpl; try (by intros H; inversion H).
  unfold updateStage at 1. destruct (rebuildFlag ch c) eqn:Hc; simpl.
  - rewrite elem_of_cons. intros [->|H].
    + exists c. split; [left|done].
    + destruct (IH n H) as (c' & ? & ? & ?). exists c'. split; [by right|done].
  - intros H. destruct (IH n H) as (c' & ? & ? & ?). exists c'. split; [by right|done].
Qed.

Lemma updateStage_calls_all (old : PushContext) (ch : Changed) (cs : list IndexClass)
    (c : IndexClass) :
  c ∈ cs -> rebuildFlag ch c = true ->
  passOf c ∈ omap fst (map (updateStage helpers env old ch) cs).
Proof.
  intros Hin Hc. induction cs as [|k cs IH]; [by inversion Hin|].
  simpl. apply elem_of_cons in Hin as [<-|Hin].
  - unfold updateStage at 1. rewrite Hc. simpl. left.
  - unfold updateStage at 1. destruct (rebuildFlag ch k); simpl; [right|]; by apply IH.
Qed.

Lemma passOf_inj (c k : IndexClass) : passOf c = passOf k -> c = k.
Proof. by destruct c, k. Qed.

Lemma InitContext_unfold (old : option PushContext) (req : option PushRequest)
    (st : State) :
  initDone (ctx st) = false ->
  InitContext helpers env old req st =
    match createOrUpdate helpers env old req
            {| ctx := initDefaultExportMaps
                        (setEnvironment (envMesh env) (envNetworks env) (Some env) (Some env)
                           (envVersion env) (ctx st));
               calls := calls st ++ [CallInitDefaultExportMaps] |} with
    | (st2, Some err) => (st2, Some err)
    | (st2, None) =>
        ({| ctx := set_initDone true
                     (initClusterLocalHosts helpers env (initMeshNetworks helpers (ctx st2)));
            calls := (calls st2 ++ [CallInitMeshNetworks]) ++ [CallInitClusterLocalHosts] |},
         None)
    end.
Proof.
  intros Hinit. unfold InitContext. rewrite Hinit.
  unfold andThen at 1. unfold assign at 1.
  unfold andThen at 1. unfold call at 1. cbn [ctx calls].
  unfold andThen at 1.
  destruct (createOrUpdate helpers env old req _) as [st2 [e|]]; [done|].
  reflexivity.
Qed.

Lemma fullBuildRequired_test (old : option PushContext) (req : option PushRequest) :
  fullBuildRequired old req <->
  match req, old with
  | Some r, Some o => negb (initDone o) || Nat.eqb (size (ConfigsUpdated r)) 0 = true
  | _, _ => True
  end.
Proof.
  unfold fullBuildRequired. destruct req as [r|], old as [o|]; try (split; auto; fail).
  rewrite orb_true_iff, negb_true_iff, Nat.eqb_eq.
  split.
  - intros [H|[H|[(o' & [= <-] & H)|(r' & [= <-] & H)]]]; try done; [by left|].
    right. rewrite H. apply size_empty.
  - intros [H|H]; [right; right; left; by exists o|].
    right; right; right. exists r. split; [done|].
    unfold_leibniz. by apply size_empty_iff.
Qed.

Lemma take_fullBuildOrder_no_entry (n : nat) (x : Call) :
  x ∈ take n fullBuildOrder -> x <> CallCreateNewContext /\ x <> CallUpdateContext.
Proof.
  intros H. apply (subseteq_take n fullBuildOrder) in H. apply list_elem_of_In in H.
  simpl in H. intuition (subst; discriminate).
Qed.

(** The log of [createNewContext]: its own entry, then the init passes in
    the fixed order, up to the first that fails. *)
Lemma createNewContext_calls (st : State) :
  exists n,
    (1 <= n <= 8)%nat
    /\ calls (createNewContext helpers env st).1
       = calls st ++ CallCreateNewContext :: take n fullBuildOrder
    /\ ((createNewContext helpers env st).2 = None -> n = 8%nat).
Proof.
  rewrite createNewContext_stages, stages_cons. cbn [fst snd ctx calls].
  destruct (stages_calls
              (map (fun c => (Some (passOf c), initPass helpers env c)) classOrder)
              {| ctx := ctx st; calls := calls st ++ [CallCreateNewContext] |})
    as (n & Hn & Hpos & Hcalls & Herr).
  exists n. split; [|split].
  - split; [by apply Hpos | exact Hn].
  - rewrite Hcalls, passes_calls. cbn [calls]. by rewrite <- app_assoc.
  - exact Herr.
Qed.

(** The log of [updateContext]: its own entry, then passes of classes whose
    flag is set. *)
Lemma updateContext_calls (old : PushContext) (req : PushRequest) (st : State) :
  exists n,
    (n <= 8)%nat
    /\ calls (updateContext helpers env old req st).1
       = calls st ++ CallUpdateContext
           :: omap fst (take n (map (updateStage helpers env old (changedBy req)) classOrder))
    /\ ((updateContext helpers env old req st).2 = None -> n = 8%nat).
Proof.
  rewrite updateContext_stages. unfold andThen, enter. cbn [ctx calls].
  destruct (stages_calls
              (map (updateStage helpers env old (changedBy req)) classOrder)
              {| ctx := ctx st; calls := calls st ++ [CallUpdateContext] |})
    as (n & Hn & _ & Hcalls & Herr).
  exists n. split; [exact Hn|]. split; [|exact Herr].
  rewrite Hcalls. cbn [calls]. by rewrite <- app_assoc.
Qed.

(** C4: on a snapshot that is not initialized yet, [InitContext] performs a
    full build, that is [createNewContext], exactly when the request is nil,
    the old snapshot is nil or not initialized, or the request names no
    config, and takes [updateContext] otherwise. A full build runs the init
    passes in the fixed order service registry, virtual services,
    destination rules, authn, authz, envoy filters, gateways, sidecar scopes,
    up to the first pass that fails; with no failure all eight run, sidecar
    scopes last, and the snapshot is marked initialized. *)
Theorem InitContext_full_build (old : option PushContext) (req : option PushRequest)
    (ps : PushContext) :
  initDone ps = false ->
  let '(st', err) := run (InitContext helpers env old req) ps in
  (CallCreateNewContext ∈ calls st' <-> fullBuildRequired old req)
  /\ (CallUpdateContext ∈ calls st' <-> ~ fullBuildRequired old req)
  /\ (fullBuildRequired old req ->
      exists n,
        (1 <= n <= 8)%nat
        /\ calls st'
           = [CallInitDefaultExportMaps; CallCreateNewContext]
               ++ take n fullBuildOrder
               ++ match err with
                  | Some _ => []
                  | None => [CallInitMeshNetworks; CallInitClusterLocalHosts]
                  end
        /\ (err = None -> n = 8%nat /\ initDone (ctx st') = true)).
Proof.
  intros Hinit. unfold run. rewrite InitContext_unfold by exact Hinit.
  cbn [ctx calls app].
  set (st1 := {| ctx := _; calls := [CallInitDefaultExportMaps] |}).
  pose proof (fullBuildRequired_test old req) as Htest.
  assert (createOrUpdate helpers env old req st1 = createNewContext helpers env st1
          /\ fullBuildRequired old req
          \/ (exists o r, createOrUpdate helpers env old req st1
                          = updateContext helpers env o r st1)
             /\ ~ fullBuildRequired old req) as [[-> Hfull]|[(o & r & ->) Hfull]].
  { unfold createOrUpdate.
    destruct req as [r|], old as [o|]; try (left; split; [done | by apply Htest]).
    destruct (negb (initDone o) || Nat.eqb (size (ConfigsUpdated r)) 0) eqn:Hb.
    - left. split; [done | by apply Htest].
    - right. split; [by exists o, r|].
      intros H. apply Htest in H. discriminate. }
  - destruct (createNewContext_calls st1) as (n & Hn & Hcalls & Herr).
    assert (CallUpdateContext ∉ take n fullBuildOrder) as Hno
      by (intros H; by apply take_fullBuildOrder_no_entry in H as [_ ?]).
    destruct (createNewContext helpers env st1) as [st2 [e|]];
      cbn [fst snd calls ctx] in *; subst st1; cbn [calls] in Hcalls;
      rewrite Hcalls; (split; [|split]).
    + split; [done|]. intros _. in_log. auto.
    + split; [|done]. in_log. intuition discriminate.
    + intros _. exists n. rewrite app_nil_r. repeat split; try done; lia.
    + split; [done|]. intros _. in_log. auto.
    + split; [|done]. in_log. intuition discriminate.
    + intros _. exists n. rewrite <- !app_assoc. repeat split; try done; try lia.
      by apply Herr.
  - destruct (updateContext_calls o r st1) as (n & Hn & Hcalls & Herr).
    assert (CallCreateNewContext ∉
              omap fst (take n (map (updateStage helpers env o (changedBy r)) classOrder)))
      as Hno.
    { intros H. apply updateStage_calls in H as (c & _ & Hc & _). by destruct c. }
    destruct (updateContext helpers env o r st1) as [st2 [e|]];
      cbn [fst snd calls ctx] in *; subst st1; cbn [calls] in Hcalls;
      rewrite Hcalls; (split; [|split]; [| |done]).
    + split; [|done]. in_log. intuition discriminate.
    + split; [done|]. intros _. in_log. auto.
    + split; [|done]. in_log. intuition discriminate.
    + split; [done|]. intros _. in_log. auto.
Qed.

(** *** What a stage leaves alone *)

Lemma sameIndex_refl (c : IndexClass) (ps : PushContext) : sameIndex c ps ps.
Proof. destruct c; simpl; repeat split. Qed.

Lemma sameIndex_trans (c : IndexClass) (ps1 ps2 ps3 : PushContext) :
  sameIndex c ps1 ps2 -> sameIndex c ps2 ps3 -> sameIndex c ps1 ps3.
Proof. destruct c; simpl; intuition congruence. Qed.

Lemma otherIndices_sameIndex (c : IndexClass) (ps ps' : PushContext) :
  c <> ServiceIndex -> otherIndices ps = otherIndices ps' -> sameIndex c ps ps'.
Proof.
  intros Hc H. unfold otherIndices in H. injection H as ? ? ? ? ? ? ? ? ? ? ? ?.
  destruct c; simpl; try done.
Qed.

Lemma otherIndices_exportTargets (x : Service) (targets : list string) (ps : PushContext) :
  otherIndices
    (foldl (fun ps exportTo =>
              if String.eqb exportTo Private || String.eqb exportTo (Namespace (Attributes x))
              then addPrivateService (Namespace (Attributes x)) x ps
              else addExportedService exportTo x ps)
           ps targets)
  = otherIndices ps.
Proof.
  revert ps. induction targets as [|t targets IH]; intros ps; simpl; [done|].
  rewrite IH. by destruct (_ || _).
Qed.

Lemma otherIndices_registerService (ps : PushContext) (x : Service) :
  otherIndices (registerService ps x) = otherIndices ps.
Proof.
  unfold registerService.
  repeat match goal with |- context [if ?b then _ else _] => destruct b end;
    try reflexivity.
  change (otherIndices (indexByHostname x ?p)) with (otherIndices p).
  apply otherIndices_exportTargets.
Qed.

Lemma otherIndices_initServiceRegistry (ps : PushContext) :
  otherIndices (initServiceRegistry env ps).1 = otherIndices ps.
Proof.
  unfold initServiceRegistry. destruct (envServices env) as [err|services]; simpl; [done|].
  assert (forall l ps0, otherIndices (initServiceAccounts env l ps0) = otherIndices ps0) as Hacc.
  { unfold initServiceAccounts. induction l as [|x l IH]; intros ps0; simpl; [done|].
    by rewrite IH. }
  assert (forall l ps0, otherIndices (foldl registerService ps0 l) = otherIndices ps0) as Hreg.
  { induction l as [|x l IH]; intros ps0; simpl; [done|].
    by rewrite IH, otherIndices_registerService. }
  by rewrite Hacc, Hreg.
Qed.

(** An init pass writes the fields of its own class only. *)
Lemma initPass_frame (c k : IndexClass) (ps : PushContext) :
  c <> k -> sameIndex c (initPass helpers env k ps).1 ps.
Proof.
  intros Hck. destruct k; cbn [initPass].
  - apply otherIndices_sameIndex; [done | apply otherIndices_initServiceRegistry].
  - unfold initVirtualServices.
    destruct (envList env VirtualService); [|destruct (indexVirtualServices _ _ _) as [[? ?] ?]];
      destruct c; try done; simpl; repeat split.
  - unfold initDestinationRules, SetDestinationRules.
    destruct (envList env DestinationRuleKind);
      [|destruct (processDestinationRules _ _ _) as [[? ?] ?]];
      destruct c; try done; simpl; repeat split.
  - unfold initAuthnPolicies. destruct (initAuthenticationPolicies _ _).
    destruct c; try done; simpl; repeat split.
  - unfold initAuthorizationPolicies. destruct (GetAuthorizationPolicies _ _).
    destruct c; try done; simpl; repeat split.
  - unfold initEnvoyFilters. destruct (envList env EnvoyFilter);
      destruct c; try done; simpl; repeat split.
  - unfold initGateways. destruct (envList env GatewayKind);
      destruct c; try done; simpl; repeat split.
  - unfold initSidecarScopes. destruct (envList env Sidecar);
      destruct c; try done; simpl; repeat split.
Qed.

(** A copy writes the fields of its own class only, and makes them the ones
    of the old snapshot. *)
Lemma copyIndex_frame (c k : IndexClass) (old ps : PushContext) :
  c <> k -> sameIndex c (copyIndex old k ps) ps.
Proof. intros Hck. destruct c, k; try done; simpl; repeat split. Qed.

Lemma copyIndex_same (k : IndexClass) (old ps : PushContext) :
  sameIndex k (copyIndex old k ps) old.
Proof. destruct k; simpl; repeat split. Qed.

Lemma updateStage_frame (old : PushContext) (ch : Changed) (c k : IndexClass)
    (ps : PushContext) :
  c <> k -> sameIndex c ((updateStage helpers env old ch k).2 ps).1 ps.
Proof.
  intros Hck. unfold updateStage. destruct (rebuildFlag ch k); simpl.
  - by apply initPass_frame.
  - by apply copyIndex_frame.
Qed.

Lemma updateStages_frame (old : PushContext) (ch : Changed) (cs : list IndexClass)
    (c : IndexClass) (st : State) :
  c ∉ cs ->
  sameIndex c (ctx (stages (map (updateStage helpers env old ch) cs) st).1) (ctx st).
Proof.
  revert st. induction cs as [|k cs IH]; intros st Hc; [apply sameIndex_refl|].
  apply not_elem_of_cons in Hc as [Hck Hc].
  cbn [map]. rewrite stages_cons.
  pose proof (updateStage_frame old ch c k (ctx st) Hck) as Hk.
  destruct ((updateStage helpers env old ch k).2 (ctx st)) as [ps [e|]]; simpl in *; [done|].
  eapply sameIndex_trans; [apply IH; exact Hc | exact Hk].
Qed.

(** When the stages end without error, every class whose flag is not set
    has the fields of the old snapshot. *)
Lemma updateStages_copied (old : PushContext) (ch : Changed) (cs : list IndexClass)
    (st : State) (c : IndexClass) :
  NoDup cs ->
  (stages (map (updateStage helpers env old ch) cs) st).2 = None ->
  c ∈ cs -> rebuildFlag ch c = false ->
  sameIndex c (ctx (stages (map (updateStage helpers env old ch) cs) st).1) old.
Proof.
  intros Hnd. revert st. induction Hnd as [|k cs Hk Hnd IH]; intros st Herr Hc Hflag.
  - by inversion Hc.
  - cbn [map] in *. rewrite stages_cons in *.
    destruct ((updateStage helpers env old ch k).2 (ctx st)) as [ps [e|]] eqn:Hstage;
      [done|].
    apply elem_of_cons in Hc as [->|Hc].
    + eapply sameIndex_trans; [by apply updateStages_frame|]. cbn [ctx].
      unfold updateStage in Hstage. rewrite Hflag in Hstage. simpl in Hstage.
      injection Hstage as <-. apply copyIndex_same.
    + by apply IH.
Qed.

(** *** The flags and the kinds of the request *)

Lemma markChanged_flag (ch : Changed) (conf : ConfigKey) (c : IndexClass) :
  changedFlag (markChanged ch conf) c = changedFlag ch c || marks (Kind conf) c.
Proof.
  unfold markChanged.
  destruct c, (Kind conf); simpl; rewrite ?orb_true_r, ?orb_false_r; reflexivity.
Qed.

Lemma foldl_markChanged_flag (l : list ConfigKey) (ch : Changed) (c : IndexClass) :
  changedFlag (foldl markChanged ch l) c
  = changedFlag ch c || existsb (fun conf => marks (Kind conf) c) l.
Proof.
  revert ch. induction l as [|conf l IH]; intros ch; simpl.
  - by rewrite orb_false_r.
  - by rewrite IH, markChanged_flag, orb_assoc.
Qed.

Lemma changedFlag_marked (req : PushRequest) (c : IndexClass) :
  changedFlag (changedBy req) c = true <-> marked req c.
Proof.
  unfold changedBy, marked. rewrite foldl_markChanged_flag.
  assert (changedFlag noneChanged c = false) as -> by (by destruct c).
  rewrite orb_false_l, existsb_exists.
  split; intros (conf & Hin & Hm); exists conf; split; try done.
  - by apply elem_of_elements, list_elem_of_In.
  - by apply list_elem_of_In, elem_of_elements.
Qed.

Lemma rebuildFlag_mustRebuild (req : PushRequest) (c : IndexClass) :
  rebuildFlag (changedBy req) c = true <-> mustRebuild req c.
Proof.
  destruct c; cbn [rebuildFlag mustRebuild];
    try (rewrite <- changedFlag_marked; reflexivity).
  rewrite !orb_true_iff.
  rewrite <- (changedFlag_marked req ServiceIndex),
          <- (changedFlag_marked req VirtualServiceIndex),
          <- (changedFlag_marked req DestinationRuleIndex),
          <- (changedFlag_marked req SidecarIndex).
  cbn [changedFlag]. tauto.
Qed.

Lemma NoDup_classOrder : NoDup classOrder.
Proof.
  unfold classOrder. repeat (apply NoDup_cons; split; [in_log; intuition discriminate|]).
  apply NoDup_nil_2.
Qed.

Lemma elem_of_classOrder (c : IndexClass) : c ∈ classOrder.
Proof. unfold classOrder. destruct c; in_log; auto 10. Qed.

(** C5: in an incremental build, the pass of a class runs only when the
    request contains a kind that marks the class as changed, for sidecar
    scopes a kind that marks services, virtual services, destination rules
    or sidecars. When the build ends without error the passes that ran are
    exactly those: sidecar scopes are re-initialized exactly when services,
    virtual services, destination rules or sidecars are marked, and their
    map is the one of the old snapshot otherwise; and every class whose
    kinds are absent from the request has the fields of the old snapshot. *)
Theorem updateContext_incremental (old : PushContext) (req : PushRequest)
    (ps : PushContext) :
  let '(st', err) := run (updateContext helpers env old req) ps in
  (forall c, passOf c ∈ calls st' -> mustRebuild req c)
  /\ (err = None ->
      (CallInitSidecarScopes ∈ calls st'
       <-> marked req ServiceIndex \/ marked req VirtualServiceIndex
           \/ marked req DestinationRuleIndex \/ marked req SidecarIndex)
      /\ (~ mustRebuild req SidecarIndex ->
          sidecarsByNamespace (ctx st') = sidecarsByNamespace old)
      /\ (forall c, passOf c ∈ calls st' <-> mustRebuild req c)
      /\ (forall c, ~ mustRebuild req c -> sameIndex c (ctx st') old)).
Proof.
  unfold run.
  destruct (updateContext_calls old req {| ctx := ps; calls := [] |})
    as (n & Hn & Hcalls & Herr).
  pose proof (updateContext_stages old req {| ctx := ps; calls := [] |}) as Hstages.
  unfold andThen, enter in Hstages. cbn [ctx calls app] in Hstages, Hcalls.
  assert (forall c, passOf c ∈ calls (updateContext helpers env old req
                                        {| ctx := ps; calls := [] |}).1 ->
                    mustRebuild req c) as Honly.
  { intros c. rewrite Hcalls. rewrite elem_of_cons. intros [H|H]; [by destruct c|].
    apply updateStage_calls in H as (k & _ & Hk & Hflag).
    apply passOf_inj in Hk as ->. by apply rebuildFlag_mustRebuild. }
  destruct (updateContext helpers env old req {| ctx := ps; calls := [] |})
    as [st' err] eqn:Hrun.
  cbn [fst snd] in *. split; [exact Honly|].
  intros ->. specialize (Herr eq_refl) as ->.
  assert (forall c, passOf c ∈ calls st' <-> mustRebuild req c) as Hiff.
  { intros c. split; [apply Honly|]. intros Hc.
    rewrite Hcalls, firstn_all2 by (rewrite length_map; reflexivity).
    right. apply updateStage_calls_all; [apply elem_of_classOrder|].
    by apply rebuildFlag_mustRebuild. }
  assert (forall c, ~ mustRebuild req c -> sameIndex c (ctx st') old) as Hcopy.
  { intros c Hc.
    assert (rebuildFlag (changedBy req) c = false) as Hflag.
    { destruct (rebuildFlag (changedBy req) c) eqn:E; [|done].
      by apply rebuildFlag_mustRebuild in E. }
    pose proof (updateStages_copied old (changedBy req) classOrder
                  {| ctx := ps; calls := [CallUpdateContext] |} c NoDup_classOrder) as H.
    rewrite <- Hstages in H. cbn [fst snd] in H.
    apply H; [done | apply elem_of_classOrder | exact Hflag]. }
  split; [exact (Hiff SidecarIndex)|]. split; [exact (Hcopy SidecarIndex)|].
  split; [exact Hiff | exact Hcopy].
Qed.

End Engine.

Lemma InitContext_full_build_witness :
  let '(st', err) := run (InitContext helpers0 store0 None None) freshContext in
  (CallCreateNewContext ∈ calls st' <-> fullBuildRequired None None)
  /\ (CallUpdateContext ∈ calls st' <-> ~ fullBuildRequired None None)
  /\ (fullBuildRequired None None ->
      exists n,
        (1 <= n <= 8)%nat
        /\ calls st'
           = [CallInitDefaultExportMaps; CallCreateNewContext]
               ++ take n fullBuildOrder
               ++ match err with
                  | Some _ => []
                  | None => [CallInitMeshNetworks; CallInitClusterLocalHosts]
                  end
        /\ (err = None -> n = 8%nat /\ initDone (ctx st') = true)).
Proof.
  apply (InitContext_full_build helpers0 store0 None None freshContext).
  reflexivity.
Defined.

Lemma updateContext_incremental_witness :
  let '(st', err) :=
    run (updateContext helpers0 store0 firstContext virtualServiceUpdate) freshContext in
  err = None
  /\ calls st' = [CallUpdateContext; CallInitVirtualServices; CallInitSidecarScopes]
  /\ (CallInitSidecarScopes ∈ calls st'
      <-> marked virtualServiceUpdate ServiceIndex
          \/ marked virtualServiceUpdate VirtualServiceIndex
          \/ marked virtualServiceUpdate DestinationRuleIndex
          \/ marked virtualServiceUpdate SidecarIndex)
  /\ (forall c, ~ mustRebuild virtualServiceUpdate c -> sameIndex c (ctx st') firstContext).
Proof.
  pose proof (updateContext_incremental helpers0 store0 firstContext virtualServiceUpdate
                freshContext) as H.
  destruct (run (updateContext helpers0 store0 firstContext virtualServiceUpdate)
              freshContext) as [st' err] eqn:Hrun.
  assert (err = None /\ calls st' = [CallUpdateContext; CallInitVirtualServices;
                                     CallInitSidecarScopes]) as [Herr Hcalls].
  { change err with (st', err).2. change st' with (st', err).1 at 2.
    rewrite <- Hrun. split; vm_compute; reflexivity. }
  destruct H as [_ H]. destruct (H Herr) as (Hsc & _ & _ & Hcopy).
  split; [exact Herr|]. split; [exact Hcalls|]. split; [exact Hsc | exact Hcopy].
Defined.

End BuildSpec.

(** ** Status reconciliation *)

Module StatusSpec.
Import Status StatusContract Examples.

Lemma findReconciled_snoc (conditions : list IstioCondition) (c : IstioCondition) :
  findReconciled (conditions ++ [c]) =
    if String.eqb (Type_ c) "Reconciled" then Some (length conditions, c)
    else findReconciled conditions.
Proof.
  unfold findReconciled. rewrite imap_app, foldl_app. simpl.
  by rewrite Nat.add_0_r.
Qed.

Lemma reconciledCondition_snoc (conditions : list IstioCondition) (c : IstioCondition) :
  reconciledCondition (conditions ++ [c]) =
    if String.eqb (Type_ c) "Reconciled" then Some c
    else reconciledCondition conditions.
Proof.
  unfold reconciledCondition. rewrite filter_app.
  destruct (String.eqb_spec (Type_ c) "Reconciled") as [Hc|Hc].
  - rewrite filter_cons_True by done. simpl. apply last_snoc.
  - rewrite filter_cons_False by done. simpl. by rewrite app_nil_r.
Qed.

(** What the loop of [ReconcileStatuses] finds: the last condition of type
    Reconciled and its index. *)
Lemma findReconciled_spec (conditions : list IstioCondition) :
  match findReconciled conditions with
  | Some (i, c) =>
      conditions !! i = Some c
      /\ Type_ c = "Reconciled"
      /\ reconciledCondition conditions = Some c
      /\ filter (fun c => Type_ c = "Reconciled") (drop (S i) conditions) = []
  | None =>
      reconciledCondition conditions = None
      /\ forall c, c ∈ conditions -> Type_ c <> "Reconciled"
  end.
Proof.
  induction conditions as [|c conditions IH] using rev_ind.
  - simpl. split; [done|]. intros c Hc. by apply elem_of_nil in Hc.
  - rewrite findReconciled_snoc, reconciledCondition_snoc.
    destruct (String.eqb_spec (Type_ c) "Reconciled") as [Hc|Hc].
    + split; [|split; [done|split; [done|]]].
      * rewrite lookup_app_r by lia. by rewrite Nat.sub_diag.
      * rewrite drop_ge; [done|]. rewrite length_app. simpl. lia.
    + destruct (findReconciled conditions) as [[i c0]|].
      * destruct IH as (Hi & Hty & Hrc & Hlater).
        split; [|split; [done|split; [done|]]].
        -- by apply lookup_app_l_Some.
        -- rewrite drop_app_le by (apply lookup_lt_Some in Hi; lia).
           rewrite filter_app, Hlater. simpl. by rewrite filter_cons_False, filter_nil.
      * destruct IH as [Hrc Hnone]. split; [done|].
        intros c' Hc'. apply elem_of_app in Hc' as [Hc'|Hc'].
        -- by apply Hnone.
        -- apply list_elem_of_singleton in Hc'. by subst.
Qed.

Lemma reconciledCondition_insert (conditions : list IstioCondition) (i : nat)
    (c d : IstioCondition) :
  conditions !! i = Some c ->
  Type_ d = "Reconciled" ->
  filter (fun c => Type_ c = "Reconciled") (drop (S i) conditions) = [] ->
  reconciledCondition (<[i := d]> conditions) = Some d.
Proof.
  intros Hi Hd Hlater. unfold reconciledCondition.
  rewrite insert_take_drop by (by apply lookup_lt_Some in Hi).
  rewrite filter_app, filter_cons_True by done.
  rewrite Hlater. apply last_snoc.
Qed.

(** C9: for every current status and every desired progress,
    [ReconcileStatuses] returns a status whose Reconciled condition has the
    status "True" exactly when the acked instances equal the total (and
    "False" otherwise) and the message "<acked>/<total> proxies up to date.",
    and it reports that a write is needed exactly when the current status
    does not parse, has no Reconciled condition, or has one whose message or
    status differs from the computed one. *)
Theorem ReconcileStatuses_condition (Json : Type)
    (GetTypedStatus : option Json -> Error + IstioStatus)
    (current : gmap string Json) (desired : Progress) (probeTime transitionTime : Z) :
  let '(needsReconcile, status) :=
    ReconcileStatuses Json GetTypedStatus current desired probeTime transitionTime in
  exists desiredCondition,
    reconciledCondition (Conditions status) = Some desiredCondition
    /\ Type_ desiredCondition = "Reconciled"
    /\ (Status desiredCondition = "True"
        <-> AckedInstances desired = TotalInstances desired)
    /\ (Status desiredCondition = "False"
        <-> AckedInstances desired <> TotalInstances desired)
    /\ Message desiredCondition
       = (formatInt (AckedInstances desired) ++ "/" ++ formatInt (TotalInstances desired)
            ++ " proxies up to date.")%string
    /\ (needsReconcile = true
        <-> (exists err, GetTypedStatus (current !! "status") = inl err)
            \/ (exists currentStatus,
                   GetTypedStatus (current !! "status") = inr currentStatus
                   /\ match reconciledCondition (Conditions currentStatus) with
                      | None => True
                      | Some currentCondition =>
                          Message currentCondition <> Message desiredCondition
                          \/ Status currentCondition <> Status desiredCondition
                      end)).
Proof.
  unfold ReconcileStatuses.
  set (d := {| Type_ := "Reconciled"; Status := _; LastProbeTime := probeTime;
               LastTransitionTime := transitionTime; Message := _ |}).
  assert (Status d = "True" <-> AckedInstances desired = TotalInstances desired) as HT.
  { unfold d; simpl. destruct (Z.eqb_spec (AckedInstances desired) (TotalInstances desired));
      simpl; split; try done. }
  assert (Status d = "False" <-> AckedInstances desired <> TotalInstances desired) as HF.
  { unfold d; simpl. destruct (Z.eqb_spec (AckedInstances desired) (TotalInstances desired));
      simpl; split; try done. }
  destruct (GetTypedStatus (current !! "status")) as [err|currentStatus] eqn:Hparse.
  - exists d. repeat split; try apply HT; try apply HF; try done.
    intros _. left. by exists err.
  - pose proof (findReconciled_spec (Conditions currentStatus)) as Hfind.
    destruct (findReconciled (Conditions currentStatus)) as [[i c]|].
    + destruct Hfind as (Hi & Hty & Hrc & Hlater).
      exists d. split; [by eapply reconciledCondition_insert|].
      repeat split; try apply HT; try apply HF; try done.
      * rewrite orb_true_iff, !negb_true_iff.
        intros H. right. exists currentStatus. split; [done|]. rewrite Hrc.
        destruct H as [H|H]; [left|right]; by apply String.eqb_neq.
      * intros [[err Herr]|(cs & [= <-] & H)]; [done|]. rewrite Hrc in H.
        rewrite orb_true_iff, !negb_true_iff.
        destruct H as [H|H]; [left|right]; by apply String.eqb_neq.
    + destruct Hfind as [Hrc Hnone].
      exists d. split; [cbn [Conditions]; by rewrite reconciledCondition_snoc|].
      repeat split; try apply HT; try apply HF; try done.
      intros _. right. exists currentStatus. split; [done|]. by rewrite Hrc.
Qed.

(** Scenario: the reporters sum to 5 acked of 10 and the object still says
    3 of 10; the condition becomes False with the message for 5 of 10 and a
    write is needed. *)
Example ReconcileStatuses_5_of_10 :
  ReconcileStatuses IstioStatus (fun o => inr (default (mkStatus []) o))
    {[ "status" := staleStatus ]} progress5of10 20 20
  = (true,
     {| Conditions :=
          [ {| Type_ := "Reconciled"; Status := "False"; LastProbeTime := 20;
               LastTransitionTime := 20; Message := "5/10 proxies up to date." |} ] |}).
Proof. reflexivity. Qed.

End StatusSpec.

(** * More properties *)

(** ** The stream of a connection *)

Module StreamSpec.
Import Ads Stream Examples MoreExamples.

(** X1: [listEqualUnordered] accepts every reordering: if the second list
    is a permutation of the first it returns true, so an ACK that lists the
    watched names in another order is never answered. *)
Theorem listEqualUnordered_Permutation (a b : list string) :
  Permutation a b -> listEqualUnordered a b = true.
Proof.
  intros HP. apply AdsSpec.listEqualUnordered_true. split.
  - by apply Permutation_length.
  - intros c Hc. by rewrite HP.
Qed.

Lemma listEqualUnordered_Permutation_witness :
  listEqualUnordered ["a"; "b"; "c"] ["c"; "a"; "b"] = true.
Proof.
  apply listEqualUnordered_Permutation.
  change (["a"; "b"; "c"] ≡ₚ ["c"] ++ ["a"; "b"]).
  apply (Permutation_app_comm ["a"; "b"] ["c"]).
Defined.

(** X2: when [shouldRespond] answers. It returns true exactly when the
    request carries no error detail and either has an empty nonce (first
    request), or finds no watched resource for its type URL (reconnect), or
    acknowledges the nonce last sent with names that [listEqualUnordered]
    tells apart from the watched ones. *)
Theorem shouldRespond_true_iff (s : DiscoveryServer) (con : Connection)
    (request : DiscoveryRequest) :
  (shouldRespond s con request).1.1 = true
  <-> ErrorDetail request = None
      /\ (ResponseNonce request = ""
          \/ Watched con (TypeUrl request) = None
          \/ exists previousInfo,
               Watched con (TypeUrl request) = Some previousInfo
               /\ ResponseNonce request = NonceSent previousInfo
               /\ listEqualUnordered (wResourceNames previousInfo) (ResourceNames request)
                  = false).
Proof.
  unfold shouldRespond, Watched.
  destruct (ErrorDetail request) as [detail|]; simpl.
  { split; [done | by intros [? _]]. }
  destruct (String.eqb_spec (ResponseNonce request) "") as [Hnonce|Hnonce]; simpl.
  { split; [intros _; split; [done | by left] | done]. }
  destruct (WatchedResources (proxy con) !! TypeUrl request) as [previousInfo|]; simpl.
  2: { split; [intros _; split; [done | right; by left] | done]. }
  destruct (String.eqb_spec (ResponseNonce request) (NonceSent previousInfo)) as [Hsent|Hsent];
    simpl.
  - destruct (listEqualUnordered _ _) eqn:Heq; simpl.
    + split; [done|]. intros [_ [?|[?|(p & [= <-] & _ & ?)]]]; congruence.
    + split; [|done]. intros _. split; [done|]. right; right. by exists previousInfo.
  - split; [done|]. intros [_ [?|[?|(p & [= <-] & ? & _)]]]; congruence.
Qed.

(** X3: a first request (empty nonce) and a reconnect (no watched resource
    for the type URL) start the watch anew: the type is then watched with
    exactly the requested names and with nothing sent or acked, whatever
    was recorded before, and no counter is touched. *)
Theorem shouldRespond_subscribe (s : DiscoveryServer) (con : Connection)
    (request : DiscoveryRequest) :
  ErrorDetail request = None ->
  ResponseNonce request = "" \/ Watched con (TypeUrl request) = None ->
  let '(respond, con', events) := shouldRespond s con request in
  respond = true
  /\ events = []
  /\ Watching con' (TypeUrl request) = true
  /\ (wResourceNames <$> Watched con' (TypeUrl request)) = Some (ResourceNames request)
  /\ (LastRequest <$> Watched con' (TypeUrl request)) = Some (Some request)
  /\ ConnNonceSent con' (TypeUrl request) = ""
  /\ ConnNonceAcked con' (TypeUrl request) = "".
Proof.
  intros Herr Hcase.
  assert (shouldRespond s con request
          = (true, setWatched con (TypeUrl request) (newWatchedResource request), [])) as ->.
  { unfold shouldRespond, Watched in *. rewrite Herr.
    destruct (String.eqb_spec (ResponseNonce request) "") as [|Hne]; [done|].
    destruct Hcase as [Hc|Hc]; [done | by rewrite Hc]. }
  unfold Watching, ConnNonceSent, ConnNonceAcked, Watched, setWatched; simpl.
  rewrite !lookup_insert_eq. by repeat split.
Qed.

Lemma shouldRespond_subscribe_witness :
  let '(respond, con', events) := shouldRespond (mkServer false) conABC firstRequest in
  respond = true
  /\ events = []
  /\ Watching con' "lds" = true
  /\ (wResourceNames <$> Watched con' "lds") = Some ["l"]
  /\ (LastRequest <$> Watched con' "lds") = Some (Some firstRequest)
  /\ ConnNonceSent con' "lds" = ""
  /\ ConnNonceAcked con' "lds" = "".
Proof.
  apply (shouldRespond_subscribe (mkServer false) conABC firstRequest).
  - reflexivity.
  - left. reflexivity.
Defined.

(** The shape of [shouldRespond] on a stale nonce. *)
Lemma shouldRespond_stale_eq (s : DiscoveryServer) (con : Connection)
    (request : DiscoveryRequest) (previousInfo : WatchedResource) :
  ErrorDetail request = None ->
  ResponseNonce request <> "" ->
  Watched con (TypeUrl request) = Some previousInfo ->
  ResponseNonce request <> NonceSent previousInfo ->
  shouldRespond s con request = (false, con, [XDSExpiredNonce]).
Proof.
  intros Herr Hnonce Hprev Hsent. unfold shouldRespond, Watched in *.
  rewrite Herr, Hprev.
  destruct (String.eqb_spec (ResponseNonce request) "") as [|_]; [done|].
  by destruct (String.eqb_spec (ResponseNonce request) (NonceSent previousInfo)).
Qed.

(** X4: [shouldRespond] only ever writes the watched resource of the type
    URL of the request: the watched resources of every other type URL, the
    connection id and the proxy id are as before, for every request. *)
Theorem shouldRespond_frame (s : DiscoveryServer) (con : Connection)
    (request : DiscoveryRequest) (typeUrl : string) :
  typeUrl <> TypeUrl request ->
  let con' := (shouldRespond s con request).1.2 in
  Watched con' typeUrl = Watched con typeUrl
  /\ ConID con' = ConID con
  /\ ID (proxy con') = ID (proxy con).
Proof.
  intros Hne. unfold shouldRespond, Watched.
  assert (forall w, WatchedResources (proxy (setWatched con (TypeUrl request) w)) !! typeUrl
                    = WatchedResources (proxy con) !! typeUrl) as Hset.
  { intros w. unfold setWatched; simpl. by rewrite lookup_insert_ne. }
  assert (forall w, ConID (setWatched con (TypeUrl request) w) = ConID con
                    /\ ID (proxy (setWatched con (TypeUrl request) w)) = ID (proxy con))
    as Hid by done.
  destruct (ErrorDetail request); cbn [fst snd]; [done|].
  destruct (String.eqb (ResponseNonce request) ""); cbn [fst snd];
    [by rewrite Hset|].
  destruct (WatchedResources (proxy con) !! TypeUrl request) as [previousInfo|];
    cbn [fst snd]; [|by rewrite Hset].
  destruct (negb _); cbn [fst snd]; [done|].
  destruct (listEqualUnordered _ _); cbn [fst snd]; by rewrite Hset.
Qed.

Lemma shouldRespond_frame_witness :
  let con' := (shouldRespond (mkServer false) conABC firstRequest).1.2 in
  Watched con' "cds" = Watched conABC "cds"
  /\ ConID con' = ConID conABC
  /\ ID (proxy con') = ID (proxy conABC).
Proof.
  apply (shouldRespond_frame (mkServer false) conABC firstRequest "cds").
  discriminate.
Defined.

(** The connection after a write without error of a response with a
    nonce. *)
Lemma send_ok (conn : Connection) (res : DiscoveryResponse) (now : Z) :
  Nonce res <> "" ->
  send conn res (StreamReturned None) now
  = (None,
     setWatched conn (RespTypeUrl res)
       (recordSent (default (emptyWatchedResource (RespTypeUrl res))
                      (Watched conn (RespTypeUrl res))) res now),
     []).
Proof.
  intros Hnonce. unfold send, Watched.
  destruct (String.eqb_spec (Nonce res) ""); [done|].
  by destruct (WatchedResources (proxy conn) !! RespTypeUrl res).
Qed.

(** X5: the round trip of a nonce. After [send] wrote a response with a
    non-empty nonce, a request for the same type URL that carries this
    nonce and no error detail is an ACK: the nonce acked and the nonce sent
    are then both the nonce of the response, the version acked is the
    version of the request, no counter moves, and a response is owed only
    if [listEqualUnordered] tells the requested names from the ones watched
    before. *)
Theorem send_then_ack (s : DiscoveryServer) (conn : Connection)
    (res : DiscoveryResponse) (now : Z) (request : DiscoveryRequest) :
  Nonce res <> "" ->
  ErrorDetail request = None ->
  TypeUrl request = RespTypeUrl res ->
  ResponseNonce request = Nonce res ->
  let conn1 := (send conn res (StreamReturned None) now).1.2 in
  let '(respond, conn2, events) := shouldRespond s conn1 request in
  ConnNonceSent conn1 (RespTypeUrl res) = Nonce res
  /\ ConnNonceAcked conn2 (RespTypeUrl res) = Nonce res
  /\ ConnNonceSent conn2 (RespTypeUrl res) = Nonce res
  /\ (VersionAcked <$> Watched conn2 (RespTypeUrl res)) = Some (VersionInfo request)
  /\ (VersionSent <$> Watched conn2 (RespTypeUrl res)) = Some (RespVersionInfo res)
  /\ events = []
  /\ respond
     = negb (listEqualUnordered
               (from_option wResourceNames [] (Watched conn (RespTypeUrl res)))
               (ResourceNames request)).
Proof.
  intros Hnonce Herr Htype Hack.
  rewrite send_ok by done. cbn [fst snd].
  set (w := recordSent _ res now).
  rewrite (AdsSpec.shouldRespond_ack s _ request w).
  - unfold ConnNonceSent, ConnNonceAcked, Watched. rewrite Htype.
    unfold setWatched; simpl. rewrite !lookup_insert_eq. simpl.
    repeat split; try done.
    unfold w, Watched. by destruct (WatchedResources (proxy conn) !! RespTypeUrl res).
  - done.
  - by rewrite Hack.
  - rewrite Htype. apply AdsSpec.Watched_setWatched.
  - by rewrite Hack.
Qed.

Lemma send_then_ack_witness :
  let conn1 := (send conABC responseN2 (StreamReturned None) 5).1.2 in
  let '(respond, conn2, events) := shouldRespond (mkServer false) conn1 ackN2 in
  ConnNonceSent conn1 "cds" = "n2"
  /\ ConnNonceAcked conn2 "cds" = "n2"
  /\ ConnNonceSent conn2 "cds" = "n2"
  /\ (VersionAcked <$> Watched conn2 "cds") = Some "v2"
  /\ (VersionSent <$> Watched conn2 "cds") = Some "v2"
  /\ events = []
  /\ respond
     = negb (listEqualUnordered
               (from_option wResourceNames [] (Watched conABC "cds")) ["c"; "b"; "a"]).
Proof.
  apply (send_then_ack (mkServer false) conABC responseN2 5 ackN2).
  - discriminate.
  - reflexivity.
  - reflexivity.
  - reflexivity.
Defined.

(** X6: what [send] leaves alone. It returns an error exactly when the
    timer fired or the stream returned one, and then the connection is
    unchanged; so it is when the response carries no nonce. In every case
    the watched resources of other type URLs, and the names, the acked
    version and nonce and the last request of the type URL itself, are as
    before. *)
Theorem send_frame (conn : Connection) (res : DiscoveryResponse) (outcome : SendOutcome)
    (now : Z) :
  let '(err, conn', events) := send conn res outcome now in
  (err = None <-> outcome = StreamReturned None)
  /\ (events = [XDSResponseWriteTimeout] <-> outcome = TimerFired)
  /\ (err <> None \/ Nonce res = "" -> conn' = conn)
  /\ (forall typeUrl, typeUrl <> RespTypeUrl res -> Watched conn' typeUrl = Watched conn typeUrl)
  /\ (forall w, Watched conn (RespTypeUrl res) = Some w ->
        exists w', Watched conn' (RespTypeUrl res) = Some w'
                   /\ wResourceNames w' = wResourceNames w
                   /\ VersionAcked w' = VersionAcked w
                   /\ NonceAcked w' = NonceAcked w
                   /\ LastRequest w' = LastRequest w).
Proof.
  unfold send. destruct outcome as [|[err|]].
  - repeat split; try done. intros w Hw. by exists w.
  - repeat split; try done. intros w Hw. by exists w.
  - destruct (String.eqb_spec (Nonce res) "") as [Hnonce|Hnonce].
    + repeat split; try done. intros w Hw. by exists w.
    + repeat split; try done.
      * by intros [?|?].
      * intros typeUrl Hne. unfold Watched, setWatched; simpl.
        by rewrite lookup_insert_ne.
      * intros w Hw. unfold Watched in *. rewrite Hw.
        eexists. unfold setWatched; simpl. rewrite lookup_insert_eq. by repeat split.
Qed.

(** X7: only the nonce sent last is fresh. After [send] wrote a response
    with a non-empty nonce, a request for the same type URL without error
    detail that carries another non-empty nonce is a stale ACK:
    [shouldRespond] returns false, counts one expired nonce and leaves the
    connection as [send] left it. *)
Theorem send_then_stale (s : DiscoveryServer) (conn : Connection)
    (res : DiscoveryResponse) (now : Z) (request : DiscoveryRequest) :
  Nonce res <> "" ->
  ErrorDetail request = None ->
  TypeUrl request = RespTypeUrl res ->
  ResponseNonce request <> "" ->
  ResponseNonce request <> Nonce res ->
  let conn1 := (send conn res (StreamReturned None) now).1.2 in
  shouldRespond s conn1 request = (false, conn1, [XDSExpiredNonce]).
Proof.
  intros Hnonce Herr Htype Hne Hold.
  rewrite send_ok by done. cbn [fst snd].
  eapply shouldRespond_stale_eq; try done.
  - rewrite Htype. apply AdsSpec.Watched_setWatched.
  - done.
Qed.

Lemma send_then_stale_witness :
  let conn1 := (send conABC responseN2 (StreamReturned None) 5).1.2 in
  shouldRespond (mkServer false) conn1 ackN1 = (false, conn1, [XDSExpiredNonce]).
Proof.
  apply (send_then_stale (mkServer false) conABC responseN2 5 ackN1); discriminate || reflexivity.
Defined.

(** *** The push order *)

Lemma filter_ext_elem {A} (P Q : A -> Prop) `{forall x, Decision (P x)}
    `{forall x, Decision (Q x)} (l : list A) :
  (forall x, x ∈ l -> (P x <-> Q x)) -> filter P l = filter Q l.
Proof.
  induction l as [|x l IH]; intros Hext; [done|].
  rewrite !filter_cons.
  rewrite IH by (intros y Hy; apply Hext; by right).
  destruct (decide (P x)) as [HP|HP], (decide (Q x)) as [HQ|HQ]; try done.
  - exfalso. apply HQ, Hext; [left | done].
  - exfalso. apply HP, Hext; [left | done].
Qed.

Lemma foldl_present (resources : gmap string WatchedResource) (order : list string)
    (wr : list WatchedResource) :
  foldl (fun wr tp =>
           match resources !! tp with
           | Some w => wr ++ [w]
           | None => wr
           end) wr order
  = wr ++ omap (fun tp => resources !! tp) order.
Proof.
  revert wr. induction order as [|tp order IH]; intros wr; simpl.
  - by rewrite app_nil_r.
  - rewrite IH. destruct (resources !! tp); [|done]. by rewrite <- app_assoc.
Qed.

Lemma foldl_unknown (known : gset string) (l : list (string * WatchedResource))
    (wr : list WatchedResource) :
  foldl (fun wr tw => if bool_decide (tw.1 ∈ known) then wr else wr ++ [tw.2]) wr l
  = wr ++ (filter (fun tw => tw.1 ∉ known) l).*2.
Proof.
  revert wr. induction l as [|tw l IH]; intros wr; simpl.
  - by rewrite app_nil_r.
  - rewrite IH, filter_cons. case_bool_decide as Hk.
    + by rewrite decide_False by tauto.
    + rewrite decide_True by done. simpl. by rewrite <- app_assoc.
Qed.

(** Looking up a duplicate-free list of keys yields, up to order, the
    entries of the map under these keys. *)
Lemma omap_lookup_Permutation (order : list string)
    (resources : gmap string WatchedResource) :
  NoDup order ->
  omap (fun tp => resources !! tp) order
  ≡ₚ (filter (fun tw => tw.1 ∈ order) (map_to_list resources)).*2.
Proof.
  intros Hnd. revert resources.
  induction Hnd as [|tp order Htp Hnd IH]; intros resources.
  - simpl. rewrite (filter_ext_elem _ (fun _ => False)).
    + by induction (map_to_list resources).
    + intros x _. rewrite elem_of_nil. tauto.
  - simpl. destruct (resources !! tp) as [w|] eqn:Hw.
    + rewrite <- (map_to_list_delete resources tp w Hw).
      rewrite filter_cons_True by (simpl; left).
      simpl. apply Permutation_cons; [done|].
      rewrite (list_omap_ext _ (fun tp0 => delete tp resources !! tp0) order order).
      * rewrite IH. apply fmap_Permutation. apply reflexive_eq. apply filter_ext_elem.
        intros [k v] Hk. simpl. apply elem_of_map_to_list in Hk.
        rewrite elem_of_cons. split; [auto|]. intros [->|?]; [|done].
        by rewrite lookup_delete_eq in Hk.
      * apply Forall2_same_length_lookup_2; [done|].
        intros i x y Hx Hy. rewrite Hx in Hy. injection Hy as <-.
        rewrite lookup_delete_ne; [done|]. intros ->.
        apply Htp. by eapply list_elem_of_lookup_2.
    + rewrite IH. apply reflexive_eq. f_equal. apply filter_ext_elem.
      intros [k v] Hk. simpl. apply elem_of_map_to_list in Hk.
      rewrite elem_of_cons. split; [auto|]. intros [->|?]; [congruence|done].
Qed.

Lemma elem_of_KnownPushOrder (types : TypeUrls) (tp : string) :
  tp ∈ KnownPushOrder types <-> tp ∈ PushOrder types.
Proof.
  unfold KnownPushOrder, PushOrder.
  rewrite !elem_of_union, !elem_of_singleton, !elem_of_cons, elem_of_nil. tauto.
Qed.

(** X8: [getPushResources] lists the watched resources of the known types
    first, in the order cluster, endpoint, listener, route, secret, each
    only if it is watched; the resources after them are watched under other
    type URLs; and, the five type URLs being distinct, every watched
    resource is listed exactly once. *)
Theorem getPushResources_order (types : TypeUrls)
    (resources : gmap string WatchedResource) :
  NoDup (PushOrder types) ->
  exists others,
    getPushResources types resources
    = omap (fun tp => resources !! tp) (PushOrder types) ++ others
    /\ (forall w, w ∈ others ->
          exists tp, resources !! tp = Some w /\ tp ∉ PushOrder types)
    /\ getPushResources types resources ≡ₚ (map_to_list resources).*2.
Proof.
  intros Hnd.
  exists (filter (fun tw => tw.1 ∉ KnownPushOrder types) (map_to_list resources)).*2.
  assert (getPushResources types resources
          = omap (fun tp => resources !! tp) (PushOrder types)
              ++ (filter (fun tw => tw.1 ∉ KnownPushOrder types) (map_to_list resources)).*2)
    as Heq.
  { unfold getPushResources. by rewrite foldl_unknown, foldl_present. }
  split; [exact Heq|]. split.
  - intros w Hw. apply list_elem_of_fmap in Hw as ([tp w'] & -> & Hin).
    apply list_elem_of_filter in Hin as [Hk Hin]. simpl in *.
    exists tp. split; [by apply elem_of_map_to_list|].
    by rewrite <- elem_of_KnownPushOrder.
  - rewrite Heq, (omap_lookup_Permutation _ _ Hnd), <- fmap_app.
    apply fmap_Permutation.
    rewrite (filter_ext_elem (fun tw : string * WatchedResource => tw.1 ∉ KnownPushOrder types)
               (fun tw => ~ tw.1 ∈ PushOrder types))
      by (intros x _; by rewrite elem_of_KnownPushOrder).
    apply (filter_app_complement (fun tw : string * WatchedResource => tw.1 ∈ PushOrder types)).
Qed.

Lemma getPushResources_order_witness :
  exists others,
    getPushResources xdsTypes {[ "cds" := watchedABC ]}
    = omap (fun tp => ({[ "cds" := watchedABC ]} : gmap string WatchedResource) !! tp)
        (PushOrder xdsTypes) ++ others
    /\ (forall w, w ∈ others ->
          exists tp, ({[ "cds" := watchedABC ]} : gmap string WatchedResource) !! tp = Some w
                     /\ tp ∉ PushOrder xdsTypes)
    /\ getPushResources xdsTypes {[ "cds" := watchedABC ]}
       ≡ₚ (map_to_list ({[ "cds" := watchedABC ]} : gmap string WatchedResource)).*2.
Proof.
  apply (getPushResources_order xdsTypes {[ "cds" := watchedABC ]}).
  unfold PushOrder, xdsTypes; simpl.
  repeat (apply NoDup_cons; split;
          [rewrite ?elem_of_cons, elem_of_nil; intuition discriminate|]).
  apply NoDup_nil_2.
Defined.

Lemma names_setWatched (con : Connection) (typeUrl typeUrl' : string) (w : WatchedResource) :
  from_option wResourceNames [] (WatchedResources (proxy (setWatched con typeUrl w)) !! typeUrl')
  = if decide (typeUrl' = typeUrl) then wResourceNames w
    else from_option wResourceNames [] (WatchedResources (proxy con) !! typeUrl').
Proof.
  unfold setWatched. cbn [proxy WatchedResources].
  destruct (decide (typeUrl' = typeUrl)) as [->|Hne].
  - by rewrite lookup_insert_eq.
  - by rewrite lookup_insert_ne.
Qed.

Lemma Clusters_names (types : TypeUrls) (con : Connection) :
  Clusters types con
  = from_option wResourceNames [] (WatchedResources (proxy con) !! EndpointType types).
Proof. unfold Clusters. by destruct (_ !! _). Qed.

Lemma Routes_names (types : TypeUrls) (con : Connection) :
  Routes types con
  = from_option wResourceNames [] (WatchedResources (proxy con) !! RouteType types).
Proof. unfold Routes. by destruct (_ !! _). Qed.

(** X9: the names a push is made for. Whenever [shouldRespond] returns
    true, the resource names watched for the type URL of the request are
    the names of the request, so [Clusters] after an answered endpoint
    request and [Routes] after an answered route request return the
    requested names; a request of another type URL changes neither. *)
Theorem shouldRespond_names (types : TypeUrls) (s : DiscoveryServer) (con : Connection)
    (request : DiscoveryRequest) :
  let '(respond, con', events) := shouldRespond s con request in
  (respond = true ->
     (wResourceNames <$> Watched con' (TypeUrl request)) = Some (ResourceNames request)
     /\ (TypeUrl request = EndpointType types ->
         Clusters types con' = ResourceNames request)
     /\ (TypeUrl request = RouteType types ->
         Routes types con' = ResourceNames request))
  /\ (TypeUrl request <> EndpointType types -> Clusters types con' = Clusters types con)
  /\ (TypeUrl request <> RouteType types -> Routes types con' = Routes types con).
Proof.
  assert (forall w,
             wResourceNames w = ResourceNames request ->
             ((wResourceNames <$> Watched (setWatched con (TypeUrl request) w) (TypeUrl request))
              = Some (ResourceNames request)
              /\ (TypeUrl request = EndpointType types ->
                  Clusters types (setWatched con (TypeUrl request) w) = ResourceNames request)
              /\ (TypeUrl request = RouteType types ->
                  Routes types (setWatched con (TypeUrl request) w) = ResourceNames request))
             /\ (TypeUrl request <> EndpointType types ->
                 Clusters types (setWatched con (TypeUrl request) w) = Clusters types con)
             /\ (TypeUrl request <> RouteType types ->
                 Routes types (setWatched con (TypeUrl request) w) = Routes types con))
    as Hset.
  { intros w Hw. rewrite !Clusters_names, !Routes_names, !names_setWatched.
    rewrite AdsSpec.Watched_setWatched. cbn [fmap option_fmap option_map]. rewrite Hw.
    repeat split.
    - intros <-. by rewrite decide_True.
    - intros <-. by rewrite decide_True.
    - intros Hne. by rewrite decide_False.
    - intros Hne. by rewrite decide_False. }
  unfold shouldRespond.
  destruct (ErrorDetail request) as [detail|]; [by split|].
  destruct (String.eqb (ResponseNonce request) "").
  { destruct (Hset (newWatchedResource request) eq_refl) as [H1 H2]. by split. }
  destruct (WatchedResources (proxy con) !! TypeUrl request) as [previousInfo|].
  - destruct (negb (String.eqb (ResponseNonce request) (NonceSent previousInfo)));
      [by split|].
    cbn zeta. destruct (Hset (recordAck previousInfo request) eq_refl) as [H1 H2].
    destruct (listEqualUnordered _ _); by split.
  - destruct (Hset (newWatchedResource request) eq_refl) as [H1 H2]. by split.
Qed.

End StreamSpec.

(** ** The distribution controller *)

Module DistributionSpec.
Import Status Distribution StatusContract DistributionContract.
Import Examples DistributionExamples.

Lemma wrapInt_add_l (a b : Z) : wrapInt (wrapInt a + b) = wrapInt (a + b).
Proof.
  unfold wrapInt. generalize (2 ^ 63)%Z (2 ^ 64)%Z. intros M N.
  replace (Z.modulo (a + M) N - M + b + M)%Z with (Z.modulo (a + M) N + b)%Z
    by (generalize (Z.modulo (a + M) N); intros; lia).
  rewrite Zplus_mod_idemp_l. do 2 f_equal. lia.
Qed.

Lemma wrapInt_small (z : Z) : (- 2 ^ 63 <= z < 2 ^ 63)%Z -> wrapInt z = z.
Proof.
  intros Hz. unfold wrapInt. rewrite Z.mod_small; lia.
Qed.

Lemma sum_Permutation (l l' : list Z) :
  l ≡ₚ l' -> foldr Z.add 0%Z l = foldr Z.add 0%Z l'.
Proof. induction 1; simpl; lia. Qed.

Lemma sumProgress_Permutation (l l' : list Progress) :
  l ≡ₚ l' -> sumProgress l = sumProgress l'.
Proof.
  intros HP. unfold sumProgress.
  by rewrite (sum_Permutation (AckedInstances <$> l) (AckedInstances <$> l')),
             (sum_Permutation (TotalInstances <$> l) (TotalInstances <$> l'))
    by (by apply fmap_Permutation).
Qed.

Lemma map_to_list_filter_Permutation {A} (P : string * A -> Prop)
    `{forall x, Decision (P x)} (m : gmap string A) :
  map_to_list (filter P m) ≡ₚ filter P (map_to_list m).
Proof.
  apply NoDup_Permutation.
  - apply NoDup_map_to_list.
  - apply NoDup_filter, NoDup_map_to_list.
  - intros [k v]. rewrite elem_of_map_to_list, map_lookup_filter_Some,
      list_elem_of_filter, elem_of_map_to_list. tauto.
Qed.

Lemma elem_of_concat {A} (x : A) (ls : list (list A)) :
  x ∈ concat ls <-> exists l, x ∈ l /\ l ∈ ls.
Proof.
  induction ls as [|l0 ls IH]; simpl.
  - split; [inversion 1 | intros (l & _ & H); inversion H].
  - rewrite elem_of_app, IH. split.
    + intros [H|(l & H1 & H2)].
      * exists l0. split; [done | left].
      * exists l. split; [done | by right].
    + intros (l & H1 & H2). apply elem_of_cons in H2 as [->|H2]; [by left|].
      right. by exists l.
Qed.

Section Pass.

Variable c : DistributionController.
Variable now : Z.

(** The inner loop, from any progress and any list of stale reporters. *)
Lemma sum_loop (l : list (string * Progress)) (a t : Z) (staleReporters : list string) :
  foldl (fun acc rw =>
           if isStale c now rw.1 then (acc.1, acc.2 ++ [rw.1])
           else (PlusEquals acc.1 rw.2, acc.2))
        ({| AckedInstances := wrapInt a; TotalInstances := wrapInt t |}, staleReporters) l
  = ({| AckedInstances :=
          wrapInt (a + foldr Z.add 0%Z
                         (AckedInstances <$> (filter (fun rw => isStale c now rw.1 = false) l).*2));
        TotalInstances :=
          wrapInt (t + foldr Z.add 0%Z
                         (TotalInstances <$> (filter (fun rw => isStale c now rw.1 = false) l).*2))
     |},
     staleReporters ++ (filter (fun rw => isStale c now rw.1 = true) l).*1).
Proof.
  revert a t staleReporters. induction l as [|[r w] l IH]; intros a t staleReporters.
  - simpl. by rewrite !Z.add_0_r, app_nil_r.
  - cbn [foldl fst snd]. rewrite !filter_cons. cbn [fst snd].
    destruct (isStale c now r) eqn:Hr.
    + rewrite IH. rewrite decide_False by done. rewrite decide_True by done.
      cbn [fmap list_fmap]. by rewrite <- app_assoc.
    + assert (PlusEquals {| AckedInstances := wrapInt a; TotalInstances := wrapInt t |} w
              = {| AckedInstances := wrapInt (a + AckedInstances w);
                   TotalInstances := wrapInt (t + TotalInstances w) |}) as ->
        by (unfold PlusEquals; cbn [AckedInstances TotalInstances];
            by rewrite !wrapInt_add_l).
      rewrite IH. rewrite decide_True by done. rewrite decide_False by done.
      cbn [fmap list_fmap foldr fst snd]. by rewrite !Z.add_assoc.
Qed.

Lemma sumFractions_spec (fractions : gmap string Progress) (staleReporters : list string) :
  sumFractions c now fractions staleReporters
  = (freshProgress c now fractions,
     staleReporters
       ++ (filter (fun rw => isStale c now rw.1 = true) (map_to_list fractions)).*1).
Proof.
  unfold sumFractions.
  change ({| AckedInstances := 0; TotalInstances := 0 |})
    with ({| AckedInstances := wrapInt 0; TotalInstances := wrapInt 0 |}).
  rewrite sum_loop. rewrite !Z.add_0_l. f_equal.
  unfold freshProgress, freshReports. symmetry.
  apply (sumProgress_Permutation
           (map_to_list (filter (fun rw => isStale c now rw.1 = false) fractions)).*2
           (filter (fun rw => isStale c now rw.1 = false) (map_to_list fractions)).*2).
  apply fmap_Permutation, map_to_list_filter_Permutation.
Qed.

Lemma write_loop (l : list (Resource * gmap string Progress))
    (staleReporters : list string) (writes : list (Resource * Progress)) :
  foldl (fun acc cf =>
           let '(distributionState, staleReporters) := sumFractions c now cf.2 acc.1 in
           (staleReporters,
            if Z.ltb 0 (TotalInstances distributionState)
            then acc.2 ++ [(cf.1, distributionState)]
            else acc.2))
        (staleReporters, writes) l
  = (staleReporters ++ concat (staleOf c now <$> l), writes ++ omap (writeOf c now) l).
Proof.
  revert staleReporters writes. induction l as [|cf l IH]; intros staleReporters writes.
  - simpl. by rewrite !app_nil_r.
  - cbn [foldl fst snd]. rewrite sumFractions_spec, IH.
    cbn [fmap list_fmap concat omap list_omap]. unfold writeOf at 2.
    destruct (Z.ltb 0 (TotalInstances (freshProgress c now cf.2)));
      by rewrite <- !app_assoc.
Qed.

Lemma writeAllStatus_spec :
  writeAllStatus c now
  = (concat (staleOf c now <$> map_to_list (CurrentState c)),
     omap (writeOf c now) (map_to_list (CurrentState c))).
Proof. unfold writeAllStatus. by rewrite write_loop. Qed.

Lemma omap_writeOf_sublist (l : list (Resource * gmap string Progress)) :
  (omap (writeOf c now) l).*1 `sublist_of` l.*1.
Proof.
  induction l as [|cf l IH]; simpl; [done|].
  unfold writeOf at 1. destruct (Z.ltb 0 _); simpl.
  - by apply sublist_skip.
  - by apply sublist_cons.
Qed.

Lemma elem_of_stale (r : string) :
  r ∈ concat (staleOf c now <$> map_to_list (CurrentState c))
  <-> isStale c now r = true /\ exists config, is_Some (reportOf c config r).
Proof.
  rewrite elem_of_concat. split.
  - intros (l & Hr & Hl). apply list_elem_of_fmap in Hl as ([config fractions] & -> & Hcf).
    apply elem_of_map_to_list in Hcf. unfold staleOf in Hr. simpl in Hr.
    apply list_elem_of_fmap in Hr as ([r' w] & -> & Hrw).
    apply list_elem_of_filter in Hrw as [Hst Hrw]. apply elem_of_map_to_list in Hrw.
    split; [done|]. exists config. unfold reportOf. rewrite Hcf. simpl. by exists w.
  - intros [Hst (config & w & Hw)]. unfold reportOf in Hw.
    destruct (CurrentState c !! config) as [fractions|] eqn:Hcf; [|done]. simpl in Hw.
    exists (staleOf c now (config, fractions)). split.
    + unfold staleOf. simpl. apply list_elem_of_fmap. exists (r, w). split; [done|].
      apply list_elem_of_filter. split; [done | by apply elem_of_map_to_list].
    + apply list_elem_of_fmap. exists (config, fractions).
      split; [done | by apply elem_of_map_to_list].
Qed.

(** X10: what [writeAllStatus] hands on. A status write is started for a
    resource exactly when the total over its fresh reporters is positive,
    with the progress summed over the fresh reporters, and at most once for
    each resource; the stale reporters returned are exactly the reporters
    with a report on some resource that have not been heard for longer than
    the stale interval. *)
Theorem writeAllStatus_sums :
  let '(staleReporters, writes) := writeAllStatus c now in
  (forall config p,
      (config, p) ∈ writes
      <-> exists fractions,
            CurrentState c !! config = Some fractions
            /\ p = freshProgress c now fractions
            /\ (0 < TotalInstances p)%Z)
  /\ NoDup writes.*1
  /\ (forall reporter,
        reporter ∈ staleReporters
        <-> isStale c now reporter = true
            /\ exists config, is_Some (reportOf c config reporter)).
Proof.
  rewrite writeAllStatus_spec. split; [|split].
  - intros config p. rewrite list_elem_of_omap. split.
    + intros ([config' fractions] & Hcf & Hw). apply elem_of_map_to_list in Hcf.
      unfold writeOf in Hw. cbn [fst snd] in Hw.
      destruct (Z.ltb_spec 0 (TotalInstances (freshProgress c now fractions)));
        [|discriminate].
      injection Hw as <- <-. by exists fractions.
    + intros (fractions & Hcf & -> & Hpos). exists (config, fractions).
      split; [by apply elem_of_map_to_list|]. unfold writeOf. cbn [fst snd].
      by destruct (Z.ltb_spec 0 (TotalInstances (freshProgress c now fractions))); [|lia].
  - eapply sublist_NoDup; [|apply omap_writeOf_sublist]. apply NoDup_fst_map_to_list.
  - apply elem_of_stale.
Qed.

End Pass.

Lemma foldl_delete_lookup (l : list string) (fractions : gmap string Progress)
    (r : string) :
  foldl (fun fractions staleReporter => delete staleReporter fractions) fractions l !! r
  = if decide (r ∈ l) then None else fractions !! r.
Proof.
  revert fractions. induction l as [|x l IH]; intros fractions; cbn [foldl].
  - by destruct (decide (r ∈ [])) as [Hr|Hr]; [inversion Hr|].
  - rewrite IH. destruct (decide (r ∈ l)) as [Hl|Hl].
    + by rewrite decide_True by (by right).
    + destruct (decide (r = x)) as [->|Hx].
      * rewrite lookup_delete_eq. by rewrite decide_True by left.
      * rewrite lookup_delete_ne by done.
        rewrite decide_False; [done|]. rewrite elem_of_cons. tauto.
Qed.

(** X11: [removeStaleReporters] deletes the report of every reporter of the
    list under every resource, keeps every other report, keeps every
    resource (even when no report is left under it), and does not touch the
    observation times. *)
Theorem removeStaleReporters_reports (c : DistributionController)
    (staleReporters : list string) :
  let c' := removeStaleReporters c staleReporters in
  (forall config reporter,
      reportOf c' config reporter
      = if decide (reporter ∈ staleReporters) then None else reportOf c config reporter)
  /\ (forall config, is_Some (CurrentState c' !! config) <-> is_Some (CurrentState c !! config))
  /\ ObservationTime c' = ObservationTime c
  /\ StaleInterval c' = StaleInterval c.
Proof.
  split; [|split; [|done]].
  - intros config reporter. unfold reportOf, removeStaleReporters. simpl.
    rewrite lookup_fmap. destruct (CurrentState c !! config) as [fractions|]; simpl.
    + apply foldl_delete_lookup.
    + by destruct (decide _).
  - intros config. unfold removeStaleReporters. simpl. rewrite lookup_fmap.
    by rewrite fmap_is_Some.
Qed.

Lemma isStale_removeStaleReporters (c : DistributionController) (l : list string)
    (now : Z) (r : string) :
  isStale (removeStaleReporters c l) now r = isStale c now r.
Proof. reflexivity. Qed.





Section Report.

Variable ResourceFromString : string -> Resource.
Variable d : DistributionReport.

Lemma reportStep_other (state : gmap Resource (gmap string Progress)) (k : string)
    (res : Resource) (r : string) :
  r <> Reporter d ->
  reportStep ResourceFromString d state k !! res ≫= (fun fractions => fractions !! r)
  = state !! res ≫= (fun fractions => fractions !! r).
Proof.
  intros Hr. unfold reportStep. cbn zeta.
  destruct (decide (ResourceFromString k = res)) as [<-|Hne].
  - rewrite lookup_insert_eq. cbn [mbind option_bind].
    rewrite lookup_insert_ne by done.
    by destruct (state !! ResourceFromString k).
  - by rewrite lookup_insert_ne.
Qed.

Lemma report_loop_other (ks : list string) (state : gmap Resource (gmap string Progress))
    (res : Resource) (r : string) :
  r <> Reporter d ->
  foldl (reportStep ResourceFromString d) state ks !! res
    ≫= (fun fractions => fractions !! r)
  = state !! res ≫= (fun fractions => fractions !! r).
Proof.
  intros Hr. revert state. induction ks as [|k ks IH]; intros state; [done|].
  cbn [foldl]. rewrite IH. by apply reportStep_other.
Qed.

Lemma report_loop_unnamed (ks : list string) (state : gmap Resource (gmap string Progress))
    (res : Resource) :
  (forall k, k ∈ ks -> ResourceFromString k <> res) ->
  foldl (reportStep ResourceFromString d) state ks !! res = state !! res.
Proof.
  revert state. induction ks as [|k ks IH]; intros state Hks; [done|].
  cbn [foldl]. rewrite IH by (intros k' Hk'; apply Hks; by right).
  unfold reportStep. cbn zeta. rewrite lookup_insert_ne; [done|]. apply Hks. left.
Qed.

Lemma report_loop_named (ks : list string) (state : gmap Resource (gmap string Progress))
    (k : string) :
  k ∈ ks ->
  (forall k', k' ∈ ks -> ResourceFromString k' = ResourceFromString k -> k' = k) ->
  foldl (reportStep ResourceFromString d) state ks !! ResourceFromString k
    ≫= (fun fractions => fractions !! Reporter d)
  = Some {| AckedInstances := default 0%Z (InProgressResources d !! k);
            TotalInstances := DataPlaneCount d |}.
Proof.
  revert state. induction ks as [|k0 ks IH]; intros state Hk Hinj; [inversion Hk|].
  cbn [foldl]. destruct (decide (k ∈ ks)) as [Hin|Hnotin].
  - apply IH; [done|]. intros k' Hk'. apply Hinj. by right.
  - apply elem_of_cons in Hk as [->|Hk]; [|done].
    rewrite report_loop_unnamed.
    + unfold reportStep. cbn zeta. rewrite lookup_insert_eq. cbn [mbind option_bind].
      by rewrite lookup_insert_eq.
    + intros k' Hk' Heq. apply Hnotin. rewrite <- (Hinj k'); [done | by right | done].
Qed.

Lemma handleReport_state (c : DistributionController) (now : Z) :
  CurrentState (handleReport ResourceFromString c d now)
  = foldl (reportStep ResourceFromString d) (CurrentState c)
          (map_to_list (InProgressResources d)).*1.
Proof. reflexivity. Qed.

Lemma Since_same (now : Z) : Since now now = 0%Z.
Proof.
  unfold Since, maxDuration, minDuration. rewrite Z.sub_diag.
  rewrite Z.min_r by (apply Z.lt_le_incl; reflexivity).
  apply Z.max_r. discriminate.
Qed.

(** X13: what a report records. For a resource string of the report that
    no other resource string of the report names the same resource as,
    [handleReport] leaves under that resource and the reporter the acked
    count of the report over its data-plane count; it sets the observation
    time of the reporter to the reading of the clock, so that with a stale
    interval that is not negative the reporter is not stale at that
    instant. *)
Theorem handleReport_records (c : DistributionController) (now : Z)
    (resstr : string) (acked : Z) :
  InProgressResources d !! resstr = Some acked ->
  (forall resstr', is_Some (InProgressResources d !! resstr') ->
                   ResourceFromString resstr' = ResourceFromString resstr ->
                   resstr' = resstr) ->
  let c' := handleReport ResourceFromString c d now in
  reportOf c' (ResourceFromString resstr) (Reporter d)
    = Some {| AckedInstances := acked; TotalInstances := DataPlaneCount d |}
  /\ ObservationTime c' !! Reporter d = Some now
  /\ ((0 <= StaleInterval c)%Z -> isStale c' now (Reporter d) = false).
Proof.
  intros Hacked Hinj c'. split; [|split].
  - unfold reportOf, c'. rewrite handleReport_state, report_loop_named.
    + by rewrite Hacked.
    + apply list_elem_of_fmap. exists (resstr, acked).
      split; [done | by apply elem_of_map_to_list].
    + intros k' Hk'. apply Hinj.
      apply list_elem_of_fmap in Hk' as ([k'' a] & -> & Hk').
      apply elem_of_map_to_list in Hk'. by exists a.
  - unfold c', handleReport. cbn [ObservationTime]. apply lookup_insert_eq.
  - intros Hpos. unfold isStale, c', handleReport. cbn [ObservationTime StaleInterval].
    rewrite lookup_insert_eq. cbn [default]. rewrite Since_same.
    apply Z.ltb_ge. exact Hpos.
Qed.

(** X14: what a report leaves alone. [handleReport] changes neither the
    reports nor the observation time of any other reporter, and under a
    resource that no resource string of the report names it changes
    nothing at all; the stale interval stays. *)
Theorem handleReport_frame (c : DistributionController) (now : Z)
    (reporter : string) :
  reporter <> Reporter d ->
  let c' := handleReport ResourceFromString c d now in
  (forall config, reportOf c' config reporter = reportOf c config reporter)
  /\ ObservationTime c' !! reporter = ObservationTime c !! reporter
  /\ (forall config,
        (forall resstr, is_Some (InProgressResources d !! resstr) ->
                        ResourceFromString resstr <> config) ->
        CurrentState c' !! config = CurrentState c !! config)
  /\ StaleInterval c' = StaleInterval c.
Proof.
  intros Hr c'. split; [|split; [|split; [|done]]].
  - intros config. unfold reportOf, c'. rewrite handleReport_state.
    by apply report_loop_other.
  - unfold c', handleReport. cbn [ObservationTime]. by rewrite lookup_insert_ne.
  - intros config Hconfig. unfold c'. rewrite handleReport_state.
    apply report_loop_unnamed. intros k Hk. apply Hconfig.
    apply list_elem_of_fmap in Hk as ([k' a] & -> & Hk).
    apply elem_of_map_to_list in Hk. by exists a.
Qed.

End Report.

Lemma handleReport_records_witness :
  reportOf (handleReport resourceNamed controller0 report1 100) (resourceNamed "reviews")
           "istiod-1"
    = Some {| AckedInstances := 7; TotalInstances := 10 |}
  /\ ObservationTime (handleReport resourceNamed controller0 report1 100) !! "istiod-1"
     = Some 100%Z
  /\ ((0 <= StaleInterval controller0)%Z
      -> isStale (handleReport resourceNamed controller0 report1 100) 100 "istiod-1" = false).
Proof.
  apply (handleReport_records resourceNamed report1 controller0 100 "reviews" 7).
  - reflexivity.
  - intros resstr' _ Heq. by injection Heq.
Defined.

Lemma handleReport_frame_witness :
  (forall config,
      reportOf (handleReport resourceNamed controller0 report1 100) config "istiod-2"
      = reportOf controller0 config "istiod-2")
  /\ ObservationTime (handleReport resourceNamed controller0 report1 100) !! "istiod-2"
     = ObservationTime controller0 !! "istiod-2"
  /\ (forall config,
        (forall resstr, is_Some (InProgressResources report1 !! resstr) ->
                        resourceNamed resstr <> config) ->
        CurrentState (handleReport resourceNamed controller0 report1 100) !! config
        = CurrentState controller0 !! config)
  /\ StaleInterval (handleReport resourceNamed controller0 report1 100)
     = StaleInterval controller0.
Proof.
  apply (handleReport_frame resourceNamed report1 controller0 100 "istiod-2").
  discriminate.
Defined.

(** *** Reconciling the status *)

Lemma cut_numeric (sep : ascii) (s rest : string) :
  isNumeric sep = false -> allNumeric s = true ->
  cut sep (s ++ String sep rest)%string = (s, rest).
Proof.
  intros Hsep. induction s as [|a s IH]; simpl.
  - by rewrite Ascii.eqb_refl.
  - intros [Ha Hs]%andb_true_iff. rewrite IH by done.
    destruct (Ascii.eqb_spec a sep) as [->|_]; [congruence|done].
Qed.

Lemma allNumeric_uint (d : Decimal.uint) : allNumeric (NilEmpty.string_of_uint d) = true.
Proof. induction d; simpl; done. Qed.

Lemma allNumeric_formatInt (n : Z) : allNumeric (formatInt n) = true.
Proof.
  unfold formatInt. destruct (Z.to_int n) as [d|d]; simpl.
  - destruct d; try done; apply (allNumeric_uint (_ d)).
  - destruct d; try done; apply (allNumeric_uint (_ d)).
Qed.

Lemma formatInt_inj (n n' : Z) : formatInt n = formatInt n' -> n = n'.
Proof.
  assert (forall n, Z.to_int n <> Decimal.Pos Decimal.Nil
                    /\ Z.to_int n <> Decimal.Neg Decimal.Nil) as Hnil.
  { intros m. split; intros Hm; pose proof (DecimalZ.of_to m) as Hof;
      rewrite Hm in Hof; simpl in Hof; subst m; discriminate. }
  intros Heq. unfold formatInt in Heq. apply DecimalZ.to_int_inj.
  assert (Some (Z.to_int n) = Some (Z.to_int n')) as Hs; [|by injection Hs].
  rewrite <- (NilZero.isi (Z.to_int n)) by apply Hnil.
  rewrite <- (NilZero.isi (Z.to_int n')) by apply Hnil.
  by rewrite Heq.
Qed.

Lemma progressMessage_cut (p : Progress) :
  cut "/" (progressMessage p)
  = (formatInt (AckedInstances p),
     (formatInt (TotalInstances p) ++ " proxies up to date.")%string).
Proof.
  apply (cut_numeric "/" (formatInt (AckedInstances p))
           (formatInt (TotalInstances p) ++ " proxies up to date.")%string);
    [done | apply allNumeric_formatInt].
Qed.

Lemma progressMessage_inj (p p' : Progress) :
  progressMessage p = progressMessage p' -> p = p'.
Proof.
  intros Heq.
  pose proof (progressMessage_cut p) as Hp. rewrite Heq, progressMessage_cut in Hp.
  injection Hp as Hacked Htotal.
  assert (cut " " (formatInt (TotalInstances p') ++ " proxies up to date.")%string
          = cut " " (formatInt (TotalInstances p) ++ " proxies up to date.")%string)
    as Hcut by (by rewrite Htotal).
  rewrite (cut_numeric " " (formatInt (TotalInstances p')) "proxies up to date."),
          (cut_numeric " " (formatInt (TotalInstances p)) "proxies up to date.")
    in Hcut by (done || apply allNumeric_formatInt).
  injection Hcut as Htotal'.
  apply formatInt_inj in Hacked, Htotal'. destruct p, p'; simpl in *. congruence.
Qed.

Section Settle.

Variable Json : Type.
Variable GetTypedStatus : option Json -> Error + IstioStatus.

(** X15: when the object is up to date. If the Reconciled condition of the
    current status was written for some progress, [ReconcileStatuses]
    reports that no write is needed exactly when the desired progress is
    that progress: two different progresses never print the same message. *)
Theorem ReconcileStatuses_settled (current : gmap string Json)
    (currentStatus : IstioStatus) (currentCondition : IstioCondition)
    (written desired : Progress) (probeTime transitionTime : Z) :
  GetTypedStatus (current !! "status") = inr currentStatus ->
  reconciledCondition (Conditions currentStatus) = Some currentCondition ->
  Message currentCondition = progressMessage written ->
  Status currentCondition
    = boolToConditionStatus (Z.eqb (AckedInstances written) (TotalInstances written)) ->
  (ReconcileStatuses Json GetTypedStatus current desired probeTime transitionTime).1 = false
  <-> desired = written.
Proof.
  intros Hparse Hrc Hmsg Hst. unfold ReconcileStatuses. rewrite Hparse.
  pose proof (StatusSpec.findReconciled_spec (Conditions currentStatus)) as Hfind.
  destruct (findReconciled (Conditions currentStatus)) as [[i c]|].
  - destruct Hfind as (_ & _ & Hrc' & _). rewrite Hrc in Hrc'. injection Hrc' as <-.
    cbn [fst Message Status]. rewrite Hmsg, Hst. split.
    + intros [Hm _]%orb_false_iff. apply negb_false_iff, String.eqb_eq in Hm.
      symmetry. by apply progressMessage_inj.
    + intros ->. by rewrite !String.eqb_refl.
  - destruct Hfind as [Hnone _]. by rewrite Hrc in Hnone.
Qed.

Lemma findReconciled_written (current : gmap string Json) (desired : Progress)
    (probeTime transitionTime : Z) :
  exists i c,
    findReconciled
      (Conditions
         (ReconcileStatuses Json GetTypedStatus current desired probeTime transitionTime).2)
    = Some (i, c)
    /\ i < length (Conditions
                     (ReconcileStatuses Json GetTypedStatus current desired
                        probeTime transitionTime).2)
    /\ Message c = progressMessage desired
    /\ Status c = boolToConditionStatus
                    (Z.eqb (AckedInstances desired) (TotalInstances desired)).
Proof.
  unfold ReconcileStatuses.
  set (d := {| Type_ := "Reconciled"; Status := _; LastProbeTime := probeTime;
               LastTransitionTime := transitionTime; Message := _ |}).
  destruct (GetTypedStatus (current !! "status")) as [err|currentStatus].
  - exists 0, d. cbn [snd Conditions]. split; [done|]. split; [simpl; lia | done].
  - pose proof (StatusSpec.findReconciled_spec (Conditions currentStatus)) as Hfind.
    destruct (findReconciled (Conditions currentStatus)) as [[i c]|].
    + destruct Hfind as (Hi & Hty & Hrc & Hlater). cbn [snd Conditions].
      pose proof (StatusSpec.reconciledCondition_insert _ i c d Hi eq_refl Hlater) as Hnew.
      pose proof (StatusSpec.findReconciled_spec (<[i := d]> (Conditions currentStatus)))
        as Hfind'.
      destruct (findReconciled (<[i := d]> (Conditions currentStatus))) as [[j c']|].
      * destruct Hfind' as (Hj & _ & Hrc' & _). rewrite Hnew in Hrc'. injection Hrc' as <-.
        exists j, d. split; [done|]. split; [by apply lookup_lt_Some in Hj | done].
      * destruct Hfind' as [Hnone _]. by rewrite Hnew in Hnone.
    + cbn [snd Conditions]. exists (length (Conditions currentStatus)), d.
      rewrite StatusSpec.findReconciled_snoc. split; [done|].
      split; [rewrite length_app; simpl; lia | done].
Qed.

(** X16: reconciling twice. When the status returned by [ReconcileStatuses]
    is what the object reads back as, a second [ReconcileStatuses] for the
    same progress reports that no write is needed, and its status has as
    many conditions as the first: the Reconciled condition is replaced in
    place, not appended again. *)
Theorem ReconcileStatuses_twice (current current' : gmap string Json) (desired : Progress)
    (probeTime transitionTime probeTime' transitionTime' : Z) :
  GetTypedStatus (current' !! "status")
    = inr (ReconcileStatuses Json GetTypedStatus current desired
             probeTime transitionTime).2 ->
  let first :=
    ReconcileStatuses Json GetTypedStatus current desired probeTime transitionTime in
  let second :=
    ReconcileStatuses Json GetTypedStatus current' desired probeTime' transitionTime' in
  second.1 = false
  /\ length (Conditions second.2) = length (Conditions first.2).
Proof.
  intros Hparse first second.
  destruct (findReconciled_written current desired probeTime transitionTime)
    as (i & c & Hfind & Hi & Hmsg & Hst).
  unfold second, ReconcileStatuses at 1 2. rewrite Hparse. fold first. fold first in Hfind.
  rewrite Hfind. cbn [fst snd Conditions Message Status].
  rewrite Hmsg, Hst, !String.eqb_refl. split; [done|]. by rewrite length_insert.
Qed.

End Settle.

Lemma ReconcileStatuses_settled_witness :
  (ReconcileStatuses IstioStatus parseStatus {[ "status" := staleStatus ]}
     progress5of10 20 20).1 = false
  <-> progress5of10 = progress3of10.
Proof.
  apply (ReconcileStatuses_settled IstioStatus parseStatus {[ "status" := staleStatus ]}
           staleStatus
           {| Type_ := "Reconciled"; Status := "False"; LastProbeTime := 1;
              LastTransitionTime := 1; Message := "3/10 proxies up to date." |}
           progress3of10 progress5of10 20 20); reflexivity.
Defined.

Lemma ReconcileStatuses_twice_witness :
  (ReconcileStatuses IstioStatus parseStatus
     {[ "status" := (ReconcileStatuses IstioStatus parseStatus {[ "status" := staleStatus ]}
                       progress5of10 20 20).2 ]}
     progress5of10 30 30).1 = false
  /\ length (Conditions
               (ReconcileStatuses IstioStatus parseStatus
                  {[ "status" := (ReconcileStatuses IstioStatus parseStatus
                                    {[ "status" := staleStatus ]} progress5of10 20 20).2 ]}
                  progress5of10 30 30).2)
     = length (Conditions
                 (ReconcileStatuses IstioStatus parseStatus {[ "status" := staleStatus ]}
                    progress5of10 20 20).2).
Proof.
  apply (ReconcileStatuses_twice IstioStatus parseStatus {[ "status" := staleStatus ]}
           {[ "status" := (ReconcileStatuses IstioStatus parseStatus
                             {[ "status" := staleStatus ]} progress5of10 20 20).2 ]}
           progress5of10 20 20 30 30).
  reflexivity.
Defined.

(** X17: what [writeStatus] does to the controller. When the object read is
    gone, not found or of another resource version than the reports, no
    status is written, no report is left under the resource and the reports
    under every other resource stay; in every other case, an unexpected
    error included, the controller is unchanged. A status is written only
    for an object of the reported version, and it carries the message of
    the progress handed in. *)
Theorem writeStatus_prunes (Json : Type)
    (GetTypedStatus : option Json -> Error + IstioStatus)
    (c : DistributionController) (config : Resource) (distributionState : Progress)
    (current : GetResult Json) (probeTime transitionTime : Z) :
  let '(c', update) :=
    writeStatus Json GetTypedStatus c config distributionState current
      probeTime transitionTime in
  (outdated config current ->
     update = None
     /\ (forall reporter, reportOf c' config reporter = None)
     /\ (forall config' reporter,
           config' <> config -> reportOf c' config' reporter = reportOf c config' reporter)
     /\ ObservationTime c' = ObservationTime c)
  /\ (~ outdated config current -> c' = c)
  /\ (forall status,
        update = Some status ->
        ~ outdated config current
        /\ exists condition,
             reconciledCondition (Conditions status) = Some condition
             /\ Message condition = progressMessage distributionState).
Proof.
  assert (forall reporter, reportOf (pruneOldVersion c config) config reporter = None)
    as Hgone.
  { intros reporter. unfold reportOf, pruneOldVersion. cbn [CurrentState].
    by rewrite lookup_delete_eq. }
  assert (forall config' reporter,
             config' <> config ->
             reportOf (pruneOldVersion c config) config' reporter
             = reportOf c config' reporter) as Hkept.
  { intros config' reporter Hne. unfold reportOf, pruneOldVersion. cbn [CurrentState].
    by rewrite lookup_delete_ne. }
  destruct current as [| |err|resourceVersion object]; cbn [writeStatus outdated].
  - split; [done|]. split; [tauto|]. by intros status Hs.
  - split; [done|]. split; [tauto|]. by intros status Hs.
  - split; [tauto|]. split; [done|]. by intros status Hs.
  - destruct (String.eqb_spec (ResourceVersion config) resourceVersion) as [Heq|Hne];
      cbn [negb].
    + pose proof (findReconciled_written Json GetTypedStatus object distributionState
                    probeTime transitionTime) as (i & cond & Hfind & _ & Hmsg & _).
      pose proof (StatusSpec.findReconciled_spec
                    (Conditions (ReconcileStatuses Json GetTypedStatus object
                                   distributionState probeTime transitionTime).2)) as Hspec.
      rewrite Hfind in Hspec. destruct Hspec as (_ & _ & Hrc & _).
      destruct (ReconcileStatuses Json GetTypedStatus object distributionState
                  probeTime transitionTime) as [needsReconcile desiredStatus].
      cbn [snd] in Hrc.
      destruct needsReconcile.
      * split; [by intros Hout|]. split; [done|].
        intros status [= <-]. split; [by intros Hout|]. by exists cond.
      * split; [by intros Hout|]. split; [done|]. by intros status Hs.
    + split; [done|]. split; [by intros Hout; destruct Hout|]. by intros status Hs.
Qed.

End DistributionSpec.

(** ** The service registry and the snapshot *)

Module RegistrySpec.
Import Model BuildContract RegistryContract Examples RegistryExamples.

(** *** Sorting *)

Lemma insertByCreationTime_sorted (s : Service) (l : list Service) :
  byCreationTime l -> byCreationTime (insertByCreationTime s l).
Proof.
  unfold byCreationTime. induction l as [|x l IH]; intros Hl; simpl.
  - by repeat constructor.
  - apply StronglySorted_inv in Hl as [Hl Hx].
    destruct (Z.ltb_spec (CreationTime x) (CreationTime s)) as [Hlt|Hge].
    + constructor; [by apply IH|].
      rewrite (BuildSpec.insertByCreationTime_Permutation s l).
      constructor; [lia | done].
    + constructor; [by constructor|].
      constructor; [done|]. eapply Forall_impl; [exact Hx|]. simpl. intros y Hy. lia.
Qed.

Lemma insertByCreationTime_filter (t : Z) (s : Service) (l : list Service) :
  filter (fun x => CreationTime x = t) (insertByCreationTime s l)
  = filter (fun x => CreationTime x = t) (s :: l).
Proof.
  induction l as [|x l IH]; simpl; [done|].
  destruct (Z.ltb_spec (CreationTime x) (CreationTime s)) as [Hlt|Hge]; [|done].
  rewrite filter_cons, IH, !filter_cons.
  destruct (decide (CreationTime x = t)) as [Hx|Hx];
    destruct (decide (CreationTime s = t)) as [Hs|Hs]; try done.
  lia.
Qed.

(** X18: [sortServicesByCreationTime] is a stable sort. Its result is in
    ascending order of creation time, and the services of one creation
    time keep the order they were listed in (so the result is a
    rearrangement of the list). *)
Theorem sortServicesByCreationTime_stable (services : list Service) :
  byCreationTime (sortServicesByCreationTime services)
  /\ (forall t, filter (fun s => CreationTime s = t) (sortServicesByCreationTime services)
                = filter (fun s => CreationTime s = t) services)
  /\ sortServicesByCreationTime services ≡ₚ services.
Proof.
  split; [|split].
  - induction services as [|s l IH]; [constructor|].
    by apply insertByCreationTime_sorted.
  - intros t. induction services as [|s l IH]; [done|].
    change (sortServicesByCreationTime (s :: l))
      with (insertByCreationTime s (sortServicesByCreationTime l)).
    by rewrite insertByCreationTime_filter, !filter_cons, IH.
  - apply BuildSpec.sortServicesByCreationTime_Permutation.
Qed.

(** *** The default export maps *)

Lemma exportMapOf_lookup (l : list string) (m : gmap string bool) (v : string) :
  foldl (fun m e => <[e := true]> m) m l !! v
  = if decide (v ∈ l) then Some true else m !! v.
Proof.
  revert m. induction l as [|e l IH]; intros m; cbn [foldl].
  - by destruct (decide (v ∈ [])) as [Hv|Hv]; [inversion Hv|].
  - rewrite IH. destruct (decide (v ∈ l)) as [Hl|Hl].
    + by rewrite decide_True by (by right).
    + destruct (decide (v = e)) as [->|Hne].
      * rewrite lookup_insert_eq. by rewrite decide_True by left.
      * rewrite lookup_insert_ne by done.
        rewrite decide_False; [done|]. rewrite elem_of_cons. tauto.
Qed.

Lemma exported_defaultExportMap (mesh : option (list string)) (v : string) :
  exported (defaultExportMap mesh) v = true
  <-> match mesh with Some l => v ∈ l | None => v = Public end.
Proof.
  unfold exported, defaultExportMap, exportMapOf. destruct mesh as [l|].
  - rewrite exportMapOf_lookup, lookup_empty. by destruct (decide (v ∈ l)).
  - destruct (decide (v = Public)) as [->|Hne].
    + by rewrite lookup_singleton_eq.
    + by rewrite lookup_singleton_ne.
Qed.

(** X19: the default export maps. After [initDefaultExportMaps] each of the
    three default maps exports to exactly the visibilities listed in the
    mesh config for it, and to public alone when the mesh config lists
    none (a nil list; an empty list exports to nothing); nothing else of
    the snapshot changes the answer: the maps are made anew. *)
Theorem initDefaultExportMaps_defaults (ps : PushContext) (v : string) :
  let ps' := initDefaultExportMaps ps in
  (exported (defaultServiceExportTo ps') v = true
   <-> match DefaultServiceExportTo (Mesh ps) with
       | Some l => v ∈ l | None => v = Public end)
  /\ (exported (defaultVirtualServiceExportTo ps') v = true
      <-> match DefaultVirtualServiceExportTo (Mesh ps) with
          | Some l => v ∈ l | None => v = Public end)
  /\ (exported (defaultDestinationRuleExportTo ps') v = true
      <-> match DefaultDestinationRuleExportTo (Mesh ps) with
          | Some l => v ∈ l | None => v = Public end).
Proof.
  cbn zeta. unfold initDefaultExportMaps. cbn.
  split; [|split]; apply exported_defaultExportMap.
Qed.

(** *** Who is served which service *)

Lemma bucket_appendTo (k : string) (x : Service) (m : gmap string (list Service))
    (ns : string) (s : Service) :
  s ∈ bucket (appendTo k x m) ns <-> s ∈ bucket m ns \/ (ns = k /\ s = x).
Proof.
  unfold appendTo, bucket. destruct (decide (ns = k)) as [->|Hne].
  - rewrite lookup_insert_eq. cbn [from_option id].
    rewrite elem_of_app, list_elem_of_singleton. tauto.
  - rewrite lookup_insert_ne by done. tauto.
Qed.

Lemma served_addPrivateService (own : string) (x : Service) (ps : PushContext)
    (ns : string) (s : Service) :
  served (addPrivateService own x ps) ns s <-> served ps ns s \/ (ns = own /\ s = x).
Proof.
  unfold served, addPrivateService, set_privateServicesByNamespace.
  cbn [privateServicesByNamespace servicesExportedToNamespace publicServices].
  rewrite bucket_appendTo. tauto.
Qed.

Lemma served_addExportedService (target : string) (x : Service) (ps : PushContext)
    (ns : string) (s : Service) :
  served (addExportedService target x ps) ns s <-> served ps ns s \/ (ns = target /\ s = x).
Proof.
  unfold served, addExportedService, set_servicesExportedToNamespace.
  cbn [privateServicesByNamespace servicesExportedToNamespace publicServices].
  rewrite bucket_appendTo. tauto.
Qed.

Lemma served_addPublicService (x : Service) (ps : PushContext) (ns : string) (s : Service) :
  served (addPublicService x ps) ns s <-> served ps ns s \/ s = x.
Proof.
  unfold served, addPublicService, set_publicServices.
  cbn [privateServicesByNamespace servicesExportedToNamespace publicServices].
  rewrite elem_of_app, list_elem_of_singleton. tauto.
Qed.

Lemma served_indexByHostname (x : Service) (ps : PushContext) (ns : string) (s : Service) :
  served (indexByHostname x ps) ns s <-> served ps ns s.
Proof. reflexivity. Qed.

Lemma served_exportTargets (x : Service) (targets : list string) (ps : PushContext)
    (ns : string) (s : Service) :
  served
    (foldl (fun ps exportTo =>
              if String.eqb exportTo Private || String.eqb exportTo (Namespace (Attributes x))
              then addPrivateService (Namespace (Attributes x)) x ps
              else addExportedService exportTo x ps)
           ps targets) ns s
  <-> served ps ns s
      \/ (s = x
          /\ exists t, t ∈ targets
                       /\ if decide (t = Private \/ t = Namespace (Attributes x))
                          then ns = Namespace (Attributes x) else ns = t).
Proof.
  revert ps. induction targets as [|t targets IH]; intros ps; cbn [foldl].
  - split; [by left|]. intros [H|(_ & t & Ht & _)]; [done | inversion Ht].
  - rewrite IH.
    assert ((String.eqb t Private || String.eqb t (Namespace (Attributes x))) = true
            <-> t = Private \/ t = Namespace (Attributes x)) as Hb
      by (by rewrite orb_true_iff, !String.eqb_eq).
    destruct (String.eqb t Private || String.eqb t (Namespace (Attributes x))) eqn:Htest.
    + rewrite served_addPrivateService. split.
      * intros [[H|[-> ->]]|(-> & t' & Ht' & H)]; [by left| |].
        -- right. split; [done|]. exists t. split; [left|].
           by rewrite decide_True by (by apply Hb).
        -- right. split; [done|]. exists t'. split; [by right | done].
      * intros [H|(-> & t' & Ht' & H)]; [by left; left|].
        apply elem_of_cons in Ht' as [->|Ht'].
        -- rewrite decide_True in H by (by apply Hb). left. by right.
        -- right. split; [done|]. by exists t'.
    + assert (~ (t = Private \/ t = Namespace (Attributes x))) as Hn
        by (intros H; apply Hb in H; discriminate).
      rewrite served_addExportedService. split.
      * intros [[H|[-> ->]]|(-> & t' & Ht' & H)]; [by left| |].
        -- right. split; [done|]. exists t. split; [left|].
           by rewrite decide_False.
        -- right. split; [done|]. exists t'. split; [by right | done].
      * intros [H|(-> & t' & Ht' & H)]; [by left; left|].
        apply elem_of_cons in Ht' as [->|Ht'].
        -- rewrite decide_False in H by done. left. by right.
        -- right. split; [done|]. by exists t'.
Qed.

Lemma elem_of_exportTargets (x : Service) (t : string) :
  t ∈ exportTargets x <-> is_Some (ExportTo (Attributes x) !! t).
Proof.
  unfold exportTargets. rewrite list_elem_of_fmap. split.
  - intros ([t' b] & -> & Hin). apply elem_of_map_to_list in Hin. by exists b.
  - intros [b Hb]. exists (t, b). split; [done | by apply elem_of_map_to_list].
Qed.

(** One turn of the loop of [initServiceRegistry], seen from a namespace. *)
Lemma served_registerService (ps : PushContext) (x : Service) (ns : string) (s : Service) :
  served (registerService ps x) ns s
  <-> served ps ns s \/ (s = x /\ visibleTo (defaultServiceExportTo ps) ns x).
Proof.
  unfold registerService, visibleTo. cbn zeta.
  destruct (Nat.eqb (size (ExportTo (Attributes x))) 0); cbv iota.
  { rewrite served_indexByHostname.
    destruct (exported (defaultServiceExportTo ps) Private); cbv iota.
    - rewrite served_addPrivateService. tauto.
    - destruct (exported (defaultServiceExportTo ps) Public); cbv iota.
      + rewrite served_addPublicService. tauto.
      + intuition discriminate. }
  destruct (exported (ExportTo (Attributes x)) Public); cbv iota.
  { rewrite served_addPublicService. tauto. }
  destruct (exported (ExportTo (Attributes x)) None_); cbv iota.
  { tauto. }
  rewrite served_indexByHostname, served_exportTargets.
  apply or_iff_compat_l, and_iff_compat_l. split.
  - intros (t & Ht & H). apply elem_of_exportTargets in Ht.
    destruct (decide (t = Private \/ t = Namespace (Attributes x))) as [[->| ->]|Hn].
    + left. split; [done | by left].
    + left. split; [done | by right].
    + subst ns. right. split; [tauto | split; [tauto | done]].
  - intros [[-> [H|H]]|(Hp & Ho & H)].
    + exists Private. split; [by apply elem_of_exportTargets|].
      by rewrite decide_True by (by left).
    + exists (Namespace (Attributes x)). split; [by apply elem_of_exportTargets|].
      by rewrite decide_True by (by right).
    + exists ns. split; [by apply elem_of_exportTargets|].
      rewrite decide_False; [done | tauto].
Qed.

Lemma served_foldl_registerService (l : list Service) (ps : PushContext)
    (ns : string) (s : Service) :
  served (foldl registerService ps l) ns s
  <-> served ps ns s \/ (s ∈ l /\ visibleTo (defaultServiceExportTo ps) ns s).
Proof.
  revert ps. induction l as [|x l IH]; intros ps; cbn [foldl].
  - split; [by left|]. intros [H|[H _]]; [done | inversion H].
  - rewrite IH, served_registerService, BuildSpec.defaultServiceExportTo_registerService.
    rewrite elem_of_cons. split.
    + intros [[H|[-> H]]|[H1 H2]]; auto.
    + intros [H|[[->|H1] H2]]; auto.
Qed.

Lemma served_initServiceAccounts (env : Environment) (l : list Service)
    (ps : PushContext) (ns : string) (s : Service) :
  served (initServiceAccounts env l ps) ns s <-> served ps ns s.
Proof.
  unfold initServiceAccounts. revert ps.
  induction l as [|x l IH]; intros ps; cbn [foldl]; [done|]. by rewrite IH.
Qed.

(** X20: who is served which service. After [initServiceRegistry] on a
    snapshot with empty buckets, [Services] answers a proxy without a
    sidecar scope exactly the services of the store that are visible from
    its config namespace. *)
Theorem Services_visibleTo (env : Environment) (services : list Service)
    (ps : PushContext) (proxy : Proxy) (s : Service) :
  emptyBuckets ps ->
  envServices env = inr services ->
  userSidecarScope proxy = None ->
  s ∈ Services (initServiceRegistry env ps).1 (Some proxy)
  <-> s ∈ services
      /\ visibleTo (defaultServiceExportTo ps) (ConfigNamespace proxy) s.
Proof.
  intros (Hpub & Hpriv & Hexp) Hstore Hscope.
  unfold Services. rewrite Hscope. rewrite !elem_of_app.
  change (s ∈ bucket (privateServicesByNamespace ?p) ?ns
          \/ s ∈ bucket (servicesExportedToNamespace ?p) ?ns)
    with (s ∈ bucket (privateServicesByNamespace p) ns
          \/ s ∈ bucket (servicesExportedToNamespace p) ns).
  transitivity (served (initServiceRegistry env ps).1 (ConfigNamespace proxy) s).
  { unfold served. tauto. }
  unfold initServiceRegistry. rewrite Hstore. cbn [fst].
  rewrite served_initServiceAccounts, served_foldl_registerService.
  rewrite (BuildSpec.sortServicesByCreationTime_Permutation services).
  assert (~ served ps (ConfigNamespace proxy) s) as Hnot.
  { unfold served, bucket. rewrite Hpub, Hpriv, Hexp, !lookup_empty. cbn [from_option id].
    rewrite !elem_of_nil. tauto. }
  tauto.
Qed.

Lemma Services_visibleTo_witness :
  svcToOther ∈ Services (initServiceRegistry store0 (initDefaultExportMaps freshContext)).1
                        (Some (gatewayProxy "other"))
  <-> svcToOther ∈ [svcDefault; svcPublic; svcPrivate; svcToOther; svcNone]
      /\ visibleTo (defaultServiceExportTo (initDefaultExportMaps freshContext))
                   (ConfigNamespace (gatewayProxy "other")) svcToOther.
Proof.
  apply (Services_visibleTo store0 [svcDefault; svcPublic; svcPrivate; svcToOther; svcNone]
           (initDefaultExportMaps freshContext) (gatewayProxy "other") svcToOther).
  - split; [reflexivity | split; reflexivity].
  - reflexivity.
  - reflexivity.
Defined.

(** *** The hostname indices *)

Lemma ServiceByHostname_exportTargets (x : Service) (targets : list string)
    (ps : PushContext) :
  let ps' :=
    foldl (fun ps exportTo =>
             if String.eqb exportTo Private || String.eqb exportTo (Namespace (Attributes x))
             then addPrivateService (Namespace (Attributes x)) x ps
             else addExportedService exportTo x ps)
          ps targets in
  ServiceByHostname ps' = ServiceByHostname ps
  /\ ServiceByHostnameAndNamespace ps' = ServiceByHostnameAndNamespace ps.
Proof.
  revert ps. induction targets as [|t targets IH]; intros ps; cbn [foldl]; [done|].
  cbn zeta in IH. destruct (IH (if String.eqb t Private
                                      || String.eqb t (Namespace (Attributes x))
                                   then addPrivateService (Namespace (Attributes x)) x ps
                                   else addExportedService t x ps)) as [-> ->].
  by destruct (_ || _).
Qed.

(** One turn of the loop: the indices are written for the services that
    reach the end of the body. *)
Lemma ServiceByHostname_registerService (ps : PushContext) (x : Service) :
  ServiceByHostname (registerService ps x)
  = (if indexed x then <[Hostname x := x]> (ServiceByHostname ps)
     else ServiceByHostname ps)
  /\ ServiceByHostnameAndNamespace (registerService ps x)
     = (if indexed x
        then <[Hostname x := <[Namespace (Attributes x) := x]>
                               (default ∅ (ServiceByHostnameAndNamespace ps !! Hostname x))]>
               (ServiceByHostnameAndNamespace ps)
        else ServiceByHostnameAndNamespace ps).
Proof.
  unfold registerService, indexed. cbn zeta.
  destruct (Nat.eqb (size (ExportTo (Attributes x))) 0); cbn [orb].
  { by destruct (exported (defaultServiceExportTo ps) Private);
      [|destruct (exported (defaultServiceExportTo ps) Public)]. }
  destruct (exported (ExportTo (Attributes x)) Public); cbn [negb andb]; [done|].
  destruct (exported (ExportTo (Attributes x)) None_); cbn [negb andb]; [done|].
  unfold indexByHostname, set_ServiceByHostname, set_ServiceByHostnameAndNamespace.
  cbn [ServiceByHostname ServiceByHostnameAndNamespace].
  destruct (ServiceByHostname_exportTargets x (exportTargets x) ps) as [-> ->]. done.
Qed.

Lemma ServiceByHostname_initServiceAccounts (env : Environment) (l : list Service)
    (ps : PushContext) :
  ServiceByHostname (initServiceAccounts env l ps) = ServiceByHostname ps
  /\ ServiceByHostnameAndNamespace (initServiceAccounts env l ps)
     = ServiceByHostnameAndNamespace ps.
Proof.
  unfold initServiceAccounts. revert ps.
  induction l as [|x l IH]; intros ps; cbn [foldl]; [done|].
  by destruct (IH (set_ServiceAccounts
                     (<[Hostname x :=
                          foldl (fun byPort port =>
                                   if String.eqb (Protocol port) UDP then byPort
                                   else <[PortNumber port :=
                                            GetIstioServiceAccounts env x [PortNumber port]]>
                                          byPort)
                                (default ∅ (ServiceAccounts ps !! Hostname x)) (Ports x)]>
                        (ServiceAccounts ps)) ps)) as [-> ->].
Qed.

Lemma last_snoc_filter {A} (P : A -> Prop) `{forall x, Decision (P x)} (l : list A) (x : A) :
  last (filter P (l ++ [x])) = if decide (P x) then Some x else last (filter P l).
Proof.
  rewrite filter_app, filter_cons, filter_nil.
  destruct (decide (P x)); [apply last_snoc | by rewrite app_nil_r].
Qed.

Lemma ServiceByHostname_loop (l : list Service) (ps : PushContext) (h ns : string) :
  ServiceByHostname (foldl registerService ps l) !! h
  = match last (filter (fun s => indexed s = true /\ Hostname s = h) l) with
    | Some s => Some s
    | None => ServiceByHostname ps !! h
    end
  /\ ServiceByHostnameAndNamespace (foldl registerService ps l) !! h
       ≫= (fun byNamespace => byNamespace !! ns)
     = match last (filter (fun s => indexed s = true /\ Hostname s = h
                                    /\ Namespace (Attributes s) = ns) l) with
       | Some s => Some s
       | None => ServiceByHostnameAndNamespace ps !! h
                   ≫= (fun byNamespace => byNamespace !! ns)
       end.
Proof.
  induction l as [|x l [IH1 IH2]] using rev_ind; [done|].
  rewrite foldl_app. cbn [foldl]. rewrite !last_snoc_filter.
  destruct (ServiceByHostname_registerService (foldl registerService ps l) x) as [-> ->].
  destruct (indexed x) eqn:Hx.
  - split.
    + destruct (decide (Hostname x = h)) as [<-|Hne].
      * rewrite lookup_insert_eq. by rewrite decide_True.
      * rewrite lookup_insert_ne by done. rewrite decide_False by tauto. exact IH1.
    + destruct (decide (Hostname x = h)) as [<-|Hne].
      * rewrite lookup_insert_eq. cbn [mbind option_bind].
        destruct (decide (Namespace (Attributes x) = ns)) as [<-|Hns].
        -- rewrite lookup_insert_eq. by rewrite decide_True.
        -- rewrite lookup_insert_ne by done. rewrite decide_False by tauto.
           rewrite <- IH2.
           by destruct (ServiceByHostnameAndNamespace (foldl registerService ps l)
                          !! Hostname x).
      * rewrite lookup_insert_ne by done. rewrite decide_False by tauto. exact IH2.
  - rewrite !decide_False by (intros [? _]; discriminate). by split.
Qed.

(** X21: the hostname indices. After [initServiceRegistry],
    [ServiceByHostname] holds under a hostname the latest created service of
    that hostname among those the loop indexes, and
    [ServiceByHostnameAndNamespace] the latest created one of that hostname
    and namespace; where there is none, the old entry stays. The loop does
    not index a service whose exportTo contains public or none: it leaves
    the body before. *)
Theorem initServiceRegistry_hostnames (env : Environment) (services : list Service)
    (ps : PushContext) (h ns : string) :
  envServices env = inr services ->
  let ps' := (initServiceRegistry env ps).1 in
  let sorted := sortServicesByCreationTime services in
  ServiceByHostname ps' !! h
  = match last (filter (fun s => indexed s = true /\ Hostname s = h) sorted) with
    | Some s => Some s
    | None => ServiceByHostname ps !! h
    end
  /\ ServiceByHostnameAndNamespace ps' !! h ≫= (fun byNamespace => byNamespace !! ns)
     = match last (filter (fun s => indexed s = true /\ Hostname s = h
                                    /\ Namespace (Attributes s) = ns) sorted) with
       | Some s => Some s
       | None => ServiceByHostnameAndNamespace ps !! h
                   ≫= (fun byNamespace => byNamespace !! ns)
       end.
Proof.
  intros Hstore ps' sorted. unfold ps', initServiceRegistry. rewrite Hstore. cbn [fst].
  destruct (ServiceByHostname_initServiceAccounts env sorted (foldl registerService ps sorted))
    as [H1 H2].
  fold sorted. rewrite H1, H2. apply ServiceByHostname_loop.
Qed.

Lemma initServiceRegistry_hostnames_witness :
  ServiceByHostname (initServiceRegistry store0 (initDefaultExportMaps freshContext)).1
    !! "b.default.svc"
  = match last (filter (fun s => indexed s = true /\ Hostname s = "b.default.svc")
                       (sortServicesByCreationTime
                          [svcDefault; svcPublic; svcPrivate; svcToOther; svcNone])) with
    | Some s => Some s
    | None => ServiceByHostname (initDefaultExportMaps freshContext) !! "b.default.svc"
    end
  /\ ServiceByHostnameAndNamespace
       (initServiceRegistry store0 (initDefaultExportMaps freshContext)).1
       !! "b.default.svc" ≫= (fun byNamespace => byNamespace !! "default")
     = match last (filter (fun s => indexed s = true /\ Hostname s = "b.default.svc"
                                    /\ Namespace (Attributes s) = "default")
                          (sortServicesByCreationTime
                             [svcDefault; svcPublic; svcPrivate; svcToOther; svcNone])) with
       | Some s => Some s
       | None => ServiceByHostnameAndNamespace (initDefaultExportMaps freshContext)
                   !! "b.default.svc" ≫= (fun byNamespace => byNamespace !! "default")
       end.
Proof.
  apply (initServiceRegistry_hostnames store0
           [svcDefault; svcPublic; svcPrivate; svcToOther; svcNone]
           (initDefaultExportMaps freshContext) "b.default.svc" "default").
  reflexivity.
Defined.

(** *** The service accounts *)

Lemma accounts_ports (env : Environment) (svc : Service) (ports : list Port)
    (byPort : gmap Z (list string)) (port : Z) :
  foldl (fun byPort p =>
           if String.eqb (Protocol p) UDP then byPort
           else <[PortNumber p := GetIstioServiceAccounts env svc [PortNumber p]]> byPort)
        byPort ports !! port
  = if existsb (fun p => Z.eqb (PortNumber p) port && negb (String.eqb (Protocol p) UDP))
               ports
    then Some (GetIstioServiceAccounts env svc [port])
    else byPort !! port.
Proof.
  revert byPort. induction ports as [|p ports IH]; intros byPort; cbn [foldl existsb]; [done|].
  rewrite IH. rewrite orb_comm.
  destruct (existsb _ ports); cbn [orb]; [done|].
  destruct (String.eqb (Protocol p) UDP); cbn [negb].
  - by rewrite andb_false_r.
  - rewrite andb_true_r. destruct (Z.eqb_spec (PortNumber p) port) as [<-|Hne].
    + by rewrite lookup_insert_eq.
    + by rewrite lookup_insert_ne.
Qed.

(** X22: the service accounts. After [initServiceAccounts] every hostname
    of the list has an entry, and under a hostname and a port number stand
    the accounts asked for the last service of the list with that hostname
    and a port of that number that is not UDP; where there is none, the old
    entry stays, so a UDP port never gets one. *)
Theorem initServiceAccounts_ports (env : Environment) (services : list Service)
    (ps : PushContext) (h : string) (port : Z) :
  let ps' := initServiceAccounts env services ps in
  ServiceAccounts ps' !! h ≫= (fun byPort => byPort !! port)
  = match last (filter (fun svc => Hostname svc = h /\ hasPort svc port = true) services) with
    | Some svc => Some (GetIstioServiceAccounts env svc [port])
    | None => ServiceAccounts ps !! h ≫= (fun byPort => byPort !! port)
    end
  /\ (is_Some (ServiceAccounts ps' !! h)
      <-> is_Some (ServiceAccounts ps !! h) \/ exists svc, svc ∈ services /\ Hostname svc = h).
Proof.
  cbn zeta. unfold initServiceAccounts.
  induction services as [|svc l [IH1 IH2]] using rev_ind.
  { split; [done|]. cbn [foldl]. split; [by left|].
    intros [H|(svc & Hsvc & _)]; [done | inversion Hsvc]. }
  rewrite foldl_app. cbn [foldl]. rewrite last_snoc_filter.
  assert (forall v p, ServiceAccounts (set_ServiceAccounts v p) = v) as Hset by reflexivity.
  rewrite !Hset.
  destruct (decide (Hostname svc = h)) as [<-|Hne].
  - rewrite lookup_insert_eq. cbn [mbind option_bind]. split.
    + rewrite accounts_ports. fold (hasPort svc port).
      destruct (hasPort svc port) eqn:Hport.
      * by rewrite decide_True.
      * rewrite decide_False by (intros [_ ?]; discriminate). rewrite <- IH1.
        by destruct (ServiceAccounts _ !! Hostname svc).
    + split; [|intros _; by eexists]. intros _. right. exists svc. split; [|done].
      apply elem_of_app. right. left.
  - rewrite lookup_insert_ne by done. rewrite decide_False by tauto.
    split; [exact IH1|]. rewrite IH2. split.
    + intros [H|(svc' & Hin & Hh)]; [by left|]. right. exists svc'.
      split; [|done]. apply elem_of_app. by left.
    + intros [H|(svc' & Hin & Hh)]; [by left|]. right. exists svc'. split; [|done].
      apply elem_of_app in Hin as [Hin|Hin]; [done|].
      apply list_elem_of_singleton in Hin. by subst.
Qed.

(** *** Initializing once *)

Section Once.

Variable helpers : Helpers.
Variable env : Environment.

Lemma initDone_exportTargets (x : Service) (targets : list string) (ps : PushContext) :
  initDone
    (foldl (fun ps exportTo =>
              if String.eqb exportTo Private || String.eqb exportTo (Namespace (Attributes x))
              then addPrivateService (Namespace (Attributes x)) x ps
              else addExportedService exportTo x ps)
           ps targets)
  = initDone ps.
Proof.
  revert ps. induction targets as [|t targets IH]; intros ps; cbn [foldl]; [done|].
  rewrite IH. by destruct (_ || _).
Qed.

Lemma initDone_registerService (ps : PushContext) (x : Service) :
  initDone (registerService ps x) = initDone ps.
Proof.
  unfold registerService.
  repeat match goal with |- context [if ?b then _ else _] => destruct b end;
    try reflexivity.
  change (initDone (indexByHostname x ?p)) with (initDone p).
  apply initDone_exportTargets.
Qed.

Lemma initDone_initServiceRegistry (ps : PushContext) :
  initDone (initServiceRegistry env ps).1 = initDone ps.
Proof.
  unfold initServiceRegistry. destruct (envServices env) as [err|services]; cbn [fst]; [done|].
  assert (forall l ps0, initDone (initServiceAccounts env l ps0) = initDone ps0) as Hacc.
  { unfold initServiceAccounts. induction l as [|x l IH]; intros ps0; cbn [foldl]; [done|].
    by rewrite IH. }
  assert (forall l ps0, initDone (foldl registerService ps0 l) = initDone ps0) as Hreg.
  { induction l as [|x l IH]; intros ps0; cbn [foldl]; [done|].
    by rewrite IH, initDone_registerService. }
  by rewrite Hacc, Hreg.
Qed.

Lemma initDone_initPass (k : IndexClass) (ps : PushContext) :
  initDone (initPass helpers env k ps).1 = initDone ps.
Proof.
  destruct k; cbn [initPass].
  - apply initDone_initServiceRegistry.
  - unfold initVirtualServices.
    by destruct (envList env VirtualService);
      [|destruct (indexVirtualServices _ _ _) as [[? ?] ?]].
  - unfold initDestinationRules, SetDestinationRules.
    by destruct (envList env DestinationRuleKind);
      [|destruct (processDestinationRules _ _ _) as [[? ?] ?]].
  - unfold initAuthnPolicies. by destruct (initAuthenticationPolicies _ _).
  - unfold initAuthorizationPolicies. by destruct (GetAuthorizationPolicies _ _).
  - unfold initEnvoyFilters. by destruct (envList env EnvoyFilter).
  - unfold initGateways. by destruct (envList env GatewayKind).
  - unfold initSidecarScopes. by destruct (envList env Sidecar).
Qed.

Lemma initDone_copyIndex (old : PushContext) (k : IndexClass) (ps : PushContext) :
  initDone (copyIndex old k ps) = initDone ps.
Proof. by destruct k. Qed.

Lemma initDone_stages (l : list Stage) (st : State) :
  (forall s ps, s ∈ l -> initDone (s.2 ps).1 = initDone ps) ->
  initDone (ctx (stages l st).1) = initDone (ctx st).
Proof.
  revert st. induction l as [|s l IH]; intros st Hl; [done|].
  rewrite BuildSpec.stages_cons.
  pose proof (Hl s (ctx st) ltac:(left)) as Hs.
  destruct s as [log f]. cbn [fst snd] in *.
  destruct (f (ctx st)) as [ps [e|]]; cbn [fst ctx] in *.
  - exact Hs.
  - rewrite IH; [exact Hs|]. intros s' ps' Hs'. apply Hl. by right.
Qed.

Lemma initDone_createOrUpdate (old : option PushContext) (req : option PushRequest)
    (st : State) :
  initDone (ctx (createOrUpdate helpers env old req st).1) = initDone (ctx st).
Proof.
  assert (initDone (ctx (createNewContext helpers env st).1) = initDone (ctx st)) as Hnew.
  { rewrite BuildSpec.createNewContext_stages. apply initDone_stages.
    intros s ps Hs. apply elem_of_cons in Hs as [->|Hs]; [done|].
    apply list_elem_of_fmap in Hs as (k & -> & _). apply initDone_initPass. }
  unfold createOrUpdate. destruct req as [r|], old as [o|]; try exact Hnew.
  destruct (negb (initDone o) || Nat.eqb (size (ConfigsUpdated r)) 0); [exact Hnew|].
  rewrite BuildSpec.updateContext_stages. unfold andThen, enter. cbn [ctx calls].
  rewrite initDone_stages; [done|].
  intros s ps Hs. apply list_elem_of_fmap in Hs as (k & -> & _).
  unfold updateStage. destruct (rebuildFlag (changedBy r) k); cbn [snd copyStage fst].
  - apply initDone_initPass.
  - apply initDone_copyIndex.
Qed.

(** X23: a snapshot is initialized once. When [InitContext] returns no
    error the snapshot is marked done, and any further [InitContext] on it,
    whatever its arguments, returns at once and changes nothing, not even
    the log of calls; when it returns an error the snapshot is not marked
    done, so a later call builds again. *)
Theorem InitContext_once (old old' : option PushContext) (req req' : option PushRequest)
    (st : State) :
  let '(st', err) := InitContext helpers env old req st in
  match err with
  | None =>
      initDone (ctx st') = true
      /\ InitContext helpers env old' req' st' = (st', None)
  | Some _ => initDone (ctx st') = false
  end.
Proof.
  destruct (initDone (ctx st)) eqn:Hdone.
  - unfold InitContext at 1. rewrite Hdone. split; [done|].
    unfold InitContext. by rewrite Hdone.
  - rewrite BuildSpec.InitContext_unfold by done.
    pose proof (initDone_createOrUpdate old req
                  {| ctx := initDefaultExportMaps
                              (setEnvironment (envMesh env) (envNetworks env) (Some env)
                                 (Some env) (envVersion env) (ctx st));
                     calls := calls st ++ [CallInitDefaultExportMaps] |}) as Hframe.
    destruct (createOrUpdate helpers env old req _) as [st2 [e|]]; cbn [fst] in Hframe.
    + rewrite Hframe. cbn [ctx]. exact Hdone.
    + split; [done|]. unfold InitContext. cbn [ctx]. done.
Qed.

(** *** Full builds and incremental updates *)

Lemma stages_log_irrelevant (l : list Stage) (st st' : State) :
  ctx st = ctx st' ->
  ctx (stages l st).1 = ctx (stages l st').1 /\ (stages l st).2 = (stages l st').2.
Proof.
  revert st st'. induction l as [|s l IH]; intros st st' Hctx; [done|].
  rewrite !BuildSpec.stages_cons, Hctx.
  destruct (s.2 (ctx st')) as [ps [e|]]; [done|]. by apply IH.
Qed.

(** X24: a full build reads neither the old snapshot nor the request. When
    a full build is required, [InitContext] returns what it returns with no
    old snapshot and no request: the same snapshot, the same log of calls
    and the same error. *)
Theorem InitContext_full_build_fresh (old : option PushContext) (req : option PushRequest)
    (st : State) :
  fullBuildRequired old req ->
  InitContext helpers env old req st = InitContext helpers env None None st.
Proof.
  intros Hfull. apply (BuildSpec.fullBuildRequired_test old req) in Hfull.
  assert (forall st0, createOrUpdate helpers env old req st0
                      = createOrUpdate helpers env None None st0) as Hsame.
  { intros st0. unfold createOrUpdate. destruct req as [r|], old as [o|]; try done.
    by rewrite Hfull. }
  unfold InitContext. destruct (initDone (ctx st)); [done|].
  apply BuildSpec.andThen_ext; [done|]. intros st1.
  apply BuildSpec.andThen_ext; [done|]. intros st2.
  apply BuildSpec.andThen_ext; [exact Hsame | done].
Qed.

(** X25: an update that rebuilds everything is a full build. When the
    request marks every index class, [updateContext] leaves the snapshot
    and returns the error that [createNewContext] does from the same
    snapshot: nothing of the old snapshot is carried over. *)
Theorem updateContext_all_changed (old : PushContext) (req : PushRequest) (st : State) :
  (forall c, mustRebuild req c) ->
  ctx (updateContext helpers env old req st).1 = ctx (createNewContext helpers env st).1
  /\ (updateContext helpers env old req st).2 = (createNewContext helpers env st).2.
Proof.
  intros Hall.
  rewrite BuildSpec.updateContext_stages, BuildSpec.createNewContext_stages.
  rewrite BuildSpec.stages_cons. cbn [fst snd].
  unfold andThen, enter.
  assert (map (updateStage helpers env old (changedBy req)) classOrder
          = map (fun c => (Some (passOf c), initPass helpers env c)) classOrder) as ->.
  { apply map_ext. intros c. unfold updateStage.
    by rewrite (proj2 (BuildSpec.rebuildFlag_mustRebuild req c) (Hall c)). }
  by apply stages_log_irrelevant.
Qed.

End Once.

Lemma InitContext_full_build_fresh_witness :
  InitContext helpers0 store0 (Some freshContext) (Some virtualServiceUpdate)
    {| ctx := freshContext; calls := [] |}
  = InitContext helpers0 store0 None None {| ctx := freshContext; calls := [] |}.
Proof.
  apply (InitContext_full_build_fresh helpers0 store0 (Some freshContext)
           (Some virtualServiceUpdate) {| ctx := freshContext; calls := [] |}).
  right. right. left. exists freshContext. split; reflexivity.
Defined.

Lemma updateContext_all_changed_witness :
  ctx (updateContext helpers0 store0 firstContext everythingUpdate
         {| ctx := freshContext; calls := [] |}).1
  = ctx (createNewContext helpers0 store0 {| ctx := freshContext; calls := [] |}).1
  /\ (updateContext helpers0 store0 firstContext everythingUpdate
        {| ctx := freshContext; calls := [] |}).2
     = (createNewContext helpers0 store0 {| ctx := freshContext; calls := [] |}).2.
Proof.
  apply (updateContext_all_changed helpers0 store0 firstContext everythingUpdate
           {| ctx := freshContext; calls := [] |}).
  intros c. apply BuildSpec.rebuildFlag_mustRebuild. by destruct c; vm_compute.
Defined.

End RegistrySpec.
